(** * Crypto-Dashboard data pipeline: retry policy, error formatting,
      series downsampling and validation, two-stage filter resolver.

    Shallow embedding of
      - services/coingeckoApi.ts  (handleApiError, fetchChartData, withRetry)
      - utils/constants.ts        (ERROR_MESSAGES, RETRY_CONFIG, FILTER_CONFIG, TIMEFRAMES)
      - utils/chartUtils.ts       (downsampleData, validateChartData, formatChartError)
      - utils/security.ts         (getSafeErrorMessage)
      - hooks/useCryptoFiltering.ts (stage 1, needsApiCall, stage 2 filter,
                                     filteringState, useClientSideFiltering)
      - hooks/useChartData.ts     (transformChartData, the query function)
      - hooks/useAutoRefresh.ts   (useAutoRefresh, calculateTimeAgo)
      - utils/formatters.ts       (getRetryDelay, truncateText)
      - utils/security.ts         (sanitizeSearchQuery, sanitizeString,
                                   isValidCoinId)
    followed by the properties of these functions.  The product behind
    the threshold index of the filter is rounded to double precision
    (module [Double]). *)

From Stdlib Require Import ZArith QArith Qround Qabs List String Ascii Bool Lia.
From Stdlib Require Import Permutation Sorted.
Import ListNotations.

Set Implicit Arguments.
Close Scope Q_scope.

(* ================================================================== *)
(** * utils/constants.ts *)
(* ================================================================== *)

Module Constants.

Local Open Scope string_scope.

(** [ERROR_MESSAGES] *)
Definition API_UNAVAILABLE : string :=
  "Servicio temporalmente no disponible. Intenta nuevamente en unos momentos.".
Definition RATE_LIMIT : string :=
  "Demasiadas solicitudes. Esperando para reintentar...".
Definition NETWORK_ERROR : string :=
  "Error de conexión. Verifica tu conexión a internet.".
Definition NOT_FOUND : string :=
  "No se encontraron resultados para tu búsqueda.".
Definition GENERIC : string :=
  "Ocurrió un error inesperado. Por favor, intenta nuevamente.".

(** [RETRY_CONFIG] *)
Definition MAX_RETRIES : Z := 3.
Definition INITIAL_DELAY : Z := 1000.
Definition MAX_DELAY : Z := 10000.
Definition BACKOFF_MULTIPLIER : Z := 2.

(** [COINGECKO_CONFIG] (the part the pipeline reads) *)
Definition DEFAULT_PER_PAGE : Z := 50.

(** [FILTER_CONFIG] *)
Definition MIN_RESULTS_THRESHOLD : Z := 5.
Definition CACHE_TIME : Z := 2 * 60 * 1000.
(** [DYNAMIC_THRESHOLD_PERCENTAGE: 0.1]: the literal denotes the double
    nearest to one tenth, [0x1.999999999999ap-4], given here by its exact
    value [3602879701896397 / 2^55]. *)
Definition DYNAMIC_THRESHOLD_PERCENTAGE : Q :=
  3602879701896397 # 36028797018963968.

(** [TIMEFRAMES]: the own keys of the table.  The [days] payload only
    travels to the HTTP layer and is not needed here. *)
Definition TIMEFRAMES : list string := ["1h"; "24h"; "7d"; "30d"; "1y"].

(** [TIMEFRAMES] is a plain object literal, so [TIMEFRAMES[k]] also finds
    the members inherited from [Object.prototype]; all of them are truthy. *)
Definition Object_prototype_keys : list string :=
  ["constructor"; "__defineGetter__"; "__defineSetter__"; "hasOwnProperty";
   "__lookupGetter__"; "__lookupSetter__"; "isPrototypeOf";
   "propertyIsEnumerable"; "toString"; "valueOf"; "__proto__";
   "toLocaleString"].

End Constants.

(* ================================================================== *)
(** * JavaScript values thrown and caught by the pipeline *)
(* ================================================================== *)

Module Js.

(** [String.prototype.includes]: does [needle] occur in [hay]? *)
Fixpoint includes (hay needle : string) : bool :=
  if String.prefix needle hay then true
  else match hay with
       | EmptyString => false
       | String _ rest => includes rest needle
       end.

(** Membership in a list of keys. *)
Definition has_key (k : string) (keys : list string) : bool :=
  existsb (String.eqb k) keys.

(** The body of an HTTP error response: [status] and the optional
    [error] field of its JSON payload ([{ error?: string } | undefined]). *)
Record AxiosResponse : Type := mkResponse {
  resp_status : Z;
  resp_error  : option string
}.

(** What a [catch (error)] clause may receive ([unknown]).
    - [AxiosError m r]: [axios.isAxiosError] holds; [r] is [error.response]
      ([None] when no response was received).  It is also an [Error].
    - [JsError m]: any other [Error] instance with message [m].
    - [NonError]: a thrown value that is not an [Error]. *)
Inductive thrown : Type :=
| AxiosError (message : string) (response : option AxiosResponse)
| JsError (message : string)
| NonError.

(** [error instanceof Error], giving the message. *)
Definition error_message (e : thrown) : option string :=
  match e with
  | AxiosError m _ => Some m
  | JsError m => Some m
  | NonError => None
  end.

(** A settled promise. *)
Inductive outcome (T : Type) : Type :=
| Resolved (v : T)
| Rejected (e : thrown).
Arguments Resolved {T} v.
Arguments Rejected {T} e.

End Js.

(* ================================================================== *)
(** * services/coingeckoApi.ts *)
(* ================================================================== *)

Module Api.

Import Js.
Local Open Scope Z_scope.

(** [interface ApiError { status: number; message: string }] *)
Record ApiError : Type := mkApiError {
  status  : Z;
  message : string
}.

(** [x || y] on strings: the empty string is falsy. *)
Definition or_else (x : option string) (y : string) : string :=
  match x with
  | Some s => if String.eqb s "" then y else s
  | None => y
  end.

(** [handleApiError(error)] *)
Definition handleApiError (error : thrown) : ApiError :=
  match error with
  | AxiosError _ response =>
      (* const status = axiosError.response?.status || 0 *)
      let status := match response with
                    | Some r => resp_status r
                    | None => 0
                    end in
      if status =? 429 then
        {| status := 429; message := Constants.RATE_LIMIT |}
      else
        match response with
        | None =>
            {| status := 0; message := Constants.NETWORK_ERROR |}
        | Some r =>
            {| status := status;
               message := or_else (resp_error r) Constants.GENERIC |}
        end
  | _ => {| status := 500; message := Constants.GENERIC |}
  end.

(** The guard of [withRetry]:
    [status >= 400 && status < 500 && status !== 429]. *)
Definition isClientError (e : ApiError) : bool :=
  (400 <=? status e) && (status e <? 500) && negb (status e =? 429).

(** [RETRY_CONFIG.INITIAL_DELAY * Math.pow(BACKOFF_MULTIPLIER, attempt)],
    capped by [Math.min(_, MAX_DELAY)]. *)
Definition retryDelay (attempt : Z) : Z :=
  Z.min (Constants.INITIAL_DELAY * Constants.BACKOFF_MULTIPLIER ^ attempt)
        Constants.MAX_DELAY.

(** What the caller of [withRetry] observes when the promise rejects:
    the classified [ApiError], or [new Error(ERROR_MESSAGES.GENERIC)]
    from the final [throw lastError || new Error(...)]. *)
Inductive raised : Type :=
| RaisedApi (e : ApiError)
| RaisedError (msg : string).

Inductive settled (T : Type) : Type :=
| Returned (v : T)
| Threw (r : raised).
Arguments Returned {T} v.
Arguments Threw {T} r.

(** Effects performed while retrying, in program order. *)
Inductive event : Type :=
| Invoke              (* [await operation()] *)
| Sleep (ms : Z).     (* [await delay(ms)] *)

Record Run (T St : Type) : Type := mkRun {
  trace  : list event;
  result : settled T;
  final  : St
}.

Definition is_invoke (e : event) : bool :=
  match e with Invoke => true | Sleep _ => false end.

(** Number of times the operation was invoked. *)
Definition calls {T St} (r : Run T St) : nat :=
  List.length (filter is_invoke (trace r)).

Definition delays {T St} (r : Run T St) : list Z :=
  flat_map (fun e => match e with Sleep ms => [ms] | Invoke => [] end)
           (trace r).

Definition emit {T St} (es : list event) (r : Run T St) : Run T St :=
  {| trace := es ++ trace r; result := result r; final := final r |}.

Section WithOperation.

(** An operation [() => Promise<T>] is a stateful computation: run in
    state [s] it settles, one way or the other, and leaves a new state
    behind it. *)
Variables (T St : Type).
Variable operation : St -> outcome T * St.

(** State in which invocation number [k] (from 0) starts. *)
Fixpoint state_before (s : St) (k : nat) : St :=
  match k with
  | O => s
  | S k' => state_before (snd (operation s)) k'
  end.

(** How invocation number [k] settles. *)
Definition outcome_at (s : St) (k : nat) : outcome T :=
  fst (operation (state_before s k)).

(** The [for (let attempt = 0; attempt <= maxRetries; attempt++)] loop,
    entered at the loop test with the current [attempt], [lastError]
    and operation state.  [fuel] bounds the number of loop tests; [None]
    means the bound was too small. *)
Fixpoint retry_loop (fuel : nat) (maxRetries attempt : Z)
         (lastError : option ApiError) (s : St) : option (Run T St) :=
  match fuel with
  | O => None
  | S fuel' =>
      if attempt <=? maxRetries then
        match operation s with
        | (Resolved v, s') =>
            Some {| trace := [Invoke]; result := Returned v; final := s' |}
        | (Rejected error, s') =>
            let lastError := handleApiError error in
            if isClientError lastError then
              Some {| trace := [Invoke];
                      result := Threw (RaisedApi lastError); final := s' |}
            else if attempt =? maxRetries then
              Some {| trace := [Invoke];
                      result := Threw (RaisedApi lastError); final := s' |}
            else
              option_map (emit [Invoke; Sleep (retryDelay attempt)])
                (retry_loop fuel' maxRetries (attempt + 1)
                            (Some lastError) s')
        end
      else
        (* throw lastError || new Error(ERROR_MESSAGES.GENERIC) *)
        Some {| trace := [];
                result := Threw (match lastError with
                                 | Some e => RaisedApi e
                                 | None => RaisedError Constants.GENERIC
                                 end);
                final := s |}
  end.

(** [withRetry(operation, maxRetries)], [maxRetries] an integer.  At most
    [maxRetries + 1] loop bodies and one failing loop test can happen,
    which is the fuel given; [withRetry_total] shows it is enough. *)
Definition withRetry (maxRetries : Z) (s : St) : option (Run T St) :=
  retry_loop (Z.to_nat (maxRetries + 1) + 1) maxRetries 0 None s.

End WithOperation.

(** [withRetry(operation)] with the default [RETRY_CONFIG.MAX_RETRIES]. *)
Definition withRetry_default {T St} (operation : St -> outcome T * St)
  : St -> option (Run T St) :=
  withRetry operation Constants.MAX_RETRIES.

(** [fetchChartData(coinId, timeframe)]: the timeframe is looked up in
    [TIMEFRAMES] before any request is made; [get] is the HTTP request
    [apiClient.get(`/coins/${coinId}/market_chart`, ...)]. *)
Definition timeframeConfig_truthy (timeframe : string) : bool :=
  has_key timeframe Constants.TIMEFRAMES
  || has_key timeframe Constants.Object_prototype_keys.

Definition fetchChartData {T St}
           (get : string -> string -> St -> outcome T * St)
           (coinId timeframe : string) (s : St) : outcome T * St :=
  if timeframeConfig_truthy timeframe then get coinId timeframe s
  else (Rejected (JsError ("Invalid timeframe: " ++ timeframe)%string), s).

(** A fetcher following a script: invocation [k] settles as the [k]-th
    entry, and as [dflt] once the script is exhausted.  The state is the
    number of invocations so far. *)
Definition scripted {T} (script : list (outcome T)) (dflt : outcome T)
  : nat -> outcome T * nat :=
  fun k => (nth k script dflt, S k).

End Api.


(* ================================================================== *)
(** * JavaScript numbers *)
(* ================================================================== *)

Module Num.

Local Open Scope Q_scope.

(** A JavaScript [number]: a finite value, [NaN] or an infinity.  Finite
    doubles are rationals and are compared exactly, so the comparisons
    made by the code are those of [Q].  The results of [+], [-] and [/]
    are taken exact here (no rounding, no signed zero); the properties of
    the downsampler below are proved for any arithmetic whatsoever,
    see [PriceArith]. *)
Inductive number : Type :=
| Fin (q : Q)
| NaN
| PosInf
| NegInf.

Definition Qlt_bool (a b : Q) : bool := negb (Qle_bool b a).

Definition isNaN (n : number) : bool :=
  match n with NaN => true | _ => false end.

Definition isFinite (n : number) : bool :=
  match n with Fin _ => true | _ => false end.

Definition neg (a : number) : number :=
  match a with
  | Fin q => Fin (- q)
  | NaN => NaN
  | PosInf => NegInf
  | NegInf => PosInf
  end.

Definition add (a b : number) : number :=
  match a, b with
  | NaN, _ | _, NaN => NaN
  | Fin x, Fin y => Fin (Qred (x + y))
  | PosInf, NegInf | NegInf, PosInf => NaN
  | PosInf, _ | _, PosInf => PosInf
  | NegInf, _ | _, NegInf => NegInf
  end.

Definition sub (a b : number) : number := add a (neg b).

Definition div (a b : number) : number :=
  match a, b with
  | NaN, _ | _, NaN => NaN
  | Fin x, Fin y =>
      if Qeq_bool y 0 then
        if Qeq_bool x 0 then NaN
        else if Qlt_bool 0 x then PosInf else NegInf
      else Fin (Qred (x / y))
  | Fin _, _ => Fin 0
  | PosInf, Fin y => if Qle_bool 0 y then PosInf else NegInf
  | NegInf, Fin y => if Qle_bool 0 y then NegInf else PosInf
  | _, _ => NaN
  end.

(** [Math.abs] *)
Definition abs (a : number) : number :=
  match a with
  | Fin q => Fin (Qabs q)
  | NaN => NaN
  | _ => PosInf
  end.

(** [a > b]; any comparison with [NaN] is false. *)
Definition gt (a b : number) : bool :=
  match a, b with
  | NaN, _ | _, NaN => false
  | Fin x, Fin y => Qlt_bool y x
  | PosInf, PosInf => false
  | PosInf, _ => true
  | Fin _, NegInf => true
  | _, _ => false
  end.

Definition of_nat (n : nat) : number := Fin (inject_Z (Z.of_nat n)).

(** The operations [downsampleData] performs on prices. *)
Class PriceArith (P : Type) : Type := {
  p_zero : P;                  (* the literal [0] *)
  p_neg_infinity : P;          (* [-Infinity] *)
  p_of_nat : nat -> P;         (* an array index difference as a number *)
  p_add : P -> P -> P;
  p_sub : P -> P -> P;
  p_div : P -> P -> P;
  p_abs : P -> P;              (* [Math.abs] *)
  p_gt : P -> P -> bool        (* [>] *)
}.

#[global] Instance number_arith : PriceArith number := {
  p_zero := Fin 0;
  p_neg_infinity := NegInf;
  p_of_nat := of_nat;
  p_add := add;
  p_sub := sub;
  p_div := div;
  p_abs := abs;
  p_gt := gt
}.

(** A JavaScript value as far as [typeof v === 'number'] can tell. *)
Inductive jsval : Type :=
| JNumber (n : number)
| JString (s : string)
| JBoolean (b : bool)
| JNull
| JUndefined
| JObject.

Definition typeof_number (v : jsval) : bool :=
  match v with JNumber _ => true | _ => false end.

End Num.

(* ================================================================== *)
(** * Arithmetic of the Number type on finite values *)
(* ================================================================== *)

(** A finite double is held by its exact rational value.  An arithmetic
    operation of the language returns the exact result rounded to the
    nearest double, a tie going to the double with an even significand
    (IEEE 754 binary64, round to nearest even).  [round] is that rounding
    for results in the normal range: 53 significant bits. *)
Module Double.

Local Open Scope Z_scope.

(** [x / 2^E] for [x = a / b], as a fraction [(N, D)]. *)
Definition scaled (a b E : Z) : Z * Z :=
  if 0 <=? E then (a, b * 2 ^ E) else (a * 2 ^ (- E), b).

(** The integer nearest to [N / D] (for [0 < D]), a tie going to the even
    one. *)
Definition nearest_even (N D : Z) : Z :=
  let m := N / D in
  let r := N mod D in
  if 2 * r <? D then m
  else if D <? 2 * r then m + 1
  else if Z.even m then m else m + 1.

(** The exponent [E] of the unit in the last place of [x = a / b]
    ([0 < a], [0 < b]): the one with [2^52 <= x / 2^E < 2^53].  The
    logarithms give it up to one. *)
Definition exponent (a b : Z) : Z :=
  let E := Z.log2 a - Z.log2 b - 52 in
  let (N, D) := scaled a b E in
  if N <? D * 2 ^ 52 then E - 1 else E.

(** [2^E] *)
Definition pow2 (E : Z) : Q :=
  if 0 <=? E then inject_Z (2 ^ E) else Qinv (inject_Z (2 ^ (- E))).

(** [m * 2^E] *)
Definition of_significand (m E : Z) : Q :=
  Qred (inject_Z m * pow2 E).

(** The significand of the rounded value: [x / 2^E] rounded to an
    integer. *)
Definition significand (a b : Z) : Z :=
  let (N, D) := scaled a b (exponent a b) in nearest_even N D.

Definition round_pos (a b : Z) : Q :=
  of_significand (significand a b) (exponent a b).

Definition round (x : Q) : Q :=
  match Qnum x with
  | Z0 => 0%Q
  | Zpos a => round_pos (Zpos a) (Zpos (Qden x))
  | Zneg a => (- round_pos (Zpos a) (Zpos (Qden x)))%Q
  end.

(** [x * y] on two finite doubles. *)
Definition mul (x y : Q) : Q := round (x * y)%Q.

End Double.

(* ================================================================== *)
(** * utils/chartUtils.ts *)
(* ================================================================== *)

Module Chart.

Import Js Num.

(** [interface ChartDataPoint { timestamp: number; price: number }].
    The timestamp is an integer count of epoch milliseconds.  The price
    type is a parameter: [downsampleData] computes with it through
    [PriceArith], [validateChartData] inspects it as a [jsval]. *)
Record ChartDataPoint (P : Type) : Type := mkPoint {
  timestamp : Z;
  price : P
}.
Arguments mkPoint {P} timestamp price.

Section Downsample.

Context {P : Type} {arith : PriceArith P}.

(** The indices [j] visited by
    [for (let j = start; j < end && j < data.length; j++)]. *)
Definition bucket_range (len start end_ : nat) : list nat :=
  seq start (Nat.min end_ len - start).

(** One iteration [i] of the bucket loop: the point pushed on [result].
    [dflt] stands for an out-of-range read; [bucket_in_range] shows that
    none happens. *)
Definition bucket (data : list (ChartDataPoint P)) (dflt : ChartDataPoint P) (bucketSize i : nat)
  : ChartDataPoint P :=
  let start := i * bucketSize in
  let end_ := start + bucketSize in
  let js := bucket_range (List.length data) start end_ in
  (* let sum = 0; for (...) sum += data[j].price *)
  let sum := fold_left (fun sum j => p_add sum (price (nth j data dflt)))
                       js p_zero in
  (* const avg = sum / (end - start) *)
  let avg := p_div sum (p_of_nat (end_ - start)) in
  (* let maxDiff = -Infinity; let bestPoint = data[start]; for (...) ... *)
  snd (fold_left
         (fun (st : P * ChartDataPoint P) j =>
            let diff := p_abs (p_sub (price (nth j data dflt)) avg) in
            if p_gt diff (fst st) then (diff, nth j data dflt) else st)
         js (p_neg_infinity, nth start data dflt)).

(** [downsampleData(data, maxPoints)], [maxPoints] a non-negative integer.
    The bucket loop [for (let i = 1; i < maxPoints - 1; i++)] runs for
    [i = 1 .. maxPoints - 2].  [Math.floor(data.length / maxPoints)] is
    [Nat.div]; for [maxPoints = 0] JavaScript gives [Infinity] where
    [Nat.div] gives [0], but the loop is then empty and [bucketSize] is
    never read. *)
Definition downsampleData (data : list (ChartDataPoint P)) (maxPoints : nat)
  : list (ChartDataPoint P) :=
  if (List.length data <=? maxPoints)%nat then data
  else
    match data with
    | [] => []
    | first :: _ =>
        let bucketSize := (List.length data / maxPoints)%nat in
        [first]
          ++ map (bucket data first bucketSize) (seq 1 (maxPoints - 2))
          ++ [last data first]
    end.

End Downsample.

(** [getOptimalPoints(timeframe)] *)
Definition getOptimalPoints (timeframe : string) : nat :=
  if String.eqb timeframe "1h" then 60
  else if String.eqb timeframe "24h" then 96
  else if String.eqb timeframe "7d" then 168
  else if String.eqb timeframe "30d" then 180
  else if String.eqb timeframe "1y" then 365
  else 200.

(** The argument of [validateChartData] as JavaScript sees it. *)
Inductive jsdata : Type :=
| NotArray
| IsArray (points : list (ChartDataPoint jsval)).

(** The predicate handed to [data.filter]. *)
Definition valid_point (point : ChartDataPoint jsval) : bool :=
  (0 <? timestamp point)%Z
  && match price point with
     | JNumber n => negb (isNaN n) && isFinite n
     | _ => false            (* typeof point.price !== 'number' *)
     end.

(** [validateChartData(data)] *)
Definition validateChartData (data : jsdata) : bool :=
  match data with
  | NotArray => false
  | IsArray points =>
      if (List.length points =? 0)%nat then false
      else
        let validPoints := filter valid_point points in
        (0 <? List.length validPoints)%nat
  end.

Local Open Scope string_scope.

(** [formatChartError(error)] *)
Definition formatChartError (error : thrown) : string :=
  match error_message error with
  | Some message =>
      if includes message "429" || includes message "rate limit" then
        "Límite de solicitudes excedido. Espera un momento e intenta de nuevo."
      else if includes message "network" || includes message "fetch" then
        "Error de conexión. Verifica tu conexión a internet."
      else
        "Error al cargar datos: " ++ message
  | None => "Error desconocido al cargar el gráfico."
  end.

End Chart.

(* ================================================================== *)
(** * utils/security.ts *)
(* ================================================================== *)

Module Security.

Import Js.
Local Open Scope string_scope.

(** [getSafeErrorMessage(error)] *)
Definition getSafeErrorMessage (error : thrown) : string :=
  match error_message error with
  | Some message =>
      if includes message "429" then
        "Rate limit reached. Please wait a moment."
      else if includes message "Network" then
        "Network error. Please check your connection."
      else "An unexpected error occurred. Please try again."
  | None => "An unexpected error occurred. Please try again."
  end.

End Security.

(* ================================================================== *)
(** * hooks/useCryptoFiltering.ts *)
(* ================================================================== *)

Module Filtering.

Import Num.
Local Open Scope Q_scope.

(** [type FilterType = 'winners' | 'losers' | 'volume' | 'all'] *)
Inductive FilterType : Type := All | Winners | Losers | Volume.

(** [interface Cryptocurrency]: the fields the resolver reads.  Records
    come from JSON, so numbers are finite; the 24h change may be [null] or
    absent ([None]).  The remaining fields are carried along untouched. *)
Record Cryptocurrency : Type := mkCrypto {
  id : string;
  price_change_percentage_24h : option Q;
  total_volume : Q
}.

(** [Partial<FilteringOptions>] and the resolved [config].  The
    percentage is a finite double, held by its exact value. *)
Record FilteringOptions : Type := mkOptions {
  opt_minResultsThreshold : option Z;
  opt_cacheTime : option Z;
  opt_dynamicThresholdPercentage : option Q
}.

Record Config : Type := mkConfig {
  minResultsThreshold : Z;
  cacheTime : Z;
  dynamicThresholdPercentage : Q
}.

(** [a ?? b] *)
Definition nullish {A} (a : option A) (b : A) : A :=
  match a with Some x => x | None => b end.

Definition config (options : FilteringOptions) : Config :=
  {| minResultsThreshold :=
       nullish (opt_minResultsThreshold options) Constants.MIN_RESULTS_THRESHOLD;
     cacheTime := nullish (opt_cacheTime options) Constants.CACHE_TIME;
     dynamicThresholdPercentage :=
       nullish (opt_dynamicThresholdPercentage options)
               Constants.DYNAMIC_THRESHOLD_PERCENTAGE |}.

(** The default [options = {}]. *)
Definition no_options : FilteringOptions := mkOptions None None None.

(** [c.price_change_percentage_24h ?? 0] *)
Definition change (c : Cryptocurrency) : Q :=
  nullish (price_change_percentage_24h c) 0.

(** [Array.prototype.sort(compareFn)]: [compareFn a b <= 0] keeps [a]
    before [b].  The sort is stable (ECMAScript 2019); insertion from the
    right realises it.  For finite doubles the sign of [x - y] is the sign
    of the exact difference, which is what the comparators below return. *)
Fixpoint insert {A} (compareFn : A -> A -> Q) (x : A) (l : list A) : list A :=
  match l with
  | [] => [x]
  | y :: l' =>
      if Qle_bool (compareFn x y) 0 then x :: l
      else y :: insert compareFn x l'
  end.

Definition sort {A} (compareFn : A -> A -> Q) (l : list A) : list A :=
  fold_right (insert compareFn) [] l.

(** The three comparators of the hook. *)
Definition by_change_desc (a b : Cryptocurrency) : Q := change b - change a.
Definition by_change_asc (a b : Cryptocurrency) : Q := change a - change b.
Definition by_volume_desc (a b : Cryptocurrency) : Q :=
  total_volume b - total_volume a.

(** [Math.ceil(allCryptos.length * config.dynamicThresholdPercentage)]:
    the product is a double, the exact product rounded, and [Math.ceil]
    is taken of that double.  A product in [(-1, 0)] has ceiling [-0],
    which reads index [0].  Below the normal range nothing is rounded:
    a length times a double is a multiple of the least subnormal, which
    is a double when it is that small.  Above it the product is an
    infinity instead of [Double.round] of the exact product, and like
    every index past the end or below [0] it finds nothing.  A percentage
    that is [NaN] or infinite finds nothing either, as does the
    percentage [2]. *)
Definition thresholdIndex (cfg : Config) (allCryptos : list Cryptocurrency)
  : Z :=
  Qceiling (Double.mul (inject_Z (Z.of_nat (List.length allCryptos)))
                       (dynamicThresholdPercentage cfg)).

(** [sorted[i]]: [undefined] ([None]) outside the array. *)
Definition at_index {A} (sorted : list A) (i : Z) : option A :=
  if (i <? 0)%Z then None else nth_error sorted (Z.to_nat i).

(** [sorted[thresholdIndex]?.price_change_percentage_24h ?? 0] and
    [sorted[thresholdIndex]?.total_volume ?? 0] *)
Definition read_threshold (field : Cryptocurrency -> Q)
           (sorted : list Cryptocurrency) (i : Z) : Q :=
  match at_index sorted i with
  | Some c => field c
  | None => 0
  end.

(** The filter predicates of stage 1. *)
Definition is_winner (calculatedThreshold : Q) (c : Cryptocurrency) : bool :=
  Qle_bool calculatedThreshold (change c) && Qlt_bool 0 (change c).
Definition is_loser (calculatedThreshold : Q) (c : Cryptocurrency) : bool :=
  Qle_bool (change c) calculatedThreshold && Qlt_bool (change c) 0.
Definition is_high_volume (calculatedThreshold : Q) (c : Cryptocurrency)
  : bool :=
  Qle_bool calculatedThreshold (total_volume c).

(** Stage 1 with the threshold index given: the pair
    [{ clientFiltered, threshold }] for a non-empty snapshot. *)
Definition stage1_at (i : Z) (allCryptos : list Cryptocurrency)
           (filterType : FilterType) : list Cryptocurrency * Q :=
  match filterType with
  | All => (allCryptos, 0)
  | Winners =>
      let sorted := sort by_change_desc allCryptos in
      let calculatedThreshold := read_threshold change sorted i in
      (filter (is_winner calculatedThreshold) allCryptos, calculatedThreshold)
  | Losers =>
      let sorted := sort by_change_asc allCryptos in
      let calculatedThreshold := read_threshold change sorted i in
      (filter (is_loser calculatedThreshold) allCryptos, calculatedThreshold)
  | Volume =>
      let sorted := sort by_volume_desc allCryptos in
      let calculatedThreshold := read_threshold total_volume sorted i in
      (filter (is_high_volume calculatedThreshold) allCryptos,
       calculatedThreshold)
  end.

(** ETAPA 1: the first [useMemo]. *)
Definition stage1 (cfg : Config) (allCryptos : list Cryptocurrency)
           (filterType : FilterType) : list Cryptocurrency * Q :=
  match allCryptos with
  | [] => ([], 0)
  | _ => stage1_at (thresholdIndex cfg allCryptos) allCryptos filterType
  end.

Definition clientFiltered cfg allCryptos filterType : list Cryptocurrency :=
  fst (stage1 cfg allCryptos filterType).

Definition threshold cfg allCryptos filterType : Q :=
  snd (stage1 cfg allCryptos filterType).

(** [needsApiCall] *)
Definition needsApiCall (cfg : Config) (allCryptos : list Cryptocurrency)
           (filterType : FilterType) : bool :=
  match filterType with
  | All => false
  | _ => (Z.of_nat (List.length (clientFiltered cfg allCryptos filterType))
          <? minResultsThreshold cfg)%Z
  end.

(** ETAPA 2: what [queryFn] does with [expandedData] once fetched. *)
Definition stage2 (filterType : FilterType)
           (expandedData : list Cryptocurrency) : list Cryptocurrency :=
  match filterType with
  | Winners =>
      sort by_change_desc
           (filter (fun c => Qlt_bool 0 (change c)) expandedData)
  | Losers =>
      sort by_change_asc
           (filter (fun c => Qlt_bool (change c) 0) expandedData)
  | Volume => sort by_volume_desc expandedData
  | All => expandedData
  end.

(** ETAPA 3: [filteredCryptos]; [apiData] is [None] while the remote
    query has no data. *)
Definition filteredCryptos (cfg : Config) (allCryptos : list Cryptocurrency)
           (filterType : FilterType) (apiData : option (list Cryptocurrency))
  : list Cryptocurrency :=
  if negb (needsApiCall cfg allCryptos filterType) then
    clientFiltered cfg allCryptos filterType
  else
    match apiData with
    | Some ((_ :: _) as data) => data
    | _ => clientFiltered cfg allCryptos filterType
    end.

(** A record whose 24h change reads as [0] instead of being missing. *)
Definition with_zero_change (c : Cryptocurrency) : Cryptocurrency :=
  {| id := id c;
     price_change_percentage_24h := Some (change c);
     total_volume := total_volume c |}.

End Filtering.

(* ================================================================== *)
(** * Concrete inputs used in examples *)
(* ================================================================== *)

Module Samples.

Import Js Api Num Chart Filtering.

(** An HTTP 503 answer without payload: a [ServerFailure]. *)
Definition http_503 : thrown :=
  AxiosError "Request failed with status code 503"
             (Some (mkResponse 503 None)).

(** An HTTP 404 answer whose payload carries an [error] text. *)
Definition http_404 (payload : string) : thrown :=
  AxiosError "Request failed with status code 404"
             (Some (mkResponse 404 (Some payload))).

(** A fetcher that fails twice with a server failure, then succeeds. *)
Definition flaky_fetcher : nat -> outcome nat * nat :=
  scripted [Rejected http_503; Rejected http_503; Resolved 42%nat]
           (Resolved 42%nat).

(** A fetcher that always fails with a server failure. *)
Definition failing_fetcher : nat -> outcome nat * nat :=
  scripted [] (Rejected http_503).

(** A fetcher that always gets a 404. *)
Definition rejected_fetcher : nat -> outcome nat * nat :=
  scripted [] (Rejected (http_404 "coin not found")).

(** An HTTP layer that would answer every request. *)
Definition get_ok : string -> string -> unit -> outcome nat * unit :=
  fun _ _ s => (Resolved 7%nat, s).

(** Chart points with numeric prices. *)
Definition pt (t : Z) (v : Q) : ChartDataPoint number := mkPoint t (Fin v).

(** The four-point series of the downsampling scenario. *)
Definition spike_series : list (ChartDataPoint number) :=
  [pt 0 1; pt 1 100; pt 2 1; pt 3 1].

Definition two_points : list (ChartDataPoint number) := [pt 0 1; pt 1 2].

Definition nine_points : list (ChartDataPoint number) :=
  [pt 0 1; pt 1 100; pt 2 1; pt 3 5; pt 4 1; pt 5 3; pt 6 7; pt 7 1; pt 8 2].

(** A series with one [NaN] among valid points, and an all-[NaN] one. *)
Definition series_with_nan : jsdata :=
  IsArray [mkPoint 1000 (JNumber (Fin 5)); mkPoint 2000 (JNumber NaN);
           mkPoint 3000 (JNumber (Fin 6))].

Definition series_all_nan : jsdata :=
  IsArray [mkPoint 1000 (JNumber NaN); mkPoint 2000 (JNumber NaN)].

(** A listing page of 50 records whose 24h changes are 3, 2, 1, 0, -1, ...:
    three of them are positive. *)
Definition page_of_50 : list Cryptocurrency :=
  map (fun k => mkCrypto "coin" (Some (inject_Z (3 - Z.of_nat k))) 1)
      (seq 0 50).

(** A snapshot of [n] records whose 24h changes are [1, 2, ..., n]. *)
Definition ranked (n : nat) : list Cryptocurrency :=
  map (fun k => mkCrypto "coin" (Some (inject_Z (Z.of_nat k))) 1) (seq 1 n).

(** The options [{ dynamicThresholdPercentage: 0.07 }]: the literal
    denotes the double nearest to seven hundredths. *)
Definition seven_percent : FilteringOptions :=
  mkOptions None None (Some (Double.round (7 # 100))).

(** A small snapshot with a record whose 24h change is missing. *)
Definition small_snapshot : list Cryptocurrency :=
  [mkCrypto "a" (Some (5 # 1)%Q) 10; mkCrypto "b" None 20;
   mkCrypto "c" (Some (- (3 # 1))%Q) 30; mkCrypto "d" (Some (2 # 1)%Q) 40].

Definition no_change_record : Cryptocurrency := mkCrypto "b" None 20.

(** Two failures of the same kind whose texts differ. *)
Definition refused_connection : thrown :=
  JsError "connect ECONNREFUSED 10.0.0.7:8443 /internal/v2/quotes".

Definition parse_failure : thrown :=
  JsError "Unexpected token < in JSON at position 0".

End Samples.


(* ================================================================== *)
(** * Vocabulary of the statements *)
(* ================================================================== *)

Module Specs.

Import Js Api.
Local Open Scope Z_scope.

(** [ServerFailure]: a failure classified with a 5xx status. *)
Definition ServerFailure (e : thrown) : Prop :=
  500 <= status (handleApiError e) < 600.

(** [ClientRejected]: an HTTP answer with a 4xx status other than 429. *)
Definition ClientRejected (e : thrown) : Prop :=
  exists msg r, e = AxiosError msg (Some r) /\
                400 <= resp_status r < 500 /\ resp_status r <> 429.

Section Retry.

Variables (T St : Type).
Variable operation : St -> outcome T * St.

(** What a run of the retry loop looks like when it is entered at
    [attempt <= maxRetries] in state [s]: at most
    [maxRetries - attempt + 1] invocations; every invocation but the last
    failed with an error that is not a client error; the last one either
    succeeded and gave the returned value, or failed and its
    classification is what is raised, because it was a client error or
    because the attempts were used up. *)
Definition loop_post (maxRetries attempt : Z) (s : St) (run : Run T St)
  : Prop :=
  (calls run <= Z.to_nat (maxRetries - attempt + 1))%nat /\
  final run = state_before operation s (calls run) /\
  (forall k, (S k < calls run)%nat ->
     exists err, outcome_at operation s k = Rejected err /\
                 isClientError (handleApiError err) = false) /\
  exists k, calls run = S k /\
    match result run with
    | Returned v => outcome_at operation s k = Resolved v
    | Threw (RaisedApi e) =>
        exists err, outcome_at operation s k = Rejected err /\
          e = handleApiError err /\
          (isClientError e = true \/
           calls run = Z.to_nat (maxRetries - attempt + 1))
    | Threw (RaisedError _) => False
    end.

(** The same for a whole call of [withRetry]; a negative [maxRetries]
    makes no attempt at all and raises the generic [Error]. *)
Definition retry_post (maxRetries : Z) (s : St) (run : Run T St) : Prop :=
  if maxRetries <? 0 then
    run = {| trace := []; result := Threw (RaisedError Constants.GENERIC);
             final := s |}
  else loop_post maxRetries 0 s run.

End Retry.

(** The transport taxonomy, read off the classified status:
    [RateLimited] (429), [NetworkUnavailable] (no response, status 0),
    [ClientRejected] (4xx other than 429), [ServerFailure] (the rest). *)
Inductive error_kind : Type :=
| RateLimited
| NetworkUnavailable
| ClientRejectedKind
| ServerFailureKind.

Definition classify (e : thrown) : error_kind :=
  let st := status (handleApiError e) in
  if st =? 429 then RateLimited
  else if st =? 0 then NetworkUnavailable
  else if (400 <=? st) && (st <? 500) then ClientRejectedKind
  else ServerFailureKind.

Import Num Chart.

(** [result] is drawn from [data] in input order: it lists the elements
    of [data] found at strictly increasing positions. *)
Definition drawn_in_order {A} (data result : list A) : Prop :=
  exists idx : list nat,
    StronglySorted lt idx /\
    map Some result = map (nth_error data) idx.

(** A valid [Series]: timestamps never decrease from a point to the next. *)
Definition time_ordered {P} (series : list (ChartDataPoint P)) : Prop :=
  Sorted (fun a b => (timestamp a <= timestamp b)%Z) series.

(** A fully valid point, in the words of the contract: a strictly positive
    timestamp and a value that is a finite number (hence not [NaN]). *)
Definition fully_valid (point : ChartDataPoint jsval) : Prop :=
  (0 < timestamp point)%Z /\ exists q : Q, price point = JNumber (Fin q).

End Specs.


(* ================================================================== *)
(** * utils/formatters.ts: the backoff helper *)
(* ================================================================== *)

Module Formatters.

Local Open Scope Z_scope.

(** [getRetryDelay(attempt)], [attempt] counted from 0.  The three
    constants are the literals of the function body. *)
Definition getRetryDelay (attempt : nat) : Z :=
  let INITIAL_DELAY := 1000 in
  let MAX_DELAY := 10000 in
  let BACKOFF_MULTIPLIER := 2 in
  let delay := INITIAL_DELAY * BACKOFF_MULTIPLIER ^ Z.of_nat attempt in
  Z.min delay MAX_DELAY.

End Formatters.

(* ================================================================== *)
(** * Vocabulary for the effects of the retry policy *)
(* ================================================================== *)

Module RetrySpecs.

Import Js Api.
Local Open Scope Z_scope.

(** The effects of a run that starts at [attempt] and retries [retries]
    times: an invocation, then a sleep and an invocation per retry. *)
Fixpoint backoff_trace (attempt : Z) (retries : nat) : list event :=
  match retries with
  | O => [Invoke]
  | S n => Invoke :: Sleep (retryDelay attempt) :: backoff_trace (attempt + 1) n
  end.

(** Total time slept in a run. *)
Definition total_delay {T St} (r : Run T St) : Z :=
  fold_right Z.add 0 (delays r).

(** What [formatChartError] and [getSafeErrorMessage] see of a value
    raised by [withRetry]: the classified [ApiError] is a plain object,
    not an [Error]. *)
Definition raised_as_thrown (r : raised) : thrown :=
  match r with
  | RaisedApi _ => NonError
  | RaisedError msg => JsError msg
  end.

End RetrySpecs.

(* ================================================================== *)
(** * utils/chartUtils.ts: statistics of a series *)
(* ================================================================== *)

Module ChartStats.

Import Num Chart.
Local Open Scope Q_scope.

(** [a * b] (exact on finite values, like the operations of [Num]). *)
Definition mul (a b : number) : number :=
  match a, b with
  | NaN, _ | _, NaN => NaN
  | Fin x, Fin y => Fin (Qred (x * y))
  | Fin x, PosInf | PosInf, Fin x =>
      if Qeq_bool x 0 then NaN else if Qlt_bool 0 x then PosInf else NegInf
  | Fin x, NegInf | NegInf, Fin x =>
      if Qeq_bool x 0 then NaN else if Qlt_bool 0 x then NegInf else PosInf
  | PosInf, PosInf | NegInf, NegInf => PosInf
  | PosInf, NegInf | NegInf, PosInf => NegInf
  end.

(** [Math.min] and [Math.max] of a list of arguments: [NaN] as soon as one
    argument is [NaN]; [Infinity] and [-Infinity] without arguments. *)
Definition min2 (a b : number) : number :=
  match a, b with
  | NaN, _ | _, NaN => NaN
  | _, _ => if gt a b then b else a
  end.

Definition max2 (a b : number) : number :=
  match a, b with
  | NaN, _ | _, NaN => NaN
  | _, _ => if gt b a then b else a
  end.

Definition Math_min (args : list number) : number :=
  fold_left min2 args PosInf.

Definition Math_max (args : list number) : number :=
  fold_left max2 args NegInf.

Record Stats : Type := mkStats {
  min : number;
  max : number;
  avg : number;
  first : number;
  last : number;
  change : number
}.

(** [calculateChartStats(data)] *)
Definition calculateChartStats (data : list (ChartDataPoint number)) : Stats :=
  match data with
  | [] => mkStats (Fin 0) (Fin 0) (Fin 0) (Fin 0) (Fin 0) (Fin 0)
  | d0 :: _ =>
      let prices := map (@price number) data in
      let min := Math_min prices in
      let max := Math_max prices in
      let sum := fold_left add prices (Fin 0) in
      let avg := div sum (of_nat (List.length prices)) in
      let first := price d0 in
      let last := price (List.last data d0) in
      let change :=
        if gt first (Fin 0)
        then mul (div (sub last first) first) (Fin 100)
        else Fin 0 in
      mkStats min max avg first last change
  end.

End ChartStats.

(* ================================================================== *)
(** * hooks/useChartData.ts *)
(* ================================================================== *)

Module ChartHook.

Import Js Api Num Chart RetrySpecs.

(** [interface ChartData] declares [prices: [number, number][]];
    [market_caps] and [total_volumes] are not read.  The value is the
    body of the HTTP answer and nothing checks it against the
    declaration, so an element of [prices] is either something that
    [([timestamp, price]) => ...] can take apart, or something the
    destructuring throws a [TypeError] on ([null], a number, a boolean, a
    plain object).  The text of a [TypeError] is chosen by the engine and
    travels with the value it is raised on.  Timestamps are integers, as
    in [ChartDataPoint]. *)
Inductive PriceEntry (P : Type) : Type :=
| Pair (timestamp : Z) (price : P)
| NotIterable (typeError : string).
Arguments Pair {P} timestamp price.
Arguments NotIterable {P} typeError.

(** The answer: [prices] is an array, or [data.prices.map] throws a
    [TypeError] (no [prices], [prices] not an array, no object at all). *)
Inductive ChartData (P : Type) : Type :=
| WithPrices (prices : list (PriceEntry P))
| WithoutPrices (typeError : string).
Arguments WithPrices {P} prices.
Arguments WithoutPrices {P} typeError.

(** The entry a point comes from, and the answers that declare what they
    hold. *)
Definition entry_of {P : Type} (p : ChartDataPoint P) : PriceEntry P :=
  Pair (timestamp p) (price p).

Definition well_formed {P : Type} (data : ChartData P) : Prop :=
  exists rawData, data = WithPrices (map entry_of rawData).

(** [typeError] is the text of a [TypeError] that [data] can raise. *)
Definition malformed {P : Type} (data : ChartData P) (typeError : string)
  : Prop :=
  match data with
  | WithPrices prices => In (NotIterable typeError) prices
  | WithoutPrices m => m = typeError
  end.

Section Transform.

(** Prices are computed with [PriceArith] and inspected as
    JavaScript values through [as_value]. *)
Context {P : Type} {arith : PriceArith P}.
Variable as_value : P -> jsval.

(** [prices.map(([timestamp, price]) => ({ timestamp, price }))]: the
    elements are visited in order and the first that cannot be taken
    apart ends the call. *)
Fixpoint map_entries (prices : list (PriceEntry P))
  : outcome (list (ChartDataPoint P)) :=
  match prices with
  | [] => Resolved []
  | Pair timestamp price :: rest =>
      match map_entries rest with
      | Resolved points => Resolved (mkPoint timestamp price :: points)
      | Rejected error => Rejected error
      end
  | NotIterable typeError :: _ => Rejected (JsError typeError)
  end.

(** [data.prices.map(...)] *)
Definition rawData_of (data : ChartData P)
  : outcome (list (ChartDataPoint P)) :=
  match data with
  | WithPrices prices => map_entries prices
  | WithoutPrices typeError => Rejected (JsError typeError)
  end.

Definition as_jsdata (rawData : list (ChartDataPoint P)) : jsdata :=
  IsArray (map (fun p => mkPoint (timestamp p) (as_value (price p))) rawData).

(** [transformChartData(data, timeframe)]: the optimised series, or what
    is thrown. *)
Definition transformChartData (data : ChartData P) (timeframe : string)
  : outcome (list (ChartDataPoint P)) :=
  match rawData_of data with
  | Rejected typeError => Rejected typeError
  | Resolved rawData =>
      if negb (validateChartData (as_jsdata rawData)) then
        Rejected (JsError "Datos de gráfico inválidos recibidos de la API")
      else
        let optimalPoints := getOptimalPoints timeframe in
        let optimizedData := downsampleData rawData optimalPoints in
        Resolved optimizedData
  end.

(** The [queryFn] of [useChartData(coinId, timeframe)]; [coinId] is [None]
    for [null].  [get] is the HTTP request of [fetchChartData].  The
    result is [None] only if the retry loop ran out of fuel, which never
    happens. *)
Definition useChartData_queryFn {St : Type}
           (get : string -> string -> St -> outcome (ChartData P) * St)
           (coinId : option string) (timeframe : string) (s : St)
  : option (outcome (list (ChartDataPoint P)) * St) :=
  match coinId with
  | None => Some (Rejected (JsError "Se requiere seleccionar una criptomoneda"), s)
  | Some id =>
      if String.eqb id "" then
        Some (Rejected (JsError "Se requiere seleccionar una criptomoneda"), s)
      else
        (* try { ... } catch (error) { throw new Error(formatChartError(error)) } *)
        match withRetry (fetchChartData get id timeframe) 2 s with
        | None => None
        | Some run =>
            match result run with
            | Returned rawData =>
                match transformChartData rawData timeframe with
                | Resolved points => Some (Resolved points, final run)
                | Rejected error =>
                    Some (Rejected (JsError (formatChartError error)), final run)
                end
            | Threw r =>
                Some (Rejected (JsError (formatChartError (raised_as_thrown r))),
                      final run)
            end
        end
  end.

End Transform.

(** [getTimeframeStaleTime(timeframe)] *)
Definition getTimeframeStaleTime (timeframe : string) : Z :=
  if String.eqb timeframe "1h" then 2 * 60 * 1000
  else if String.eqb timeframe "24h" then 5 * 60 * 1000
  else if String.eqb timeframe "7d" then 10 * 60 * 1000
  else if String.eqb timeframe "30d" then 30 * 60 * 1000
  else if String.eqb timeframe "1y" then 60 * 60 * 1000
  else 5 * 60 * 1000.

End ChartHook.

(* ================================================================== *)
(** * Vocabulary for the bucket selection *)
(* ================================================================== *)

Module ChartSpecs.

Import Num Chart.

Section Deviation.

Context {P : Type} {arith : PriceArith P}.

(** The mean the bucket loop computes for bucket [i] ... *)
Definition bucket_avg (data : list (ChartDataPoint P))
           (dflt : ChartDataPoint P) (bucketSize i : nat) : P :=
  let start := (i * bucketSize)%nat in
  let end_ := (start + bucketSize)%nat in
  p_div (fold_left (fun sum j => p_add sum (price (nth j data dflt)))
                   (bucket_range (List.length data) start end_) p_zero)
        (p_of_nat (end_ - start)).

(** ... and the deviation from it that it computes for the point at
    position [j]: [Math.abs(data[j].price - avg)]. *)
Definition deviation (data : list (ChartDataPoint P))
           (dflt : ChartDataPoint P) (bucketSize i j : nat) : P :=
  p_abs (p_sub (price (nth j data dflt)) (bucket_avg data dflt bucketSize i)).

End Deviation.

(** A finite number: neither [NaN] nor an infinity. *)
Definition finite (n : number) : Prop := exists q : Q, n = Fin q.

End ChartSpecs.

(* ================================================================== *)
(** * hooks/useCryptoFiltering.ts: what the hook returns *)
(* ================================================================== *)

Module FilterHook.

Import Filtering.

(** [interface FilteringState] *)
Record FilteringState : Type := mkFilteringState {
  fs_filterType : FilterType;
  isClientFiltering : bool;
  fs_needsApiCall : bool;
  resultCount : nat;
  fs_threshold : Q
}.

(** [!apiData]: only [undefined] is falsy, an empty array is not. *)
Definition no_data {A} (apiData : option (list A)) : bool :=
  match apiData with None => true | Some _ => false end.

(** [filteringState]; [apiData] is the [data] of the remote query. *)
Definition filteringState (cfg : Config) (allCryptos : list Cryptocurrency)
           (filterType : FilterType) (apiData : option (list Cryptocurrency))
  : FilteringState :=
  {| fs_filterType := filterType;
     isClientFiltering :=
       negb (needsApiCall cfg allCryptos filterType) || no_data apiData;
     fs_needsApiCall := needsApiCall cfg allCryptos filterType;
     resultCount :=
       List.length (filteredCryptos cfg allCryptos filterType apiData);
     fs_threshold := threshold cfg allCryptos filterType |}.

(** The options of [useClientSideFiltering]:
    [{ minResultsThreshold: 0 }]. *)
Definition clientSide_options : FilteringOptions :=
  mkOptions (Some 0%Z) None None.

End FilterHook.

(* ================================================================== *)
(** * hooks/useAutoRefresh.ts *)
(* ================================================================== *)

Module AutoRefresh.

Local Open Scope Q_scope.

(** The state kept by [useAutoRefresh(interval, onRefresh)]: the hook's
    [interval] argument (ms), its three [useState] cells, and the number
    of times [onRefresh] has been invoked so far.  Times are epoch
    milliseconds. *)
Record State : Type := mkState {
  interval : Q;
  lastUpdated : Z;
  nextUpdateIn : Q;
  isPaused : bool;
  refreshed : nat
}.

(** First render at time [now]:
    [useState(() => new Date())], [useState(interval / 1000)],
    [useState(false)]. *)
Definition init (interval : Q) (now : Z) : State :=
  mkState interval now (interval / 1000) false 0.

(** [refresh()]:
    [setLastUpdated(new Date()); setNextUpdateIn(interval / 1000);
     onRefreshRef.current?.()]. *)
Definition refresh (now : Z) (st : State) : State :=
  mkState (interval st) now (interval st / 1000) (isPaused st)
          (S (refreshed st)).

(** One firing of the one-second timer at time [now].  The timer only
    exists while the hook is not paused.  The updater runs once per
    firing, as in a production build (a development build under
    [StrictMode] runs updaters twice).  The updater is
    [prev => { if (prev <= 1) { refresh(); return interval / 1000 }
               return prev - 1 }]. *)
Definition tick (now : Z) (st : State) : State :=
  if isPaused st then st
  else if Qle_bool (nextUpdateIn st) 1 then
    let st' := refresh now st in
    mkState (interval st') (lastUpdated st') (interval st / 1000)
            (isPaused st') (refreshed st')
  else
    mkState (interval st) (lastUpdated st) (nextUpdateIn st - 1)
            (isPaused st) (refreshed st).

(** [pause()] and [resume()] *)
Definition pause (st : State) : State :=
  mkState (interval st) (lastUpdated st) (nextUpdateIn st) true
          (refreshed st).

Definition resume (st : State) : State :=
  mkState (interval st) (lastUpdated st) (nextUpdateIn st) false
          (refreshed st).

(** A render with another [interval]: the last effect runs
    [setNextUpdateIn(interval / 1000)]. *)
Definition set_interval (i : Q) (st : State) : State :=
  mkState i (lastUpdated st) (i / 1000) (isPaused st) (refreshed st).

(** What can happen to the hook. *)
Inductive event : Type :=
| Tick (now : Z)
| Refresh (now : Z)
| Pause
| Resume
| SetInterval (i : Q).

Definition step (st : State) (e : event) : State :=
  match e with
  | Tick now => tick now st
  | Refresh now => refresh now st
  | Pause => pause st
  | Resume => resume st
  | SetInterval i => set_interval i st
  end.

Definition run (events : list event) (st : State) : State :=
  fold_left step events st.



(** Firings of the timer at the given times. *)
Definition ticks (times : list Z) : list event := map Tick times.

End AutoRefresh.

From Stdlib Require Import DecimalString.

(* ================================================================== *)
(** * hooks/useAutoRefresh.ts: elapsed time in words *)
(* ================================================================== *)

Module TimeAgo.

Local Open Scope string_scope.
Local Open Scope Z_scope.

(** [`${n}`] for a non-negative integer [n]. *)
Definition decimal (n : Z) : string :=
  NilEmpty.string_of_uint (N.to_uint (Z.to_N n)).

(** [calculateTimeAgo(date)] evaluated at time [now] ([new Date()]), both
    as epoch milliseconds of valid dates. *)
Definition calculateTimeAgo (now date : Z) : string :=
  let diffInSeconds := (now - date) / 1000 in
  if diffInSeconds <? 60 then "hace un momento"
  else if diffInSeconds <? 3600 then
    let minutes := diffInSeconds / 60 in
    "hace " ++ decimal minutes ++ " "
            ++ (if minutes =? 1 then "minuto" else "minutos")
  else if diffInSeconds <? 86400 then
    let hours := diffInSeconds / 3600 in
    "hace " ++ decimal hours ++ " "
            ++ (if hours =? 1 then "hora" else "horas")
  else
    let days := diffInSeconds / 86400 in
    "hace " ++ decimal days ++ " "
            ++ (if days =? 1 then "día" else "días").

(** The text for a count and the singular and plural names of a unit. *)
Definition ago (count : Z) (singular plural : string) : string :=
  "hace " ++ decimal count ++ " " ++ (if count =? 1 then singular else plural).

End TimeAgo.

(* ================================================================== *)
(** * JavaScript strings as sequences of UTF-16 code units *)
(* ================================================================== *)

Module JsString.

Local Open Scope N_scope.

(** A string is the list of its code units; [length], [slice] and the
    regular expressions below all work on code units. *)
Definition jsstring : Type := list N.

(** The code units of an ASCII literal. *)
Definition units (s : string) : jsstring :=
  map N_of_ascii (list_ascii_of_string s).

(** Case folding as the [i] flag (without [u]) does it for ASCII
    patterns: only A-Z and a-z are identified. *)
Definition lower (c : N) : N :=
  if (65 <=? c) && (c <=? 90) then c + 32 else c.

(** [\w]: [[A-Za-z0-9_]]. *)
Definition is_word (c : N) : bool :=
  ((65 <=? c) && (c <=? 90)) || ((97 <=? c) && (c <=? 122))
  || ((48 <=? c) && (c <=? 57)) || (c =? 95).

(** White space and line terminators, as removed by [trim]. *)
Definition is_space (c : N) : bool :=
  ((9 <=? c) && (c <=? 13)) || (c =? 32) || (c =? 160) || (c =? 5760)
  || ((8192 <=? c) && (c <=? 8202)) || (c =? 8232) || (c =? 8233)
  || (c =? 8239) || (c =? 8287) || (c =? 12288) || (c =? 65279).

Fixpoint drop_space (s : jsstring) : jsstring :=
  match s with
  | [] => []
  | c :: rest => if is_space c then drop_space rest else s
  end.

(** [s.trim()] *)
Definition trim (s : jsstring) : jsstring :=
  rev (drop_space (rev (drop_space s))).

(** [s.slice(0, end)] for an integer [end]; a negative [end] counts from
    the end of the string. *)
Definition slice0 (s : jsstring) (end_ : Z) : jsstring :=
  let len := Z.of_nat (List.length s) in
  let to := if (end_ <? 0)%Z then Z.max (len + end_) 0 else Z.min end_ len in
  firstn (Z.to_nat to) s.

(** Does [s] start with the literal [pat] (given in lower case), letter
    case ignored? *)
Fixpoint starts_with_ci (pat s : jsstring) : bool :=
  match pat, s with
  | [], _ => true
  | _ :: _, [] => false
  | p :: pat', c :: s' => (lower c =? p) && starts_with_ci pat' s'
  end.

(** A regular expression seen from one position: the length of its match
    starting at the head of the given suffix, if any. *)
Definition matcher : Type := jsstring -> option nat.

(** [/literal/i] *)
Definition literal_ci (pat : string) : matcher :=
  fun s => if starts_with_ci (units pat) s
           then Some (List.length (units pat)) else None.

(** [/[<>]/] *)
Definition angle_bracket : matcher :=
  fun s => match s with
           | c :: _ => if (c =? 60) || (c =? 62) then Some 1%nat else None
           | [] => None
           end.

(** Length of the longest prefix made of [\w] characters. *)
Fixpoint word_run (s : jsstring) : nat :=
  match s with
  | c :: rest => if is_word c then S (word_run rest) else 0%nat
  | [] => 0%nat
  end.

(** [/on\w+=/i].  The greedy [\w+] takes the whole run of word
    characters; giving some back cannot help, since the character after a
    shorter run is a word character and not [=]. *)
Definition on_handler : matcher :=
  fun s => match s with
           | o :: n :: rest =>
               if (lower o =? 111) && (lower n =? 110) then
                 let k := word_run rest in
                 if (1 <=? k)%nat && (nth k rest 0 =? 61)
                 then Some (2 + k + 1)%nat else None
               else None
           | _ => None
           end.

(** [s.replace(/re/g, '')]: scanning from the left, each match is dropped
    and the scan resumes after it.  [skip] counts the characters of the
    current match still to drop. *)
Fixpoint remove_from (re : matcher) (skip : nat) (s : jsstring) : jsstring :=
  match s with
  | [] => []
  | c :: rest =>
      match skip with
      | S k => remove_from re k rest
      | O =>
          match re s with
          | Some (S k) => remove_from re k rest
          | _ => c :: remove_from re 0 rest
          end
      end
  end.

Definition remove_all (re : matcher) (s : jsstring) : jsstring :=
  remove_from re 0 s.

(** [small] is [big] with some characters deleted. *)
Inductive subseq {A : Type} : list A -> list A -> Prop :=
| subseq_nil : subseq [] []
| subseq_keep (x : A) (small big : list A) :
    subseq small big -> subseq (x :: small) (x :: big)
| subseq_drop (x : A) (small big : list A) :
    subseq small big -> subseq small (x :: big).

End JsString.

(* ================================================================== *)
(** * utils/security.ts and utils/formatters.ts on strings *)
(* ================================================================== *)

Module SecurityStr.

Import JsString.
Local Open Scope N_scope.

(** [sanitizeSearchQuery(query)] *)
Definition sanitizeSearchQuery (query : jsstring) : jsstring :=
  trim
    (slice0
       (remove_all (literal_ci "vbscript:")
          (remove_all (literal_ci "data:")
             (remove_all on_handler
                (remove_all (literal_ci "javascript:")
                   (remove_all angle_bracket query)))))
       100).

(** [sanitizeString(value, maxLength)]; [value] is [None] when it is not
    a string. *)
Definition sanitizeString (value : option jsstring) (maxLength : Z)
  : jsstring :=
  match value with
  | None => []
  | Some s => trim (slice0 s maxLength)
  end.

(** [/^[a-z0-9-]+$/.test(id) && id.length <= 50] *)
Definition is_id_char (c : N) : bool :=
  ((97 <=? c) && (c <=? 122)) || ((48 <=? c) && (c <=? 57)) || (c =? 45).

Definition isValidCoinId (id : jsstring) : bool :=
  (negb (List.length id =? 0)%nat && forallb is_id_char id)
  && (List.length id <=? 50)%nat.

(** [truncateText(text, maxLength)], [maxLength] an integer. *)
Definition truncateText (text : jsstring) (maxLength : Z) : jsstring :=
  if (Z.of_nat (List.length text) <=? maxLength)%Z then text
  else slice0 text maxLength ++ units "...".

End SecurityStr.
From Stdlib Require Import Lqa.

Unset Implicit Arguments.

(* ================================================================== *)
(** * Properties of the rounding to double precision *)
(* ================================================================== *)

Module DoubleFacts.

Import Double.
Local Open Scope Z_scope.

Lemma nearest_even_close (N D : Z) :
  0 < D -> - D <= 2 * (nearest_even N D * D - N) <= D.
Proof.
  intros HD. unfold nearest_even.
  pose proof (Z.div_mod N D ltac:(lia)) as Hdm.
  pose proof (Z.mod_pos_bound N D HD) as Hr.
  set (m := N / D) in *. set (r := N mod D) in *.
  destruct (Z.ltb_spec (2 * r) D); [nia|].
  destruct (Z.ltb_spec D (2 * r)); [nia|].
  destruct (Z.even m); nia.
Qed.

Lemma nearest_even_range (N D lo hi : Z) :
  0 < D -> D * lo <= N -> N < D * hi -> lo <= nearest_even N D <= hi.
Proof.
  intros HD Hlo Hhi.
  pose proof (nearest_even_close N D HD). nia.
Qed.


(** On a tie the even neighbour is taken. *)
Lemma nearest_even_tie (N D : Z) :
  0 < D -> 2 * (N mod D) = D -> Z.even (nearest_even N D) = true.
Proof.
  intros HD Htie. unfold nearest_even.
  destruct (Z.ltb_spec (2 * (N mod D)) D); [lia|].
  destruct (Z.ltb_spec D (2 * (N mod D))); [lia|].
  destruct (Z.even (N / D)) eqn:He; [exact He|].
  rewrite Z.even_add, He. reflexivity.
Qed.

Lemma scaled_pos (a b E : Z) :
  0 < a -> 0 < b -> 0 < fst (scaled a b E) /\ 0 < snd (scaled a b E).
Proof.
  intros Ha Hb. unfold scaled.
  destruct (Z.leb_spec 0 E); cbn [fst snd].
  - assert (0 < 2 ^ E) by (apply Z.pow_pos_nonneg; lia). nia.
  - assert (0 < 2 ^ (- E)) by (apply Z.pow_pos_nonneg; lia). nia.
Qed.

(** The exponent is chosen so that the scaled value lies in
    [[2^52, 2^53)]. *)
Lemma exponent_spec (a b : Z) :
  0 < a -> 0 < b ->
  let N := fst (scaled a b (exponent a b)) in
  let D := snd (scaled a b (exponent a b)) in
  D * 2 ^ 52 <= N < D * 2 ^ 53.
Proof.
  intros Ha Hb.
  destruct (Z.log2_spec a Ha) as [Hla1 Hla2].
  destruct (Z.log2_spec b Hb) as [Hlb1 Hlb2].
  pose proof (Z.log2_nonneg a) as Hla0.
  pose proof (Z.log2_nonneg b) as Hlb0.
  unfold exponent.
  set (la := Z.log2 a) in *. set (lb := Z.log2 b) in *.
  set (E1 := la - lb - 52).
  destruct (scaled a b E1) as [N1 D1] eqn:Hs1.
  assert (Hsplit : forall x y, 0 <= x -> 0 <= y -> 2 ^ (x + y) = 2 ^ x * 2 ^ y)
    by (intros; now apply Z.pow_add_r).
  assert (Hpos : forall x, 0 <= x -> 0 < 2 ^ x)
    by (intros; apply Z.pow_pos_nonneg; lia).
  destruct (Z.ltb_spec N1 (D1 * 2 ^ 52)) as [Hlt|Hge]; cbn zeta.
  - (* the first guess is one too high *)
    unfold scaled in *.
    destruct (Z.leb_spec 0 (E1 - 1)) as [HE|HE]; cbn [fst snd].
    + destruct (Z.leb_spec 0 E1) as [HE1|HE1]; [|lia].
      injection Hs1 as <- <-.
      replace E1 with ((E1 - 1) + 1) in Hlt by lia.
      rewrite (Hsplit (E1 - 1) 1) in Hlt by lia.
      change (2 ^ 1) with 2 in Hlt.
      change (2 ^ 53) with (2 * 2 ^ 52).
      split; [|nia].
      pose proof (Hsplit (E1 - 1) 52 ltac:(lia) ltac:(lia)) as H1.
      pose proof (Hsplit (lb + 1) (la - lb - 1) ltac:(lia) ltac:(lia)) as H2.
      replace (lb + 1 + (la - lb - 1)) with la in H2 by lia.
      replace (E1 - 1 + 52) with (la - lb - 1) in H1 by (unfold E1; lia).
      pose proof (Hpos (la - lb - 1) ltac:(unfold E1 in *; lia)).
      change (Z.succ la) with (la + 1) in *. change (Z.succ lb) with (lb + 1) in *.
      nia.
    + pose proof (Hpos (- (E1 - 1)) ltac:(lia)) as HK.
      split.
      * pose proof (Hsplit la (- (E1 - 1)) ltac:(lia) ltac:(lia)) as H1.
        replace (la + - (E1 - 1)) with ((lb + 1) + 52) in H1 by (unfold E1; lia).
        rewrite (Hsplit (lb + 1) 52) in H1 by lia.
        change (Z.succ lb) with (lb + 1) in *.
        pose proof (Hpos 52 ltac:(lia)).
        nia.
      * destruct (Z.leb_spec 0 E1) as [HE1|HE1].
        -- assert (E1 = 0) by lia. injection Hs1 as <- <-.
           replace (- (E1 - 1)) with 1 by lia. replace E1 with 0 in Hlt by lia.
           change (2 ^ 0) with 1 in Hlt. change (2 ^ 1) with 2.
           change (2 ^ 53) with (2 * 2 ^ 52). nia.
        -- injection Hs1 as <- <-.
           replace (- (E1 - 1)) with (- E1 + 1) by lia.
           rewrite (Hsplit (- E1) 1) by lia.
           change (2 ^ 1) with 2. change (2 ^ 53) with (2 * 2 ^ 52). nia.
  - rewrite Hs1. cbn [fst snd]. split; [exact Hge|].
    unfold scaled in Hs1.
    change (Z.succ la) with (la + 1) in *. change (Z.succ lb) with (lb + 1) in *.
    destruct (Z.leb_spec 0 E1) as [HE1|HE1]; injection Hs1 as <- <-.
    + pose proof (Hsplit E1 53 ltac:(lia) ltac:(lia)) as H1.
      replace (E1 + 53) with (la - lb + 1) in H1 by (unfold E1; lia).
      pose proof (Hsplit lb (la - lb + 1) ltac:(lia) ltac:(unfold E1 in *; lia)) as H2.
      replace (lb + (la - lb + 1)) with (la + 1) in H2 by lia.
      pose proof (Hpos (la - lb + 1) ltac:(unfold E1 in *; lia)).
      nia.
    + pose proof (Hsplit (la + 1) (- E1) ltac:(lia) ltac:(lia)) as H1.
      replace (la + 1 + - E1) with (lb + 53) in H1 by (unfold E1; lia).
      rewrite (Hsplit lb 53) in H1 by lia.
      pose proof (Hpos (- E1) ltac:(lia)). pose proof (Hpos 53 ltac:(lia)).
      nia.
Qed.

Local Open Scope Q_scope.

Lemma pow2_gt0 (E : Z) : 0 < pow2 E.
Proof.
  unfold pow2. destruct (Z.leb_spec 0 E).
  - change 0 with (inject_Z 0). rewrite <- Zlt_Qlt.
    apply Z.pow_pos_nonneg; lia.
  - apply Qinv_lt_0_compat. change 0 with (inject_Z 0). rewrite <- Zlt_Qlt.
    apply Z.pow_pos_nonneg; lia.
Qed.

Lemma inject_Z_pos (z : Z) : (0 < z)%Z -> 0 < inject_Z z.
Proof. intros H. change 0 with (inject_Z 0). now rewrite <- Zlt_Qlt. Qed.

Lemma inject_Z_nonzero (z : Z) : (0 < z)%Z -> ~ inject_Z z == 0.
Proof. intros H E. apply inject_Z_pos in H. rewrite E in H. discriminate. Qed.

(** [x = (N / D) * 2^E] *)
Lemma scaled_value (a b E : Z) :
  (0 < a)%Z -> (0 < b)%Z ->
  inject_Z a / inject_Z b
  == inject_Z (fst (scaled a b E)) / inject_Z (snd (scaled a b E)) * pow2 E.
Proof.
  intros Ha Hb. unfold scaled, pow2.
  pose proof (inject_Z_nonzero b Hb) as Hb0.
  destruct (Z.leb_spec 0 E); cbn [fst snd].
  - assert (HP : (0 < 2 ^ E)%Z) by (apply Z.pow_pos_nonneg; lia).
    pose proof (inject_Z_nonzero _ HP) as HP0.
    rewrite inject_Z_mult. field. split; assumption.
  - assert (HP : (0 < 2 ^ (- E))%Z) by (apply Z.pow_pos_nonneg; lia).
    pose proof (inject_Z_nonzero _ HP) as HP0.
    rewrite inject_Z_mult. field. split; assumption.
Qed.

(** The rounded value is a significand of 53 bits times a power of two,
    within half a unit in the last place of the exact value. *)
Lemma round_pos_spec (a b : Z) :
  (0 < a)%Z -> (0 < b)%Z ->
  let x := inject_Z a / inject_Z b in
  let m := significand a b in
  let E := exponent a b in
  (2 ^ 52 <= m <= 2 ^ 53)%Z /\
  round_pos a b == inject_Z m * pow2 E /\
  Qabs (round_pos a b - x) <= pow2 E * (1 # 2) /\
  pow2 E * inject_Z (2 ^ 52) <= x /\
  x < pow2 E * inject_Z (2 ^ 53).
Proof.
  intros Ha Hb x m E.
  pose proof (exponent_spec a b Ha Hb) as Hexp. cbn zeta in Hexp.
  pose proof (scaled_pos a b E Ha Hb) as [HN HD].
  pose proof (scaled_value a b E Ha Hb) as Hval.
  unfold round_pos, of_significand, m. unfold significand. fold E.
  fold E in Hexp.
  destruct (scaled a b E) as [N D]. cbn [fst snd] in *.
  pose proof (nearest_even_close N D HD) as Hclose.
  pose proof (nearest_even_range N D (2 ^ 52) (2 ^ 53) HD
                (proj1 Hexp) (proj2 Hexp)) as Hrange.
  set (n := nearest_even N D) in *.
  pose proof (pow2_gt0 E) as Hp.
  pose proof (inject_Z_pos D HD) as HDq.
  set (q := inject_Z N / inject_Z D) in *.
  assert (Hq1 : inject_Z n - (1 # 2) <= q).
  { unfold q. apply Qle_shift_div_l; [exact HDq|].
    setoid_replace ((inject_Z n - (1 # 2)) * inject_Z D)
      with (inject_Z (2 * (n * D) - D) * (1 # 2)).
    2:{ rewrite <- Z.add_opp_r, inject_Z_plus, inject_Z_opp, !inject_Z_mult.
        change (inject_Z 2) with 2. ring. }
    setoid_replace (inject_Z N) with (inject_Z (2 * N) * (1 # 2)).
    2:{ rewrite inject_Z_mult. change (inject_Z 2) with 2. field. }
    apply Qmult_le_compat_r; [|discriminate].
    rewrite <- Zle_Qle. lia. }
  assert (Hq2 : q <= inject_Z n + (1 # 2)).
  { unfold q. apply Qle_shift_div_r; [exact HDq|].
    setoid_replace ((inject_Z n + (1 # 2)) * inject_Z D)
      with (inject_Z (2 * (n * D) + D) * (1 # 2)).
    2:{ rewrite inject_Z_plus, !inject_Z_mult.
        change (inject_Z 2) with 2. ring. }
    setoid_replace (inject_Z N) with (inject_Z (2 * N) * (1 # 2)).
    2:{ rewrite inject_Z_mult. change (inject_Z 2) with 2. field. }
    apply Qmult_le_compat_r; [|discriminate].
    rewrite <- Zle_Qle. lia. }
  assert (Hq3 : inject_Z (2 ^ 52) <= q).
  { unfold q. apply Qle_shift_div_l; [exact HDq|].
    rewrite <- inject_Z_mult, <- Zle_Qle. lia. }
  assert (Hq4 : q < inject_Z (2 ^ 53)).
  { unfold q. apply Qlt_shift_div_r; [exact HDq|].
    rewrite <- inject_Z_mult, <- Zlt_Qlt. lia. }
  split; [exact Hrange|]. split; [apply Qred_correct|].
  rewrite Qred_correct. unfold x. rewrite Hval.
  split; [|split].
  - setoid_replace (inject_Z n * pow2 E - q * pow2 E)
      with ((inject_Z n - q) * pow2 E) by ring.
    rewrite Qabs_Qmult, (Qabs_pos (pow2 E)) by now apply Qlt_le_weak.
    rewrite (Qmult_comm (pow2 E)).
    apply Qmult_le_compat_r; [|now apply Qlt_le_weak].
    apply Qabs_Qle_condition. split; lra.
  - rewrite (Qmult_comm (pow2 E)).
    apply Qmult_le_compat_r; [exact Hq3|now apply Qlt_le_weak].
  - rewrite (Qmult_comm (pow2 E)).
    apply Qmult_lt_compat_r; [exact Hp|exact Hq4].
Qed.

Lemma Qden_value (x : Q) : x == inject_Z (Qnum x) / inject_Z (Zpos (Qden x)).
Proof. destruct x as [n d]. cbn [Qnum Qden]. apply Qmake_Qdiv. Qed.

(** Relative error of one rounding: at most [2^-53]. *)
Lemma round_pos_error (a b : Z) :
  (0 < a)%Z -> (0 < b)%Z ->
  Qabs (round_pos a b - inject_Z a / inject_Z b)
  <= inject_Z a / inject_Z b * (1 # 2 ^ 53).
Proof.
  intros Ha Hb.
  destruct (round_pos_spec a b Ha Hb) as (_ & _ & Herr & Hlow & _).
  eapply Qle_trans; [exact Herr|].
  set (x := inject_Z a / inject_Z b) in *.
  set (p := pow2 (exponent a b)) in *.
  change (inject_Z (2 ^ 52)) with (4503599627370496 # 1) in Hlow.
  change (1 # 2 ^ 53) with (1 # 9007199254740992).
  lra.
Qed.

Lemma round_error (x : Q) :
  Qabs (round x - x) <= Qabs x * (1 # 2 ^ 53).
Proof.
  pose proof (Qden_value x) as Hx.
  unfold round. destruct x as [[|a|a] b]; cbn [Qnum Qden] in *.
  - discriminate.
  - pose proof (round_pos_error (Zpos a) (Zpos b) eq_refl eq_refl) as H.
    rewrite <- Hx in H. rewrite (Qabs_pos (Zpos a # b)) by discriminate.
    exact H.
  - pose proof (round_pos_error (Zpos a) (Zpos b) eq_refl eq_refl) as H.
    assert (Hneg : Z.neg a # b == - (inject_Z (Zpos a) / inject_Z (Zpos b))).
    { rewrite <- Qmake_Qdiv. reflexivity. }
    rewrite Hneg, Qabs_opp.
    setoid_replace (- round_pos (Zpos a) (Zpos b)
                    - - (inject_Z (Zpos a) / inject_Z (Zpos b)))
      with (- (round_pos (Zpos a) (Zpos b)
               - inject_Z (Zpos a) / inject_Z (Zpos b))) by ring.
    rewrite Qabs_opp.
    rewrite (Qabs_pos (inject_Z (Zpos a) / inject_Z (Zpos b))); [exact H|].
    rewrite <- Qmake_Qdiv. discriminate.
Qed.

(** A positive value [x] rounds to a significand [2^52 <= m <= 2^53]
    times the unit in the last place [2^E] of [x], at most half a unit
    away from [x]: no other multiple of the unit is closer. *)
Lemma round_significand (x : Q) :
  0 < x ->
  exists m E : Z,
    (2 ^ 52 <= m <= 2 ^ 53)%Z /\
    round x == inject_Z m * pow2 E /\
    Qabs (round x - x) <= pow2 E * (1 # 2) /\
    pow2 E * inject_Z (2 ^ 52) <= x /\
    x < pow2 E * inject_Z (2 ^ 53).
Proof.
  intros Hx. pose proof (Qden_value x) as Hv.
  unfold round. destruct x as [[|a|a] b]; cbn [Qnum Qden] in *;
    try discriminate.
  exists (significand (Zpos a) (Zpos b)), (exponent (Zpos a) (Zpos b)).
  destruct (round_pos_spec (Zpos a) (Zpos b) eq_refl eq_refl)
    as (Hm & Hr & Herr & Hlow & Hhigh).
  rewrite <- Hv in Herr, Hlow, Hhigh. repeat split; try assumption; apply Hm.
Qed.

(** The product of two doubles of the same sign is the exact product up
    to a relative error of [2^-53]. *)
Lemma mul_bounds (x y : Q) :
  0 <= x * y ->
  x * y - x * y * (1 # 2 ^ 53) <= mul x y /\
  mul x y <= x * y + x * y * (1 # 2 ^ 53).
Proof.
  intros Hxy. unfold mul.
  pose proof (round_error (x * y)) as H.
  rewrite (Qabs_pos (x * y)) in H by exact Hxy.
  apply Qabs_Qle_condition in H. destruct H as [H1 H2].
  set (p := x * y) in *. set (r := round p) in *.
  change (1 # 2 ^ 53) with (1 # 9007199254740992) in *.
  split; lra.
Qed.

(** The rounding on known values: the literals [0.1] and [0.07], the
    products [3 * 0.1 = 0.30000000000000004], [10 * 0.1 = 1] and
    [100 * 0.07 = 7.000000000000001], an exact integer, and the two ties
    next to [2^53]. *)
Example round_known_values :
  round (1 # 10) = Constants.DYNAMIC_THRESHOLD_PERCENTAGE /\
  round (7 # 100) = 1261007895663739 # 18014398509481984 /\
  mul 3 (round (1 # 10)) = 1351079888211149 # 4503599627370496 /\
  mul 10 (round (1 # 10)) = 1 /\
  mul 100 (round (7 # 100)) = 7881299347898369 # 1125899906842624 /\
  round 50 = 50 /\
  round (9007199254740993 # 1) = 9007199254740992 # 1 /\
  round (9007199254740995 # 1) = 9007199254740996 # 1 /\
  round (- (1 # 10)) = - Constants.DYNAMIC_THRESHOLD_PERCENTAGE.
Proof. vm_compute. repeat split. Qed.

End DoubleFacts.
Unset Implicit Arguments.

(* ================================================================== *)
(** * Properties of the retry policy *)
(* ================================================================== *)

Module ApiFacts.

Import Js Api Specs.
Local Open Scope Z_scope.

Section Retry.

Variables (T St : Type).
Variable operation : St -> outcome T * St.

Lemma calls_emit (d : Z) (r : Run T St) :
  calls (emit [Invoke; Sleep d] r) = S (calls r).
Proof. reflexivity. Qed.

Lemma outcome_at_S (s : St) (k : nat) :
  outcome_at operation s (S k) = outcome_at operation (snd (operation s)) k.
Proof. reflexivity. Qed.

Lemma retry_loop_post (maxRetries : Z) :
  forall fuel attempt lastError s,
    attempt <= maxRetries ->
    (Z.to_nat (maxRetries - attempt + 1) < fuel)%nat ->
    exists run,
      retry_loop operation fuel maxRetries attempt lastError s = Some run /\
      loop_post operation maxRetries attempt s run.
Proof.
  induction fuel as [|fuel IH]; intros attempt lastError s Hle Hfuel;
    [lia|].
  cbn [retry_loop].
  destruct (Z.leb_spec attempt maxRetries) as [_|]; [|lia].
  destruct (operation s) as [o s'] eqn:Hop.
  assert (H0 : outcome_at operation s 0 = o)
    by (unfold outcome_at; cbn; now rewrite Hop).
  assert (Hs' : s' = snd (operation s)) by now rewrite Hop.
  assert (Hone : (1 <= Z.to_nat (maxRetries - attempt + 1))%nat) by lia.
  destruct o as [v|error].
  - eexists; split; [reflexivity|].
    unfold loop_post; cbn. repeat split; auto; try (intros; lia).
    exists 0%nat; split; [reflexivity|exact H0].
  - destruct (isClientError (handleApiError error)) eqn:Hclient.
    + eexists; split; [reflexivity|].
      unfold loop_post; cbn. repeat split; auto; try (intros; lia).
      exists 0%nat; split; [reflexivity|].
      exists error; repeat split; auto.
    + destruct (Z.eqb_spec attempt maxRetries) as [Heq|Hne].
      * eexists; split; [reflexivity|].
        unfold loop_post; cbn. repeat split; auto; try (intros; lia).
        exists 0%nat; split; [reflexivity|].
        exists error; repeat split; auto. right. subst attempt.
        replace (maxRetries - maxRetries + 1) with 1 by lia. reflexivity.
      * destruct (IH (attempt + 1) (Some (handleApiError error)) s')
          as (run & Hrun & Hcalls & Hfinal & Hprev & k & Hk & Hres);
          [lia|lia|].
        rewrite Hrun; cbn [option_map].
        eexists; split; [reflexivity|].
        unfold loop_post. rewrite calls_emit.
        assert (Hn : Z.to_nat (maxRetries - attempt + 1)
                     = S (Z.to_nat (maxRetries - (attempt + 1) + 1)))
          by lia.
        split; [lia|]. split; [|split].
        -- cbn [final emit state_before]. now rewrite <- Hs'.
        -- intros [|j] Hj.
           ++ exists error; split; auto.
           ++ rewrite outcome_at_S, <- Hs'. apply Hprev. lia.
        -- exists (S k); split; [now rewrite Hk|].
           cbn [result emit]. rewrite outcome_at_S, <- Hs'.
           destruct (result run) as [v|[e|m]]; auto.
           destruct Hres as (err & Herr & He & Hwhy).
           exists err; repeat split; auto.
           destruct Hwhy as [?|Hall]; [now left|right]. lia.
Qed.

(** With a negative [maxRetries] the loop body never runs. *)
Lemma withRetry_negative (maxRetries : Z) (s : St) :
  maxRetries < 0 ->
  withRetry operation maxRetries s
  = Some {| trace := []; result := Threw (RaisedError Constants.GENERIC);
            final := s |}.
Proof.
  intros Hneg. unfold withRetry.
  replace (Z.to_nat (maxRetries + 1)) with 0%nat by lia.
  cbn. destruct (Z.leb_spec 0 maxRetries); [lia|reflexivity].
Qed.

(** [withRetry] always settles, for any operation and any [maxRetries]. *)
Lemma withRetry_total (maxRetries : Z) (s : St) :
  exists run, withRetry operation maxRetries s = Some run.
Proof.
  destruct (Z.lt_ge_cases maxRetries 0) as [Hneg|Hpos].
  - rewrite withRetry_negative by assumption. eauto.
  - destruct (retry_loop_post maxRetries
                (Z.to_nat (maxRetries + 1) + 1) 0 None s) as (run & H & _);
      [lia|lia|]. exists run; exact H.
Qed.

(** An operation whose failures are never client errors and which never
    succeeds uses up every attempt. *)
Lemma retry_loop_exhausts (maxRetries : Z) (error : thrown) :
  (forall s, fst (operation s) = Rejected error) ->
  isClientError (handleApiError error) = false ->
  forall fuel attempt lastError s,
    attempt <= maxRetries ->
    (Z.to_nat (maxRetries - attempt + 1) < fuel)%nat ->
    exists run,
      retry_loop operation fuel maxRetries attempt lastError s = Some run /\
      calls run = Z.to_nat (maxRetries - attempt + 1) /\
      result run = Threw (RaisedApi (handleApiError error)).
Proof.
  intros Hrej Hclient.
  induction fuel as [|fuel IH]; intros attempt lastError s Hle Hfuel;
    [lia|].
  cbn [retry_loop].
  destruct (Z.leb_spec attempt maxRetries) as [_|]; [|lia].
  specialize (Hrej s) as Hs.
  destruct (operation s) as [o s']; cbn in Hs; subst o.
  rewrite Hclient.
  destruct (Z.eqb_spec attempt maxRetries) as [Heq|Hne].
  - eexists; split; [reflexivity|]. split; [|reflexivity].
    subst attempt. replace (maxRetries - maxRetries + 1) with 1 by lia.
    reflexivity.
  - destruct (IH (attempt + 1) (Some (handleApiError error)) s')
      as (run & Hrun & Hcalls & Hres); [lia|lia|].
    rewrite Hrun; cbn [option_map].
    eexists; split; [reflexivity|]. rewrite calls_emit. split.
    + rewrite Hcalls. lia.
    + exact Hres.
Qed.

End Retry.

Lemma ServerFailure_retried (e : thrown) :
  ServerFailure e -> isClientError (handleApiError e) = false.
Proof.
  unfold ServerFailure, isClientError. intros H.
  destruct (Z.ltb_spec (status (handleApiError e)) 500); [lia|].
  now rewrite andb_false_r.
Qed.

Lemma ClientRejected_status (msg : string) (r : AxiosResponse) :
  400 <= resp_status r < 500 -> resp_status r <> 429 ->
  status (handleApiError (AxiosError msg (Some r))) = resp_status r /\
  isClientError (handleApiError (AxiosError msg (Some r))) = true.
Proof.
  intros Hr Hn. unfold handleApiError.
  destruct (Z.eqb_spec (resp_status r) 429) as [|_]; [contradiction|].
  unfold isClientError; cbn [status]. split; [reflexivity|].
  destruct (Z.leb_spec 400 (resp_status r)); [|lia].
  destruct (Z.ltb_spec (resp_status r) 500); [|lia].
  destruct (Z.eqb_spec (resp_status r) 429); [contradiction|reflexivity].
Qed.

(** C1 (amended).  [withRetry(operation, maxRetries)] always settles and
    invokes the operation at most [maxRetries + 1] times: one first
    attempt and up to [maxRetries] retries.  Every attempt before the last
    one failed; if the last attempt succeeded its value is returned,
    otherwise the classification of its failure is raised.  In particular,
    when the first two attempts fail with a server failure and the third
    succeeds, [withRetry(operation, 3)] returns the value of the third
    attempt after exactly 3 invocations.  The default [maxRetries] is 3. *)
Theorem withRetry_bounded_attempts :
  forall (T St : Type) (operation : St -> outcome T * St)
         (maxRetries : Z) (s : St),
    (exists run,
        withRetry operation maxRetries s = Some run /\
        (calls run <= Z.to_nat (maxRetries + 1))%nat /\
        retry_post operation maxRetries s run) /\
    (forall e1 e2 v,
        maxRetries = 3 ->
        outcome_at operation s 0 = Rejected e1 -> ServerFailure e1 ->
        outcome_at operation s 1 = Rejected e2 -> ServerFailure e2 ->
        outcome_at operation s 2 = Resolved v ->
        exists run,
          withRetry operation maxRetries s = Some run /\
          result run = Returned v /\ calls run = 3%nat) /\
    withRetry_default operation s = withRetry operation 3 s.
Proof.
  intros T St operation maxRetries s.
  assert (Hgen : exists run,
             withRetry operation maxRetries s = Some run /\
             (calls run <= Z.to_nat (maxRetries + 1))%nat /\
             retry_post operation maxRetries s run).
  { unfold retry_post.
    destruct (Z.ltb_spec maxRetries 0) as [Hneg|Hpos].
    - rewrite withRetry_negative by assumption.
      eexists; split; [reflexivity|]. split; [cbn; lia|reflexivity].
    - destruct (retry_loop_post T St operation maxRetries
                  (Z.to_nat (maxRetries + 1) + 1) 0 None s)
        as (run & Hrun & Hpost); [lia|lia|].
      exists run. split; [exact Hrun|]. split; [|exact Hpost].
      destruct Hpost as (Hc & _).
      now replace (maxRetries - 0 + 1) with (maxRetries + 1) in Hc by lia. }
  split; [exact Hgen|]. split; [|reflexivity].
  intros e1 e2 v -> H0 Hs1 H1 Hs2 H2.
  destruct Hgen as (run & Hrun & Hcalls & Hpost).
  exists run. split; [exact Hrun|].
  unfold retry_post in Hpost; cbn in Hpost.
  destruct Hpost as (_ & _ & Hprev & k & Hk & Hres).
  apply ServerFailure_retried in Hs1, Hs2.
  assert (Hk2 : k = 2%nat).
  { destruct (Nat.lt_trichotomy k 2) as [Hlt|[Heq|Hgt]]; [|exact Heq|].
    - exfalso.
      assert (Hcase : k = 0%nat \/ k = 1%nat) by lia.
      destruct (result run) as [v'|[e|m]]; [| |exact Hres].
      + destruct Hcase; subst k; congruence.
      + destruct Hres as (err & Herr & -> & [Hcl|Hall]).
        * destruct Hcase; subst k; congruence.
        * change (Z.to_nat (3 - 0 + 1)) with 4%nat in Hall. lia.
    - exfalso. destruct (Hprev 2%nat) as (err & Herr & _); [lia|].
      congruence. }
  subst k. split; [|exact Hk].
  destruct (result run) as [v'|[e|m]].
  - congruence.
  - destruct Hres as (err & Herr & _). congruence.
  - contradiction.
Qed.

(** The two fetchers of the retry scenario, run. *)
Lemma withRetry_bounded_attempts_witness :
  exists run,
    withRetry Samples.flaky_fetcher 3 0%nat = Some run /\
    result run = Returned 42%nat /\ calls run = 3%nat.
Proof.
  apply (proj1 (proj2 (withRetry_bounded_attempts nat nat
                         Samples.flaky_fetcher 3 0%nat))
           Samples.http_503 Samples.http_503 42%nat).
  - reflexivity.
  - reflexivity.
  - unfold ServerFailure; cbn; lia.
  - reflexivity.
  - unfold ServerFailure; cbn; lia.
  - reflexivity.
Defined.

(** C1 as stated fails: a fetcher that always fails with a server failure
    is invoked 4 times by [withRetry(fetcher, 3)], not at most 3. *)
Lemma withRetry_exceeds_maxAttempts :
  ~ (forall run : Run nat nat,
        withRetry Samples.failing_fetcher 3 0%nat = Some run ->
        (calls run <= 3)%nat).
Proof.
  intros H.
  specialize (H _ eq_refl). cbn in H. lia.
Qed.

(** C2 (amended).  For [maxRetries >= 0], an operation whose first attempt
    is answered with a 4xx status other than 429 is invoked exactly once,
    without any delay, and the classified error, carrying that status, is
    raised at once; at any later attempt too, a failure of that kind is
    the last invocation of the run.  An unknown timeframe tag is not such an error:
    [fetchChartData] then fails with a plain [Error], which is classified
    with status 500 and retried like a server failure, so the generic
    error surfaces only after [maxRetries + 1] invocations. *)
Theorem withRetry_client_error_not_retried :
  forall (T St : Type) (maxRetries : Z),
    0 <= maxRetries ->
    (forall (operation : St -> outcome T * St) (s : St) (error : thrown),
        fst (operation s) = Rejected error ->
        ClientRejected error ->
        withRetry operation maxRetries s
        = Some {| trace := [Invoke];
                  result := Threw (RaisedApi (handleApiError error));
                  final := snd (operation s) |} /\
        400 <= status (handleApiError error) < 500 /\
        status (handleApiError error) <> 429) /\
    (forall (operation : St -> outcome T * St) (s : St),
        exists run,
          withRetry operation maxRetries s = Some run /\
          forall k error,
            (k < calls run)%nat ->
            outcome_at operation s k = Rejected error ->
            ClientRejected error ->
            calls run = S k /\
            result run = Threw (RaisedApi (handleApiError error))) /\
    (forall (get : string -> string -> St -> outcome T * St)
            (coinId timeframe : string) (s : St),
        timeframeConfig_truthy timeframe = false ->
        exists run,
          withRetry (fetchChartData get coinId timeframe) maxRetries s
          = Some run /\
          calls run = Z.to_nat (maxRetries + 1) /\
          result run
          = Threw (RaisedApi {| status := 500;
                                message := Constants.GENERIC |})).
Proof.
  intros T St maxRetries Hpos. split; [|split].
  - intros operation s error Hfst (msg & r & -> & Hr & Hn).
    destruct (ClientRejected_status msg r Hr Hn) as (Hst & Hcl).
    split; [|rewrite Hst; split; assumption].
    unfold withRetry.
    replace (Z.to_nat (maxRetries + 1) + 1)%nat
      with (S (Z.to_nat (maxRetries + 1))) by lia.
    cbn [retry_loop].
    destruct (Z.leb_spec 0 maxRetries); [|lia].
    destruct (operation s) as [o s']; cbn in Hfst; subst o.
    now rewrite Hcl.
  - intros operation s.
    destruct (retry_loop_post T St operation maxRetries
                (Z.to_nat (maxRetries + 1) + 1) 0 None s)
      as (run & Hrun & _ & _ & Hprev & k0 & Hk0 & Hres); [lia|lia|].
    exists run. split; [exact Hrun|].
    intros k error Hk Hout (msg & r & -> & Hr & Hn).
    destruct (ClientRejected_status msg r Hr Hn) as (_ & Hcl).
    assert (Hlast : calls run = S k).
    { destruct (Nat.eq_dec (calls run) (S k)) as [|Hne]; [assumption|].
      destruct (Hprev k) as (err & Herr & Hncl); [lia|].
      rewrite Hout in Herr. injection Herr as <-. congruence. }
    split; [exact Hlast|].
    assert (k0 = k) by lia. subst k0.
    destruct (result run) as [v|[e|m]].
    + congruence.
    + destruct Hres as (err & Herr & -> & _).
      rewrite Hout in Herr. now injection Herr as <-.
    + contradiction.
  - intros get coinId timeframe s Hunknown.
    destruct (retry_loop_exhausts T St (fetchChartData get coinId timeframe)
                maxRetries
                (JsError ("Invalid timeframe: " ++ timeframe)%string))
      with (fuel := (Z.to_nat (maxRetries + 1) + 1)%nat) (attempt := 0)
           (lastError := @None ApiError) (s := s)
      as (run & Hrun & Hcalls & Hres).
    + intros s0. unfold fetchChartData. now rewrite Hunknown.
    + reflexivity.
    + lia.
    + lia.
    + exists run. split; [exact Hrun|]. split; [|exact Hres].
      rewrite Hcalls. f_equal. lia.
Qed.

Lemma withRetry_client_error_not_retried_witness :
  withRetry Samples.rejected_fetcher 3 0%nat
  = Some {| trace := [Invoke];
            result := Threw (RaisedApi {| status := 404;
                                          message := "coin not found" |});
            final := 1%nat |}.
Proof.
  assert (Hpos : 0 <= 3) by lia.
  refine (proj1 (proj1 (withRetry_client_error_not_retried nat nat 3 Hpos)
            Samples.rejected_fetcher 0%nat
            (Samples.http_404 "coin not found") eq_refl _)).
  exists "Request failed with status code 404"%string,
         (mkResponse 404 (Some "coin not found"%string)).
  split; [reflexivity|]. cbn. lia.
Defined.

(** C2 as stated fails for the configuration error: with an unknown
    timeframe tag the operation is attempted 4 times by
    [withRetry(operation, 3)], not once. *)
Lemma withRetry_retries_invalid_timeframe :
  fst (fetchChartData Samples.get_ok "bitcoin" "2h" tt)
  = Rejected (JsError "Invalid timeframe: 2h") /\
  ~ (forall run,
        withRetry (fetchChartData Samples.get_ok "bitcoin" "2h") 3 tt
        = Some run ->
        calls run = 1%nat).
Proof.
  split; [reflexivity|].
  intros H.
  specialize (H _ eq_refl). cbn in H. discriminate H.
Qed.

End ApiFacts.

(* ================================================================== *)
(** * Properties of the downsampler and of the series validation *)
(* ================================================================== *)

Module ChartFacts.

Import Js Num Chart Specs.

Section DownsampleFacts.

Context {P : Type} {arith : PriceArith P}.

Implicit Types (data : list (ChartDataPoint P)) (dflt : ChartDataPoint P).

(** The second loop of a bucket keeps in [bestPoint] an element read at
    one of the visited indices, or the initial [data[start]]. *)
Lemma best_point_from (data : list (ChartDataPoint P)) dflt (avg : P)
      (Q : nat -> Prop) :
  forall (js : list nat) (st : P * ChartDataPoint P),
    (exists j, snd st = nth j data dflt /\ Q j) ->
    Forall Q js ->
    exists j,
      snd (fold_left
             (fun (st : P * ChartDataPoint P) j =>
                let diff := p_abs (p_sub (price (nth j data dflt)) avg) in
                if p_gt diff (fst st) then (diff, nth j data dflt) else st)
             js st) = nth j data dflt /\ Q j.
Proof.
  induction js as [|j js IH]; intros st Hst Hjs; cbn [fold_left].
  - exact Hst.
  - inversion Hjs as [|? ? Hj Hjs']; subst.
    apply IH; [|assumption].
    cbv zeta. destruct (p_gt _ _); [|exact Hst].
    exists j; split; [reflexivity|assumption].
Qed.

(** Iteration [i] pushes a point found inside bucket [i]. *)
Lemma bucket_in_range data dflt (bucketSize i : nat) :
  (1 <= bucketSize)%nat ->
  exists j,
    bucket data dflt bucketSize i = nth j data dflt /\
    (i * bucketSize <= j < i * bucketSize + bucketSize)%nat.
Proof.
  intros Hb. unfold bucket. cbv zeta.
  apply best_point_from.
  - exists (i * bucketSize)%nat. split; [reflexivity|lia].
  - apply Forall_forall. intros j Hj. unfold bucket_range in Hj.
    apply in_seq in Hj. lia.
Qed.

(** Consecutive iterations push points found at increasing positions. *)
Lemma buckets_increasing data dflt (bucketSize : nat) :
  (1 <= bucketSize)%nat ->
  forall n k,
    exists idx,
      map (bucket data dflt bucketSize) (seq k n)
      = map (fun j => nth j data dflt) idx /\
      StronglySorted lt idx /\
      Forall (fun j => (k * bucketSize <= j < (k + n) * bucketSize)%nat) idx.
Proof.
  intros Hb. induction n as [|n IH]; intros k.
  - exists []. repeat split; constructor.
  - destruct (bucket_in_range data dflt bucketSize k Hb) as (j & Hj & Hrange).
    destruct (IH (S k)) as (idx & Hmap & Hsorted & Hall).
    exists (j :: idx). cbn [seq map]. rewrite Hj, Hmap.
    split; [reflexivity|]. split.
    + constructor; [assumption|].
      eapply Forall_impl; [|exact Hall]. cbn. intros a Ha. nia.
    + constructor; [nia|].
      eapply Forall_impl; [|exact Hall]. cbn. intros a Ha. nia.
Qed.

Lemma StronglySorted_snoc (idx : list nat) (x : nat) :
  StronglySorted lt idx -> Forall (fun j => (j < x)%nat) idx ->
  StronglySorted lt (idx ++ [x]).
Proof.
  induction 1 as [|a l Hl IH Ha]; intros Hx; cbn.
  - repeat constructor.
  - inversion Hx; subst. constructor; [auto|].
    apply Forall_app; split; [assumption|]. repeat constructor. assumption.
Qed.

Lemma nth_error_nth_in {A} (l : list A) (d : A) (j : nat) :
  (j < List.length l)%nat -> nth_error l j = Some (nth j l d).
Proof. intros H. now apply nth_error_nth'. Qed.

Lemma last_nth {A} (l : list A) (d : A) :
  last l d = nth (List.length l - 1) l d.
Proof.
  induction l as [|a [|b l] IH]; try reflexivity.
  change (last (a :: b :: l) d) with (last (b :: l) d). rewrite IH.
  cbn [List.length].
  replace (S (S (List.length l)) - 1)%nat
    with (S (S (List.length l) - 1)) by lia.
  reflexivity.
Qed.

(** Shape of the result when the series is longer than [maxPoints]. *)
Lemma downsampleData_long data (maxPoints : nat) :
  (maxPoints < List.length data)%nat ->
  exists first rest,
    data = first :: rest /\
    downsampleData data maxPoints
    = [first]
        ++ map (bucket data first (List.length data / maxPoints))
               (seq 1 (maxPoints - 2))
        ++ [last data first].
Proof.
  intros Hlong. unfold downsampleData.
  destruct (Nat.leb_spec (List.length data) maxPoints); [lia|].
  destruct data as [|first rest]; [cbn in Hlong; lia|].
  exists first, rest. split; reflexivity.
Qed.

Lemma downsampleData_length data (maxPoints : nat) :
  (maxPoints < List.length data)%nat ->
  List.length (downsampleData data maxPoints) = (2 + (maxPoints - 2))%nat.
Proof.
  intros Hlong.
  destruct (downsampleData_long data maxPoints Hlong)
    as (first & rest & _ & ->).
  rewrite !length_app, length_map, length_seq. cbn. lia.
Qed.

Lemma downsampleData_identity data (maxPoints : nat) :
  (List.length data <= maxPoints)%nat -> downsampleData data maxPoints = data.
Proof.
  intros Hshort. unfold downsampleData.
  now destruct (Nat.leb_spec (List.length data) maxPoints); [|lia].
Qed.

(** Downsampling twice with the same bound changes nothing more, whatever
    the series and the bound. *)
Lemma downsampleData_idempotent data (maxPoints : nat) :
  downsampleData (downsampleData data maxPoints) maxPoints
  = downsampleData data maxPoints.
Proof.
  destruct (Nat.le_gt_cases (List.length data) maxPoints) as [Hshort|Hlong].
  - rewrite (downsampleData_identity data maxPoints Hshort).
    exact (downsampleData_identity data maxPoints Hshort).
  - destruct (Nat.le_gt_cases 2 maxPoints) as [Hbig|Hsmall].
    + apply downsampleData_identity.
      rewrite downsampleData_length by assumption. lia.
    + destruct (downsampleData_long data maxPoints Hlong)
        as (first & rest & _ & ->).
      replace (maxPoints - 2)%nat with 0%nat by lia. cbn [seq map app].
      unfold downsampleData. cbn [List.length].
      destruct (Nat.leb_spec 2 maxPoints); [lia|].
      replace (maxPoints - 2)%nat with 0%nat by lia. reflexivity.
Qed.

(** The positions read by [downsampleData]. *)
Lemma downsampleData_positions data (maxPoints : nat) :
  (2 <= maxPoints)%nat -> (maxPoints < List.length data)%nat ->
  exists first mid,
    downsampleData data maxPoints
    = map (fun j => nth j data first) (0%nat :: mid ++ [List.length data - 1]%nat)
    /\ StronglySorted lt (0%nat :: mid ++ [List.length data - 1]%nat)
    /\ Forall (fun j => (j < List.length data)%nat)
              (0%nat :: mid ++ [List.length data - 1]%nat)
    /\ data = first :: skipn 1 data.
Proof.
  intros Hbig Hlong.
  destruct (downsampleData_long data maxPoints Hlong)
    as (first & rest & Hdata & ->).
  set (len := List.length data) in *.
  assert (Hdiv : (1 <= len / maxPoints)%nat)
    by (apply Nat.div_le_lower_bound; lia).
  assert (Hmul : (maxPoints * (len / maxPoints) <= len)%nat)
    by (apply Nat.Div0.mul_div_le).
  destruct (buckets_increasing data first (len / maxPoints) Hdiv
              (maxPoints - 2) 1) as (mid & Hmap & Hsorted & Hall).
  assert (Hall' : Forall (fun j => 0 < j < len - 1)%nat mid).
  { eapply Forall_impl; [|exact Hall]. cbn. intros a Ha.
    replace (1 + (maxPoints - 2))%nat with (maxPoints - 1)%nat in Ha by lia.
    nia. }
  exists first, mid. split; [|split; [|split]].
  - rewrite Hmap. cbn [map app]. rewrite map_app. cbn [map].
    rewrite last_nth.
    replace (nth 0 data first) with first by (now rewrite Hdata).
    reflexivity.
  - constructor.
    + apply StronglySorted_snoc; [assumption|].
      eapply Forall_impl; [|exact Hall']. cbn. lia.
    + apply Forall_app. split.
      * eapply Forall_impl; [|exact Hall']. cbn. lia.
      * repeat constructor. lia.
  - constructor; [lia|]. apply Forall_app. split.
    + eapply Forall_impl; [|exact Hall']. cbn. lia.
    + repeat constructor. lia.
  - now rewrite Hdata.
Qed.

End DownsampleFacts.

(** Reading a sorted list at increasing positions gives a sorted list. *)
Lemma StronglySorted_nth {A} (R : A -> A -> Prop) (l : list A) (d : A) :
  StronglySorted R l ->
  forall i j, (i < j < List.length l)%nat -> R (nth i l d) (nth j l d).
Proof.
  induction 1 as [|a l Hl IH Ha]; intros i j Hij; [cbn in Hij; lia|].
  destruct j as [|j]; [lia|]. destruct i as [|i]; cbn [nth].
  - eapply Forall_forall; [exact Ha|]. apply nth_In. cbn in Hij. lia.
  - apply IH. cbn in Hij. lia.
Qed.

Lemma StronglySorted_map_nth {A} (R : A -> A -> Prop) (l : list A) (d : A) :
  StronglySorted R l ->
  forall idx,
    StronglySorted lt idx ->
    Forall (fun j => (j < List.length l)%nat) idx ->
    StronglySorted R (map (fun j => nth j l d) idx).
Proof.
  intros Hl. induction 1 as [|i idx Hidx IH Hi]; intros Hin; cbn [map].
  - constructor.
  - inversion Hin as [|? ? Hi_in Hidx_in]; subst.
    constructor; [auto|].
    apply Forall_map, Forall_forall. intros j Hj.
    apply StronglySorted_nth; [assumption|].
    split.
    + eapply Forall_forall in Hi; eauto.
    + eapply Forall_forall in Hidx_in; eauto.
Qed.

Lemma last_nonempty {A} (l : list A) (d d' : A) :
  l <> [] -> last l d = last l d'.
Proof.
  induction l as [|a [|b l] IH]; intros Hne; [contradiction|reflexivity|].
  change (last (b :: l) d = last (b :: l) d'). apply IH. discriminate.
Qed.

Lemma valid_point_iff (point : ChartDataPoint jsval) :
  valid_point point = true <-> fully_valid point.
Proof.
  unfold valid_point, fully_valid.
  rewrite andb_true_iff, Z.ltb_lt.
  split; intros [Ht Hp]; (split; [exact Ht|]).
  - destruct (price point) as [[q| | |]| | | | |]; try discriminate.
    now exists q.
  - destruct Hp as (q & ->). reflexivity.
Qed.

(** C4 (amended).  For every series longer than [maxPoints], when
    [maxPoints >= 2], [downsampleData(series, maxPoints)] has exactly
    [maxPoints] points, so at most [maxPoints] and at least
    [min(length, 2)]; its points are drawn from the input in input order,
    the first being the first input point and the last the last input
    point; and if the timestamps of the input never decrease, neither do
    those of the result. *)
Theorem downsampleData_bounded_ordered :
  forall (P : Type) (arith : PriceArith P)
         (data : list (ChartDataPoint P)) (maxPoints : nat),
    (2 <= maxPoints)%nat ->
    (maxPoints < List.length data)%nat ->
    List.length (downsampleData data maxPoints) = maxPoints /\
    (List.length (downsampleData data maxPoints) <= maxPoints)%nat /\
    (Nat.min (List.length data) 2
     <= List.length (downsampleData data maxPoints))%nat /\
    drawn_in_order data (downsampleData data maxPoints) /\
    hd_error (downsampleData data maxPoints) = hd_error data /\
    (forall d, last (downsampleData data maxPoints) d = last data d) /\
    (time_ordered data -> time_ordered (downsampleData data maxPoints)).
Proof.
  intros P arith data maxPoints Hbig Hlong.
  assert (Hlen : List.length (downsampleData data maxPoints) = maxPoints).
  { rewrite downsampleData_length by assumption. lia. }
  destruct (downsampleData_positions data maxPoints Hbig Hlong)
    as (first & mid & Hres & Hsorted & Hin & Hdata).
  split; [exact Hlen|]. split; [lia|]. split; [lia|].
  split; [|split; [|split]].
  - exists (0%nat :: mid ++ [List.length data - 1]%nat).
    split; [exact Hsorted|].
    rewrite Hres, map_map. apply map_ext_in. intros j Hj.
    symmetry. apply nth_error_nth_in.
    eapply Forall_forall in Hin; eauto.
  - rewrite Hres. cbn [map hd_error]. rewrite Hdata at 1 2. reflexivity.
  - intros d. rewrite Hres. cbn [map]. rewrite map_app, app_comm_cons.
    cbn [map]. rewrite last_last, <- last_nth.
    apply last_nonempty. rewrite Hdata. discriminate.
  - unfold time_ordered. intros Hord. rewrite Hres.
    apply StronglySorted_Sorted, StronglySorted_map_nth; try assumption.
    apply Sorted_StronglySorted; [|exact Hord].
    intros a b c Hab Hbc. now apply Z.le_trans with (timestamp b).
Qed.

Lemma downsampleData_bounded_ordered_witness :
  List.length (downsampleData Samples.nine_points 4) = 4%nat /\
  drawn_in_order Samples.nine_points (downsampleData Samples.nine_points 4).
Proof.
  assert (Hbig : (2 <= 4)%nat) by lia.
  assert (Hlong : (4 < List.length Samples.nine_points)%nat) by (cbn; lia).
  pose proof (downsampleData_bounded_ordered number number_arith
                Samples.nine_points 4 Hbig Hlong) as H.
  split; [exact (proj1 H)|exact (proj1 (proj2 (proj2 (proj2 H))))].
Defined.

(** C4 as stated fails for [maxPoints < 2]: on a series of two points,
    [downsampleData(series, 1)] still returns both end points. *)
Lemma downsampleData_exceeds_maxPoints :
  (1 < List.length Samples.two_points)%nat /\
  ~ (List.length (downsampleData Samples.two_points 1) <= 1)%nat.
Proof. cbn. lia. Qed.

(** C5.  When the series has at most [maxPoints] points,
    [downsampleData] returns it unchanged; and downsampling the result of
    a downsampling again, with the same [maxPoints], returns it
    unchanged. *)
Theorem downsampleData_identity_idempotent :
  forall (P : Type) (arith : PriceArith P)
         (data : list (ChartDataPoint P)) (maxPoints : nat),
    ((List.length data <= maxPoints)%nat ->
     downsampleData data maxPoints = data) /\
    downsampleData (downsampleData data maxPoints) maxPoints
    = downsampleData data maxPoints.
Proof.
  intros P arith data maxPoints. split.
  - apply downsampleData_identity.
  - apply downsampleData_idempotent.
Qed.

Lemma downsampleData_identity_idempotent_witness :
  downsampleData Samples.spike_series 4 = Samples.spike_series.
Proof.
  apply (proj1 (downsampleData_identity_idempotent number number_arith
                  Samples.spike_series 4)).
  cbn. lia.
Defined.

(** The scenario of the contract:
    [downsample([{t:0,v:1},{t:1,v:100},{t:2,v:1},{t:3,v:1}], 2)] keeps the
    two end points only. *)
Example downsampleData_spike :
  downsampleData Samples.spike_series 2 = [Samples.pt 0 1; Samples.pt 3 1].
Proof. reflexivity. Qed.

(** C7.  [validateChartData] returns false exactly when its argument is
    not an array, is an empty array, or is an array without any fully
    valid point (finite numeric value, strictly positive timestamp).  So
    an array holding at least one fully valid point is accepted whatever
    its other points are, [NaN] values included, and a non-empty array
    whose values are all [NaN] is rejected. *)
Theorem validateChartData_spec :
  (forall data : jsdata,
      validateChartData data = false <->
      (data = NotArray \/ data = IsArray [] \/
       exists points, data = IsArray points /\
                      forall p, In p points -> ~ fully_valid p)) /\
  (forall points p,
      In p points -> fully_valid p ->
      validateChartData (IsArray points) = true) /\
  (forall points,
      (forall p, In p points -> price p = JNumber NaN) ->
      validateChartData (IsArray points) = false) /\
  validateChartData Samples.series_with_nan = true /\
  validateChartData Samples.series_all_nan = false.
Proof.
  assert (Harr : forall points,
             validateChartData (IsArray points) = false <->
             forall p, In p points -> ~ fully_valid p).
  { intros points. cbn [validateChartData].
    destruct points as [|p0 points]; [cbn; tauto|].
    cbn [List.length Nat.eqb].
    rewrite Nat.ltb_ge. split.
    - intros Hnone p Hp Hvalid. apply valid_point_iff in Hvalid.
      assert (Hin : In p (filter valid_point (p0 :: points)))
        by (apply filter_In; split; assumption).
      destruct (filter valid_point (p0 :: points)); [contradiction|].
      cbn in Hnone. lia.
    - intros Hnone.
      destruct (filter valid_point (p0 :: points)) as [|q l] eqn:Hf;
        [cbn; lia|].
      exfalso.
      assert (Hq : In q (filter valid_point (p0 :: points)))
        by (rewrite Hf; now left).
      apply filter_In in Hq. destruct Hq as [Hq Hv].
      apply (Hnone q Hq). now apply valid_point_iff. }
  split; [|split; [|split; [|split]]].
  - intros [|points]; cbn [validateChartData].
    + split; [now left|reflexivity].
    + change ((if (List.length points =? 0)%nat then false
               else (0 <? List.length (filter valid_point points))%nat)
              = false)
        with (validateChartData (IsArray points) = false).
      rewrite Harr. split.
      * intros H. right; right. exists points. split; [reflexivity|exact H].
      * intros [H|[H|(pts & H & Hnone)]]; [discriminate| |].
        -- injection H as ->. intros p [].
        -- injection H as ->. exact Hnone.
  - intros points p Hp Hvalid.
    destruct (validateChartData (IsArray points)) eqn:Hv; [reflexivity|].
    exfalso. apply (proj1 (Harr points) Hv p Hp Hvalid).
  - intros points Hnan. apply Harr. intros p Hp (_ & q & Hq).
    rewrite (Hnan p Hp) in Hq. discriminate.
  - reflexivity.
  - reflexivity.
Qed.

Lemma validateChartData_spec_witness :
  validateChartData
    (IsArray [mkPoint 1000 (JNumber (Fin 5)); mkPoint 2000 (JNumber NaN)])
  = true.
Proof.
  apply (proj1 (proj2 validateChartData_spec)
           [mkPoint 1000 (JNumber (Fin 5)); mkPoint 2000 (JNumber NaN)]
           (mkPoint 1000 (JNumber (Fin 5)))).
  - left. reflexivity.
  - split; [reflexivity|]. exists 5%Q. reflexivity.
Defined.

End ChartFacts.

(* ================================================================== *)
(** * Properties of the error messages *)
(* ================================================================== *)

Module ErrorFacts.

Import Js Api Chart Security Specs.
Local Open Scope string_scope.

(** [getSafeErrorMessage] only ever answers one of three fixed texts. *)
Lemma getSafeErrorMessage_fixed (error : thrown) :
  getSafeErrorMessage error = "Rate limit reached. Please wait a moment." \/
  getSafeErrorMessage error = "Network error. Please check your connection." \/
  getSafeErrorMessage error
  = "An unexpected error occurred. Please try again.".
Proof.
  unfold getSafeErrorMessage.
  destruct (error_message error) as [m|]; [|auto].
  destruct (includes m "429"); [auto|].
  destruct (includes m "Network"); auto.
Qed.

(** An [Error] whose text has none of the four keywords is shown with its
    text appended. *)
Lemma formatChartError_generic (m : string) :
  includes m "429" = false -> includes m "rate limit" = false ->
  includes m "network" = false -> includes m "fetch" = false ->
  formatChartError (JsError m) = "Error al cargar datos: " ++ m.
Proof.
  intros H1 H2 H3 H4. unfold formatChartError. cbn [error_message].
  now rewrite H1, H2, H3, H4.
Qed.

(** The text of an HTTP error answer other than 429 is the [error] field
    of its payload whenever that field is a non-empty string. *)
Lemma handleApiError_payload (msg payload : string) (st : Z) :
  st <> 429%Z -> payload <> "" ->
  handleApiError (AxiosError msg (Some (mkResponse st (Some payload))))
  = {| status := st; message := payload |}.
Proof.
  intros Hst Hp. unfold handleApiError. cbn [resp_status resp_error].
  destruct (Z.eqb_spec st 429); [contradiction|].
  unfold or_else. destruct (String.eqb_spec payload ""); [contradiction|].
  reflexivity.
Qed.

(** C8 (the code departs from it).  Two failures of the same kind get
    different user-visible texts: [formatChartError] appends the text of
    the underlying [Error], and [handleApiError] passes on the [error]
    field of the response payload. *)
Theorem error_messages_depend_on_payload :
  classify Samples.refused_connection = classify Samples.parse_failure /\
  formatChartError Samples.refused_connection
  = "Error al cargar datos: connect ECONNREFUSED 10.0.0.7:8443 /internal/v2/quotes" /\
  formatChartError Samples.parse_failure
  = "Error al cargar datos: Unexpected token < in JSON at position 0" /\
  formatChartError Samples.refused_connection
  <> formatChartError Samples.parse_failure /\
  classify (Samples.http_404 "coin not found")
  = classify (Samples.http_404 "see /internal/v2/quotes") /\
  message (handleApiError (Samples.http_404 "coin not found"))
  = "coin not found" /\
  message (handleApiError (Samples.http_404 "see /internal/v2/quotes"))
  = "see /internal/v2/quotes".
Proof.
  repeat split; try reflexivity.
  vm_compute. discriminate.
Qed.

End ErrorFacts.

(* ================================================================== *)
(** * Properties of the two-stage filter resolver *)
(* ================================================================== *)

Module FilteringFacts.

Import Num Filtering.
Local Open Scope Q_scope.

Lemma Qlt_bool_iff (a b : Q) : Qlt_bool a b = true <-> a < b.
Proof.
  unfold Qlt_bool. rewrite negb_true_iff. split.
  - intros H. apply Qnot_le_lt. intros Hle.
    apply Qle_bool_iff in Hle. congruence.
  - intros H. destruct (Qle_bool b a) eqn:Hle; [|reflexivity].
    apply Qle_bool_iff in Hle. exfalso. exact (Qlt_not_le _ _ H Hle).
Qed.

Section SortFacts.

Context {A : Type} (compareFn : A -> A -> Q).

Lemma insert_perm (x : A) (l : list A) :
  Permutation (x :: l) (insert compareFn x l).
Proof.
  induction l as [|y l IH]; cbn [insert]; [reflexivity|].
  destruct (Qle_bool (compareFn x y) 0); [reflexivity|].
  rewrite perm_swap. now constructor.
Qed.

(** [sort] rearranges the array, nothing more. *)
Lemma sort_perm (l : list A) : Permutation l (sort compareFn l).
Proof.
  induction l as [|x l IH]; cbn [sort fold_right]; [constructor|].
  etransitivity; [|apply insert_perm]. now constructor.
Qed.

Lemma sort_In (l : list A) (x : A) : In x (sort compareFn l) <-> In x l.
Proof.
  split; apply Permutation_in; [symmetry|]; apply sort_perm.
Qed.

Lemma sort_length (l : list A) :
  List.length (sort compareFn l) = List.length l.
Proof. symmetry. apply Permutation_length, sort_perm. Qed.

(** For a comparator that orders any two elements one way or the other
    and is transitive, the result is ordered. *)
Hypothesis compare_total :
  forall x y, compareFn x y <= 0 \/ compareFn y x <= 0.
Hypothesis compare_trans :
  forall x y z, compareFn x y <= 0 -> compareFn y z <= 0 -> compareFn x z <= 0.

Lemma insert_sorted (x : A) (l : list A) :
  StronglySorted (fun a b => compareFn a b <= 0) l ->
  StronglySorted (fun a b => compareFn a b <= 0) (insert compareFn x l).
Proof.
  induction 1 as [|y l Hl IH Hy]; cbn [insert].
  - repeat constructor.
  - destruct (Qle_bool (compareFn x y) 0) eqn:Hxy.
    + apply Qle_bool_iff in Hxy.
      constructor; [now constructor|].
      constructor; [assumption|].
      eapply Forall_impl; [|exact Hy]. cbn. intros a Ha.
      now apply compare_trans with y.
    + assert (Hyx : compareFn y x <= 0).
      { destruct (compare_total x y) as [H|H]; [|exact H].
        apply Qle_bool_iff in H. congruence. }
      constructor; [assumption|].
      eapply Permutation_Forall; [apply insert_perm|].
      now constructor.
Qed.

Lemma sort_sorted (l : list A) :
  StronglySorted (fun a b => compareFn a b <= 0) (sort compareFn l).
Proof.
  induction l as [|x l IH]; cbn [sort fold_right]; [constructor|].
  now apply insert_sorted.
Qed.

End SortFacts.

(** A comparator that only looks at the elements through [f] does not see
    [f] applied beforehand. *)
Lemma insert_map {A} (compareFn : A -> A -> Q) (f : A -> A) :
  (forall a b, compareFn (f a) (f b) = compareFn a b) ->
  forall x l,
    insert compareFn (f x) (map f l) = map f (insert compareFn x l).
Proof.
  intros Hf x. induction l as [|y l IH]; cbn [insert map]; [reflexivity|].
  rewrite Hf. destruct (Qle_bool (compareFn x y) 0); cbn [map];
    [reflexivity|]. now rewrite IH.
Qed.

Lemma sort_map {A} (compareFn : A -> A -> Q) (f : A -> A) :
  (forall a b, compareFn (f a) (f b) = compareFn a b) ->
  forall l, sort compareFn (map f l) = map f (sort compareFn l).
Proof.
  intros Hf. induction l as [|x l IH]; cbn [sort fold_right map];
    [reflexivity|].
  change (fold_right (insert compareFn) [] (map f l))
    with (sort compareFn (map f l)).
  rewrite IH. now apply insert_map.
Qed.

Lemma filter_map_commute {A} (p : A -> bool) (f : A -> A) :
  (forall a, p (f a) = p a) ->
  forall l, filter p (map f l) = map f (filter p l).
Proof.
  intros Hf. induction l as [|x l IH]; cbn [filter map]; [reflexivity|].
  rewrite Hf. destruct (p x); cbn [map]; now rewrite IH.
Qed.

Lemma at_index_map {A} (f : A -> A) (l : list A) (i : Z) :
  at_index (map f l) i = option_map f (at_index l i).
Proof.
  unfold at_index. destruct (i <? 0)%Z; [reflexivity|].
  apply nth_error_map.
Qed.

Lemma change_with_zero_change (c : Cryptocurrency) :
  change (with_zero_change c) = change c.
Proof. reflexivity. Qed.

Lemma change_missing (c : Cryptocurrency) :
  price_change_percentage_24h c = None -> change c = 0.
Proof. unfold change. now intros ->. Qed.

Lemma is_winner_iff (t : Q) (c : Cryptocurrency) :
  is_winner t c = true <-> t <= change c /\ 0 < change c.
Proof.
  unfold is_winner. now rewrite andb_true_iff, Qle_bool_iff, Qlt_bool_iff.
Qed.

Lemma is_loser_iff (t : Q) (c : Cryptocurrency) :
  is_loser t c = true <-> change c <= t /\ change c < 0.
Proof.
  unfold is_loser. now rewrite andb_true_iff, Qle_bool_iff, Qlt_bool_iff.
Qed.

(** The comparators of the hook order by the 24h change. *)
Lemma by_change_desc_le (a b : Cryptocurrency) :
  by_change_desc a b <= 0 <-> change b <= change a.
Proof.
  unfold by_change_desc. split; intros H.
  - apply Qplus_le_l with (z := - change a). now rewrite Qplus_opp_r.
  - apply Qplus_le_l with (z := - change a) in H. now rewrite Qplus_opp_r in H.
Qed.

Lemma by_change_asc_le (a b : Cryptocurrency) :
  by_change_asc a b <= 0 <-> change a <= change b.
Proof.
  unfold by_change_asc. split; intros H.
  - apply Qplus_le_l with (z := - change b). now rewrite Qplus_opp_r.
  - apply Qplus_le_l with (z := - change b) in H. now rewrite Qplus_opp_r in H.
Qed.

Lemma sort_desc_sorted (l : list Cryptocurrency) :
  StronglySorted (fun a b => change b <= change a) (sort by_change_desc l).
Proof.
  eapply StronglySorted_ind
    with (P := StronglySorted (fun a b => change b <= change a)).
  - constructor.
  - intros a l' _ IH Ha. constructor; [exact IH|].
    eapply Forall_impl; [|exact Ha]. cbn. intros b. apply by_change_desc_le.
  - apply sort_sorted.
    + intros x y. rewrite !by_change_desc_le.
      destruct (Qlt_le_dec (change x) (change y)) as [H|H];
        [right; now apply Qlt_le_weak|now left].
    + intros x y z. rewrite !by_change_desc_le. intros Hxy Hyz.
      now apply Qle_trans with (change y).
Qed.

Lemma sort_asc_sorted (l : list Cryptocurrency) :
  StronglySorted (fun a b => change a <= change b) (sort by_change_asc l).
Proof.
  eapply StronglySorted_ind
    with (P := StronglySorted (fun a b => change a <= change b)).
  - constructor.
  - intros a l' _ IH Ha. constructor; [exact IH|].
    eapply Forall_impl; [|exact Ha]. cbn. intros b. apply by_change_asc_le.
  - apply sort_sorted.
    + intros x y. rewrite !by_change_asc_le.
      destruct (Qlt_le_dec (change x) (change y)) as [H|H];
        [left; now apply Qlt_le_weak|now right].
    + intros x y z. rewrite !by_change_asc_le. intros Hxy Hyz.
      now apply Qle_trans with (change y).
Qed.

Lemma stage1_at_empty (i : Z) (filterType : FilterType) :
  stage1_at i [] filterType = ([], 0).
Proof.
  destruct filterType; cbn; unfold read_threshold, at_index;
    destruct (i <? 0)%Z; try reflexivity;
    destruct (Z.to_nat i); reflexivity.
Qed.

(** The empty snapshot needs no special case. *)
Lemma stage1_any (cfg : Config) (allCryptos : list Cryptocurrency)
      (filterType : FilterType) :
  stage1 cfg allCryptos filterType
  = stage1_at (thresholdIndex cfg allCryptos) allCryptos filterType.
Proof.
  destruct allCryptos; [|reflexivity].
  now rewrite stage1_at_empty.
Qed.

(** C3.  The resolver escalates to a remote fetch exactly when the filter
    is not ALL and stage 1 kept strictly fewer records than
    [minResultsThreshold]; for ALL it never escalates.  Without options
    the threshold is 5. *)
Theorem needsApiCall_iff :
  forall (cfg : Config) (allCryptos : list Cryptocurrency)
         (filterType : FilterType),
    (needsApiCall cfg allCryptos filterType = true <->
     filterType <> All /\
     (Z.of_nat (List.length (clientFiltered cfg allCryptos filterType))
      < minResultsThreshold cfg)%Z) /\
    needsApiCall cfg allCryptos All = false /\
    minResultsThreshold (config no_options) = 5%Z.
Proof.
  intros cfg allCryptos filterType. split; [|split; reflexivity].
  destruct filterType; cbn [needsApiCall];
    try (rewrite Z.ltb_lt; split;
         [intros H; split; [discriminate|exact H]|intros [_ H]; exact H]).
  split; [discriminate|]. intros [H _]. now contradiction H.
Qed.

(** The scenario of the contract: a page of 50 records, 3 of them with a
    positive change, filter WINNERS, default options.  Stage 1 keeps the
    3 positive records, which is below 5, so the resolver escalates; as
    long as the remote query has no data the 3 local records are shown. *)
Example needsApiCall_scenario :
  thresholdIndex (config no_options) Samples.page_of_50 = 5%Z /\
  List.length (clientFiltered (config no_options) Samples.page_of_50 Winners)
  = 3%nat /\
  needsApiCall (config no_options) Samples.page_of_50 Winners = true /\
  filteredCryptos (config no_options) Samples.page_of_50 Winners None
  = clientFiltered (config no_options) Samples.page_of_50 Winners.
Proof. vm_compute. repeat split. Qed.

(** C6.  For every snapshot, every record kept by stage 1 for WINNERS has
    a strictly positive 24h change that is at or above the threshold, and
    every record kept for LOSERS has a strictly negative 24h change that
    is at or below the threshold.  The threshold is the 24h change read
    at index [i = ceil(length * dynamicThresholdPercentage)] of the
    snapshot sorted on the 24h change, descending for WINNERS and
    ascending for LOSERS, and [0] when nothing is found at that index.
    The product is the one the program computes, in double precision: the
    exact product rounded to the nearest double, so within [2^-53] of it
    in relative terms, and [i] is the least integer at or above that
    double.  With the default percentage a snapshot of 10 records reads
    index 1, and with the percentage [0.07] a snapshot of 100 records
    reads index 8.  The sorted array is a rearrangement of the snapshot
    and is ordered as said.  The sign and the side of the threshold are
    right whatever index the threshold is read at. *)
Theorem stage1_sign_and_threshold :
  forall (cfg : Config) (allCryptos : list Cryptocurrency),
    let exact := inject_Z (Z.of_nat (List.length allCryptos))
                 * dynamicThresholdPercentage cfg in
    let product := Double.round exact in
    let i := Qceiling product in
    let found (sorted : list Cryptocurrency) : Q :=
      match (if (i <? 0)%Z then None else nth_error sorted (Z.to_nat i)) with
      | Some c => change c
      | None => 0
      end in
    (inject_Z i - 1 < product /\ product <= inject_Z i /\
     Qabs (product - exact) <= Qabs exact * (1 # 2 ^ 53)) /\
    (threshold cfg allCryptos Winners
     = found (sort by_change_desc allCryptos) /\
     Permutation allCryptos (sort by_change_desc allCryptos) /\
     StronglySorted (fun a b => change b <= change a)
                    (sort by_change_desc allCryptos) /\
     forall c, In c (clientFiltered cfg allCryptos Winners) ->
               In c allCryptos /\ 0 < change c /\
               threshold cfg allCryptos Winners <= change c) /\
    (threshold cfg allCryptos Losers
     = found (sort by_change_asc allCryptos) /\
     Permutation allCryptos (sort by_change_asc allCryptos) /\
     StronglySorted (fun a b => change a <= change b)
                    (sort by_change_asc allCryptos) /\
     forall c, In c (clientFiltered cfg allCryptos Losers) ->
               In c allCryptos /\ change c < 0 /\
               change c <= threshold cfg allCryptos Losers) /\
    (forall j c,
        (In c (fst (stage1_at j allCryptos Winners)) ->
         0 < change c /\ snd (stage1_at j allCryptos Winners) <= change c) /\
        (In c (fst (stage1_at j allCryptos Losers)) ->
         change c < 0 /\ change c <= snd (stage1_at j allCryptos Losers))) /\
    (List.length allCryptos = 10%nat ->
     dynamicThresholdPercentage cfg = Double.round (1 # 10) -> i = 1%Z) /\
    (List.length allCryptos = 100%nat ->
     dynamicThresholdPercentage cfg = Double.round (7 # 100) -> i = 8%Z).
Proof.
  intros cfg allCryptos exact product i found.
  split.
  { pose proof (Qceiling_lt product) as Hlt.
    rewrite <- Z.add_opp_r, inject_Z_plus, inject_Z_opp in Hlt.
    split; [exact Hlt|]. split; [apply Qle_ceiling|].
    apply DoubleFacts.round_error. }
  unfold threshold, clientFiltered. rewrite !stage1_any.
  cbn [stage1_at fst snd]. split; [|split; [|split; [|split]]].
  - split; [reflexivity|]. split; [apply sort_perm|].
    split; [apply sort_desc_sorted|].
    intros c Hc. apply filter_In in Hc. destruct Hc as [Hin Hc].
    apply is_winner_iff in Hc. tauto.
  - split; [reflexivity|]. split; [apply sort_perm|].
    split; [apply sort_asc_sorted|].
    intros c Hc. apply filter_In in Hc. destruct Hc as [Hin Hc].
    apply is_loser_iff in Hc. tauto.
  - intros j c. split; intros Hc; apply filter_In in Hc;
      destruct Hc as [_ Hc];
      [apply is_winner_iff in Hc|apply is_loser_iff in Hc]; tauto.
  - intros Hlen Hpct. unfold i, product, exact. rewrite Hlen, Hpct.
    vm_compute. reflexivity.
  - intros Hlen Hpct. unfold i, product, exact. rewrite Hlen, Hpct.
    vm_compute. reflexivity.
Qed.

(** Stage 1 on the small snapshot: the first record is the only winner. *)
Lemma stage1_sign_and_threshold_witness :
  In (mkCrypto "a" (Some (5 # 1)) 10) Samples.small_snapshot /\
  0 < change (mkCrypto "a" (Some (5 # 1)) 10) /\
  threshold (config no_options) Samples.small_snapshot Winners
  <= change (mkCrypto "a" (Some (5 # 1)) 10).
Proof.
  apply (proj2 (proj2 (proj2 (proj1 (proj2
           (stage1_sign_and_threshold (config no_options)
                                      Samples.small_snapshot)))))).
  vm_compute. left. reflexivity.
Defined.

(** The ceiling is taken of the rounded product, which can fall on either
    side of the exact one.  Ten records at the default percentage: the
    exact product of [10] and the double [0.1] is just above [1], the
    double product is [1]; the program reads index 1 and finds the
    change [9].  A hundred records at [0.07]: seven as a product of
    decimals, [7.000000000000001] as a double; the program reads index 8
    and finds the change [92]. *)
Example thresholdIndex_rounds_the_product :
  (thresholdIndex (config no_options) (Samples.ranked 10) = 1%Z /\
   Qceiling (10 * Constants.DYNAMIC_THRESHOLD_PERCENTAGE) = 2%Z /\
   threshold (config no_options) (Samples.ranked 10) Winners = 9) /\
  (thresholdIndex (config Samples.seven_percent) (Samples.ranked 100) = 8%Z /\
   Qceiling (100 * (7 # 100)) = 7%Z /\
   threshold (config Samples.seven_percent) (Samples.ranked 100) Winners
   = 92).
Proof. vm_compute. repeat split. Qed.

Lemma stage1_at_map (i : Z) (allCryptos : list Cryptocurrency)
      (filterType : FilterType) :
  stage1_at i (map with_zero_change allCryptos) filterType
  = (map with_zero_change (fst (stage1_at i allCryptos filterType)),
     snd (stage1_at i allCryptos filterType)).
Proof.
  assert (Hthr : forall cmp,
             (forall a b, cmp (with_zero_change a) (with_zero_change b)
                          = cmp a b) ->
             forall field,
               (forall c, field (with_zero_change c) = field c) ->
               read_threshold field (sort cmp (map with_zero_change allCryptos)) i
               = read_threshold field (sort cmp allCryptos) i).
  { intros cmp Hcmp field Hfield. unfold read_threshold.
    rewrite sort_map by exact Hcmp. rewrite at_index_map.
    destruct (at_index (sort cmp allCryptos) i); cbn; auto. }
  destruct filterType; cbn [stage1_at fst snd].
  - reflexivity.
  - rewrite Hthr by reflexivity. f_equal.
    apply filter_map_commute. reflexivity.
  - rewrite Hthr by reflexivity. f_equal.
    apply filter_map_commute. reflexivity.
  - rewrite Hthr by reflexivity. f_equal.
    apply filter_map_commute. reflexivity.
Qed.

Lemma thresholdIndex_map (cfg : Config) (allCryptos : list Cryptocurrency) :
  thresholdIndex cfg (map with_zero_change allCryptos)
  = thresholdIndex cfg allCryptos.
Proof. unfold thresholdIndex. now rewrite length_map. Qed.

Lemma stage2_map (filterType : FilterType)
      (expandedData : list Cryptocurrency) :
  stage2 filterType (map with_zero_change expandedData)
  = map with_zero_change (stage2 filterType expandedData).
Proof.
  destruct filterType; cbn [stage2]; try reflexivity.
  - rewrite filter_map_commute by reflexivity. now apply sort_map.
  - rewrite filter_map_commute by reflexivity. now apply sort_map.
  - now apply sort_map.
Qed.

(** C10.  A record whose 24h change is missing has change [0] for the
    resolver.  It is therefore never in a WINNERS or a LOSERS result,
    neither of stage 1 (whatever the snapshot and whatever the index the
    threshold is read at) nor of stage 2.  And both stages treat a missing
    change exactly as a change of [0]: writing [0] in place of every
    missing change of the input changes nothing in the threshold, and
    changes the result only by that same substitution. *)
Theorem missing_change_is_zero :
  forall (c : Cryptocurrency),
    price_change_percentage_24h c = None ->
    change c = 0 /\
    (forall i allCryptos,
        ~ In c (fst (stage1_at i allCryptos Winners)) /\
        ~ In c (fst (stage1_at i allCryptos Losers))) /\
    (forall cfg allCryptos,
        ~ In c (clientFiltered cfg allCryptos Winners) /\
        ~ In c (clientFiltered cfg allCryptos Losers)) /\
    (forall expandedData,
        ~ In c (stage2 Winners expandedData) /\
        ~ In c (stage2 Losers expandedData)) /\
    (forall cfg allCryptos filterType,
        clientFiltered cfg (map with_zero_change allCryptos) filterType
        = map with_zero_change (clientFiltered cfg allCryptos filterType) /\
        threshold cfg (map with_zero_change allCryptos) filterType
        = threshold cfg allCryptos filterType) /\
    (forall filterType expandedData,
        stage2 filterType (map with_zero_change expandedData)
        = map with_zero_change (stage2 filterType expandedData)).
Proof.
  intros c Hmissing.
  pose proof (change_missing c Hmissing) as Hzero.
  assert (Hstage1 : forall i allCryptos,
             ~ In c (fst (stage1_at i allCryptos Winners)) /\
             ~ In c (fst (stage1_at i allCryptos Losers))).
  { intros i allCryptos. cbn [stage1_at fst]. split; intros Hin;
      apply filter_In in Hin; destruct Hin as [_ Hin].
    - apply is_winner_iff in Hin. rewrite Hzero in Hin.
      exact (Qlt_irrefl 0 (proj2 Hin)).
    - apply is_loser_iff in Hin. rewrite Hzero in Hin.
      exact (Qlt_irrefl 0 (proj2 Hin)). }
  split; [exact Hzero|]. split; [exact Hstage1|].
  split; [|split; [|split]].
  - intros cfg allCryptos. unfold clientFiltered. rewrite !stage1_any.
    apply Hstage1.
  - intros expandedData. cbn [stage2]. split; intros Hin;
      apply sort_In, filter_In in Hin; destruct Hin as [_ Hin];
      apply Qlt_bool_iff in Hin; rewrite Hzero in Hin;
      exact (Qlt_irrefl 0 Hin).
  - intros cfg allCryptos filterType. unfold clientFiltered, threshold.
    rewrite !stage1_any, thresholdIndex_map, stage1_at_map. split; reflexivity.
  - apply stage2_map.
Qed.

Lemma missing_change_is_zero_witness :
  ~ In Samples.no_change_record
       (clientFiltered (config no_options) Samples.small_snapshot Winners)
  /\ ~ In Samples.no_change_record
         (clientFiltered (config no_options) Samples.small_snapshot Losers).
Proof.
  apply (proj1 (proj2 (proj2
           (missing_change_is_zero Samples.no_change_record eq_refl)))).
Defined.

End FilteringFacts.

(* ================================================================== *)
(** * More on the transport errors and the retry policy *)
(* ================================================================== *)

Module ApiMore.

Import Js Api Specs RetrySpecs.
Local Open Scope Z_scope.

(** X1.  Whatever was caught, [handleApiError] gives a message that is not
    empty: it is one of the three fixed texts (rate limit, connection,
    generic), or else the non-empty [error] text of the response payload,
    which only happens for an HTTP answer whose status is not 429. *)
Theorem handleApiError_message :
  forall error : thrown,
    message (handleApiError error) <> ""%string /\
    (message (handleApiError error) = Constants.RATE_LIMIT \/
     message (handleApiError error) = Constants.NETWORK_ERROR \/
     message (handleApiError error) = Constants.GENERIC \/
     exists msg r,
       error = AxiosError msg (Some r) /\
       resp_status r <> 429 /\
       resp_error r = Some (message (handleApiError error))).
Proof.
  intros [msg [r|]|msg|]; cbn [handleApiError].
  - destruct (Z.eqb_spec (resp_status r) 429) as [H429|H429]; cbn [message].
    + split; [discriminate|now left].
    + destruct (resp_error r) as [payload|] eqn:Hpayload; cbn [or_else].
      * destruct (String.eqb_spec payload "") as [->|Hne].
        -- split; [discriminate|]. right; right; now left.
        -- split; [exact Hne|]. right; right; right.
           exists msg, r. repeat split; assumption.
      * split; [discriminate|]. right; right; now left.
  - split; [discriminate|]. right; now left.
  - split; [discriminate|]. right; right; now left.
  - split; [discriminate|]. right; right; now left.
Qed.

Lemma retryDelay_small (attempt : Z) :
  0 <= attempt <= 3 -> retryDelay attempt = 1000 * 2 ^ attempt.
Proof.
  intros H. unfold retryDelay.
  assert (Hc : attempt = 0 \/ attempt = 1 \/ attempt = 2 \/ attempt = 3)
    by lia.
  destruct Hc as [-> | [-> | [-> | ->]]]; reflexivity.
Qed.

Lemma retryDelay_capped (attempt : Z) :
  4 <= attempt -> retryDelay attempt = 10000.
Proof.
  intros H. unfold retryDelay.
  change Constants.INITIAL_DELAY with 1000.
  change Constants.BACKOFF_MULTIPLIER with 2.
  change Constants.MAX_DELAY with 10000.
  assert (2 ^ 4 <= 2 ^ attempt) by (apply Z.pow_le_mono_r; lia).
  change (2 ^ 4) with 16 in *. lia.
Qed.

Lemma retryDelay_bounds (attempt : nat) :
  1000 <= retryDelay (Z.of_nat attempt) <= 10000.
Proof.
  destruct (Nat.le_gt_cases attempt 3) as [Hs|Hl].
  - rewrite retryDelay_small by lia.
    assert (Hc : (attempt = 0 \/ attempt = 1 \/ attempt = 2 \/ attempt = 3)%nat)
      by lia.
    destruct Hc as [-> | [-> | [-> | ->]]]; cbn; lia.
  - rewrite retryDelay_capped by lia. lia.
Qed.

(** X2.  The backoff delay before retry number [attempt + 1] is
    [1000 * 2^attempt] ms for the first four attempts and 10000 ms from
    then on; it never decreases with the attempt number and always lies
    between 1000 and 10000 ms.  The copy of the formula in
    [formatters.ts] computes the same delays. *)
Theorem retryDelay_schedule :
  forall attempt : nat,
    retryDelay (Z.of_nat attempt)
    = (if (attempt <=? 3)%nat then 1000 * 2 ^ Z.of_nat attempt else 10000) /\
    1000 <= retryDelay (Z.of_nat attempt) <= 10000 /\
    retryDelay (Z.of_nat attempt) <= retryDelay (Z.of_nat (S attempt)) /\
    Formatters.getRetryDelay attempt = retryDelay (Z.of_nat attempt).
Proof.
  intros attempt.
  assert (Hval : retryDelay (Z.of_nat attempt)
                 = if (attempt <=? 3)%nat then 1000 * 2 ^ Z.of_nat attempt
                   else 10000).
  { destruct (Nat.leb_spec attempt 3).
    - apply retryDelay_small. lia.
    - apply retryDelay_capped. lia. }
  split; [exact Hval|]. split; [apply retryDelay_bounds|].
  split; [|reflexivity].
  destruct (Nat.le_gt_cases attempt 2) as [Hs|Hl].
  - rewrite !retryDelay_small by lia.
    assert (Hc : (attempt = 0 \/ attempt = 1 \/ attempt = 2)%nat) by lia.
    destruct Hc as [-> | [-> | ->]]; cbn; lia.
  - rewrite (retryDelay_capped (Z.of_nat (S attempt))) by lia.
    apply retryDelay_bounds.
Qed.

Section Trace.

Variables (T St : Type).
Variable operation : St -> outcome T * St.

Lemma calls_backoff_trace (r : Run T St) (attempt : Z) (n : nat) :
  trace r = backoff_trace attempt n -> calls r = S n.
Proof.
  unfold calls. intros ->. revert attempt.
  induction n as [|n IH]; intros attempt; [reflexivity|].
  cbn. now rewrite IH.
Qed.

Lemma retry_loop_trace (maxRetries : Z) :
  forall fuel attempt lastError s,
    attempt <= maxRetries ->
    (Z.to_nat (maxRetries - attempt + 1) < fuel)%nat ->
    exists run n,
      retry_loop operation fuel maxRetries attempt lastError s = Some run /\
      trace run = backoff_trace attempt n /\
      attempt + Z.of_nat n <= maxRetries.
Proof.
  induction fuel as [|fuel IH]; intros attempt lastError s Hle Hfuel;
    [lia|].
  cbn [retry_loop].
  destruct (Z.leb_spec attempt maxRetries) as [_|]; [|lia].
  destruct (operation s) as [[v|error] s'].
  - eexists; exists 0%nat. split; [reflexivity|]. split; [reflexivity|lia].
  - destruct (isClientError (handleApiError error)).
    + eexists; exists 0%nat. split; [reflexivity|].
      split; [reflexivity|lia].
    + destruct (Z.eqb_spec attempt maxRetries) as [Heq|Hne].
      * eexists; exists 0%nat. split; [reflexivity|].
        split; [reflexivity|lia].
      * destruct (IH (attempt + 1) (Some (handleApiError error)) s')
          as (run & n & Hrun & Htrace & Hn); [lia|lia|].
        rewrite Hrun. cbn [option_map].
        eexists; exists (S n). split; [reflexivity|].
        split; [|lia]. cbn [emit trace]. rewrite Htrace. reflexivity.
Qed.

End Trace.

Lemma delays_backoff_trace (T St : Type) (r : Run T St) (attempt : Z) (n : nat) :
  trace r = backoff_trace attempt n ->
  delays r = map (fun k => retryDelay (attempt + Z.of_nat k)) (seq 0 n).
Proof.
  unfold delays. intros ->. revert attempt.
  induction n as [|n IH]; intros attempt; [reflexivity|].
  cbn [backoff_trace flat_map app seq map]. rewrite IH.
  rewrite Z.add_0_r. f_equal.
  rewrite <- seq_shift, map_map. apply map_ext. intros k. f_equal. lia.
Qed.

(** X3.  For [maxRetries >= 0] the effects of [withRetry] are exactly:
    invoke, then, for each retry, sleep and invoke again.  There is one
    sleep less than invocations and none after the last invocation; the
    sleep before retry number [k + 1] lasts [retryDelay k], so every sleep
    is at most 10 s and, with the default [maxRetries = 3], a call sleeps
    at most 1000 + 2000 + 4000 = 7000 ms in total. *)
Theorem withRetry_backoff :
  forall (T St : Type) (operation : St -> outcome T * St)
         (maxRetries : Z) (s : St),
    0 <= maxRetries ->
    exists run,
      withRetry operation maxRetries s = Some run /\
      trace run = backoff_trace 0 (calls run - 1) /\
      delays run
      = map (fun k => retryDelay (Z.of_nat k)) (seq 0 (calls run - 1)) /\
      total_delay run <= 10000 * Z.of_nat (calls run - 1) /\
      (maxRetries = 3 -> total_delay run <= 7000).
Proof.
  intros T St operation maxRetries s Hpos.
  destruct (retry_loop_trace T St operation maxRetries
              (Z.to_nat (maxRetries + 1) + 1) 0 None s)
    as (run & n & Hrun & Htrace & Hn); [lia|lia|].
  exists run. split; [exact Hrun|].
  pose proof (calls_backoff_trace T St run 0 n Htrace) as Hcalls.
  pose proof (delays_backoff_trace T St run 0 n Htrace) as Hdelays.
  rewrite Hcalls. replace (S n - 1)%nat with n by lia.
  split; [exact Htrace|]. split; [exact Hdelays|].
  unfold total_delay. rewrite Hdelays. split.
  - clear. generalize 0%nat as a.
    induction n as [|n IH]; intros a; cbn [seq map fold_right]; [lia|].
    specialize (IH (S a)).
    pose proof (retryDelay_bounds a) as Hb.
    cbn [Z.add] in *. lia.
  - intros ->.
    assert (Hc : (n = 0 \/ n = 1 \/ n = 2 \/ n = 3)%nat) by lia.
    destruct Hc as [-> | [-> | [-> | ->]]]; cbn; lia.
Qed.

Lemma withRetry_backoff_witness :
  exists run,
    withRetry Samples.failing_fetcher 3 0%nat = Some run /\
    delays run = [1000; 2000; 4000] /\
    total_delay run <= 7000.
Proof.
  assert (Hpos : 0 <= 3) by lia.
  destruct (withRetry_backoff nat nat Samples.failing_fetcher 3 0%nat Hpos)
    as (run & Hrun & _ & Hdelays & _ & Hdefault).
  exists run. split; [exact Hrun|].
  injection Hrun as <-.
  split; [exact Hdelays|exact (Hdefault eq_refl)].
Defined.

(** X4.  A rate-limit answer (HTTP 429) and a missing response (network
    failure) are retried: an operation that keeps failing that way is
    invoked [maxRetries + 1] times, after which the rate-limit error
    (status 429), respectively the connection error (status 0), is
    raised with its fixed text. *)
Theorem withRetry_retries_rate_limit_and_network :
  forall (T St : Type) (operation : St -> outcome T * St)
         (maxRetries : Z) (s : St) (error : thrown),
    0 <= maxRetries ->
    (forall s', fst (operation s') = Rejected error) ->
    ((exists msg r, error = AxiosError msg (Some r) /\ resp_status r = 429) ->
     exists run,
       withRetry operation maxRetries s = Some run /\
       calls run = Z.to_nat (maxRetries + 1) /\
       result run = Threw (RaisedApi {| status := 429;
                                        message := Constants.RATE_LIMIT |})) /\
    ((exists msg, error = AxiosError msg None) ->
     exists run,
       withRetry operation maxRetries s = Some run /\
       calls run = Z.to_nat (maxRetries + 1) /\
       result run = Threw (RaisedApi {| status := 0;
                                        message := Constants.NETWORK_ERROR |})).
Proof.
  intros T St operation maxRetries s error Hpos Hfail.
  assert (Hgen : isClientError (handleApiError error) = false ->
                 exists run,
                   withRetry operation maxRetries s = Some run /\
                   calls run = Z.to_nat (maxRetries + 1) /\
                   result run = Threw (RaisedApi (handleApiError error))).
  { intros Hcl.
    destruct (ApiFacts.retry_loop_exhausts T St operation maxRetries error
                Hfail Hcl (Z.to_nat (maxRetries + 1) + 1)%nat 0 None s)
      as (run & Hrun & Hcalls & Hres); [lia|lia|].
    exists run. split; [exact Hrun|]. split; [|exact Hres].
    rewrite Hcalls. f_equal. lia. }
  split.
  - intros (msg & r & -> & H429).
    assert (Heq : handleApiError (AxiosError msg (Some r))
                  = {| status := 429; message := Constants.RATE_LIMIT |}).
    { cbn [handleApiError]. rewrite H429. reflexivity. }
    rewrite Heq in Hgen. apply Hgen. reflexivity.
  - intros (msg & ->). apply Hgen. reflexivity.
Qed.

Lemma withRetry_retries_rate_limit_and_network_witness :
  exists run,
    withRetry (fun s : unit =>
                 (@Rejected nat (AxiosError "Network Error" None), s))
              3 tt = Some run /\
    calls run = 4%nat /\
    result run = Threw (RaisedApi {| status := 0;
                                     message := Constants.NETWORK_ERROR |}).
Proof.
  assert (Hpos : 0 <= 3) by lia.
  apply (proj2 (withRetry_retries_rate_limit_and_network nat unit
                  (fun s : unit =>
                     (@Rejected nat (AxiosError "Network Error" None), s))
                  3 tt (AxiosError "Network Error" None) Hpos
                  (fun _ => eq_refl))).
  exists "Network Error"%string. reflexivity.
Defined.

End ApiMore.

(* ================================================================== *)
(** * More on the downsampler *)
(* ================================================================== *)

Module ChartMore.

Import Js Num Chart Specs ChartSpecs ChartFacts.

Section Downsample.

Context {P : Type} {arith : PriceArith P}.

Lemma nth_0_hd (data : list (ChartDataPoint P)) (first : ChartDataPoint P)
      (rest : list (ChartDataPoint P)) :
  data = first :: rest -> nth 0 data first = first.
Proof. now intros ->. Qed.

(** The end points survive, nothing is invented. *)
Lemma downsampleData_ends :
  forall (data : list (ChartDataPoint P)) (maxPoints : nat),
    hd_error (downsampleData data maxPoints) = hd_error data /\
    (forall d, last (downsampleData data maxPoints) d = last data d) /\
    (forall p, In p (downsampleData data maxPoints) -> In p data) /\
    (downsampleData data maxPoints = [] <-> data = []).
Proof.
  intros data maxPoints.
  destruct (Nat.le_gt_cases (List.length data) maxPoints) as [Hshort|Hlong].
  - rewrite (downsampleData_identity data maxPoints Hshort).
    repeat split; auto.
  - destruct (downsampleData_long data maxPoints Hlong)
      as (first & rest & Hdata & Hres).
    assert (Hlast : In (last data first) data).
    { rewrite Hdata. clear. revert first.
      induction rest as [|b rest IH]; intros first; [now left|].
      right. change (last (first :: b :: rest) first)
               with (last (b :: rest) first).
      rewrite (last_nonempty (b :: rest) first b) by discriminate.
      apply IH. }
    assert (Hmid : forall p,
               In p (map (bucket data first (List.length data / maxPoints))
                         (seq 1 (maxPoints - 2))) -> In p data).
    { intros p Hp. apply in_map_iff in Hp. destruct Hp as (i & <- & Hi).
      apply in_seq in Hi.
      assert (Hbig : (3 <= maxPoints)%nat) by lia.
      assert (Hdiv : (1 <= List.length data / maxPoints)%nat)
        by (apply Nat.div_le_lower_bound; lia).
      assert (Hmul : (maxPoints * (List.length data / maxPoints)
                      <= List.length data)%nat)
        by (apply Nat.Div0.mul_div_le).
      destruct (bucket_in_range data first _ i Hdiv) as (j & -> & Hj).
      apply nth_In. nia. }
    rewrite Hres. split; [|split; [|split]].
    + cbn [app hd_error]. now rewrite Hdata.
    + intros d. rewrite app_assoc, last_last.
      apply last_nonempty. rewrite Hdata. discriminate.
    + intros p Hp. apply in_app_or in Hp.
      destruct Hp as [[<-|[]]|Hp];
        [apply (eq_ind_r (fun l => In first l) (in_eq first rest) Hdata)|].
      apply in_app_or in Hp. destruct Hp as [Hp|[<-|[]]]; auto.
    + split; [discriminate|]. intros ->. cbn in Hlong. lia.
Qed.

(** X5.  Whatever the series and [maxPoints], [downsampleData] keeps the
    first and the last point of the series where they are, returns only
    points of the series, and returns no point exactly when the series is
    empty. *)
Theorem downsampleData_keeps_ends :
  forall (data : list (ChartDataPoint P)) (maxPoints : nat),
    hd_error (downsampleData data maxPoints) = hd_error data /\
    (forall d, last (downsampleData data maxPoints) d = last data d) /\
    (forall p, In p (downsampleData data maxPoints) -> In p data) /\
    (downsampleData data maxPoints = [] <-> data = []).
Proof. exact downsampleData_ends. Qed.

(** X6.  With [maxPoints] 0 or 1 and a longer series, [downsampleData]
    returns exactly two points, the first and the last of the series, one
    more than asked for; for a single point and [maxPoints = 0] that
    point comes back twice. *)
Theorem downsampleData_tiny_maxPoints :
  forall (data : list (ChartDataPoint P)) (maxPoints : nat)
         (first : ChartDataPoint P) (rest : list (ChartDataPoint P)),
    (maxPoints < 2)%nat ->
    data = first :: rest ->
    (maxPoints < List.length data)%nat ->
    downsampleData data maxPoints = [first; last data first] /\
    (rest = [] -> downsampleData data maxPoints = [first; first]).
Proof.
  intros data maxPoints first rest Hsmall Hdata Hlong.
  destruct (downsampleData_long data maxPoints Hlong)
    as (first' & rest' & Hdata' & Hres).
  assert (first' = first) by congruence. subst first'.
  replace (maxPoints - 2)%nat with 0%nat in Hres by lia.
  cbn [seq map app] in Hres. split; [exact Hres|].
  intros ->. rewrite Hres, Hdata. reflexivity.
Qed.

(** The comparison [>] of the deviations, as far as the selection needs
    it; all three facts hold for IEEE doubles, [NaN] included. *)
Hypothesis gt_irrefl : forall a : P, p_gt a a = false.
Hypothesis gt_chain :
  forall a m d : P, p_gt a m = false -> p_gt d m = true -> p_gt a d = false.
Hypothesis neg_infinity_least :
  forall a b : P, p_gt a p_neg_infinity = false -> p_gt a b = false.

Lemma best_point_max (data : list (ChartDataPoint P))
      (dflt : ChartDataPoint P) (dev : nat -> P) (start : nat) :
  forall (js seen : list nat) (st : P * ChartDataPoint P),
    (exists j,
        snd st = nth j data dflt /\
        ((fst st = dev j /\ In j seen) \/
         (fst st = p_neg_infinity /\ j = start)) /\
        forall j', In j' seen -> p_gt (dev j') (fst st) = false) ->
    exists j,
      snd (fold_left
             (fun (st : P * ChartDataPoint P) j =>
                if p_gt (dev j) (fst st) then (dev j, nth j data dflt)
                else st)
             js st) = nth j data dflt /\
      (In j (seen ++ js) \/ j = start) /\
      forall j', In j' (seen ++ js) -> p_gt (dev j') (dev j) = false.
Proof.
  induction js as [|j js IH]; intros seen st (j0 & Hbest & Hm & Hseen);
    cbn [fold_left].
  - rewrite app_nil_r. exists j0. split; [exact Hbest|].
    destruct Hm as [[Hm Hin]|[Hm Hstart]].
    + split; [now left|]. intros j' Hj'. rewrite <- Hm. now apply Hseen.
    + split; [now right|]. intros j' Hj'.
      apply neg_infinity_least. rewrite <- Hm. now apply Hseen.
  - replace (seen ++ j :: js) with ((seen ++ [j]) ++ js)
      by (now rewrite <- app_assoc).
    apply IH.
    destruct (p_gt (dev j) (fst st)) eqn:Hgt; cbn [fst snd].
    + exists j. split; [reflexivity|]. split.
      * left. split; [reflexivity|]. apply in_or_app. right. now left.
      * intros j' Hj'. apply in_app_or in Hj'.
        destruct Hj' as [Hj'|[<-|[]]]; [|apply gt_irrefl].
        apply gt_chain with (fst st); [now apply Hseen|exact Hgt].
    + exists j0. split; [exact Hbest|]. split.
      * destruct Hm as [[Hm Hin]|Hm]; [left|now right].
        split; [exact Hm|]. apply in_or_app. now left.
      * intros j' Hj'. apply in_app_or in Hj'.
        destruct Hj' as [Hj'|[<-|[]]]; [now apply Hseen|exact Hgt].
Qed.

(** X7.  The point pushed for bucket [i] is a point of that bucket whose
    deviation from the bucket mean no other point of the bucket exceeds,
    deviations being computed and compared as the code does. *)
Theorem bucket_max_deviation :
  forall (data : list (ChartDataPoint P)) (dflt : ChartDataPoint P)
         (bucketSize i : nat),
    (1 <= bucketSize)%nat ->
    (i * bucketSize < List.length data)%nat ->
    exists j,
      bucket data dflt bucketSize i = nth j data dflt /\
      (i * bucketSize <= j < i * bucketSize + bucketSize)%nat /\
      (j < List.length data)%nat /\
      forall j',
        (i * bucketSize <= j' < i * bucketSize + bucketSize)%nat ->
        (j' < List.length data)%nat ->
        p_gt (deviation data dflt bucketSize i j')
             (deviation data dflt bucketSize i j) = false.
Proof.
  intros data dflt bucketSize i Hb Hstart.
  set (start := (i * bucketSize)%nat) in *.
  set (js := bucket_range (List.length data) start (start + bucketSize)).
  assert (Hjs : forall j, In j js <->
                  (start <= j < start + bucketSize)%nat /\
                  (j < List.length data)%nat).
  { intros j. unfold js, bucket_range. rewrite in_seq. lia. }
  destruct (best_point_max data dflt (deviation data dflt bucketSize i)
              start js [] (p_neg_infinity, nth start data dflt))
    as (j & Hj & Hin & Hmax).
  { exists start. cbn [fst snd]. split; [reflexivity|].
    split; [now right|]. intros j' []. }
  exists j. split; [exact Hj|].
  assert (Hjin : In j js).
  { destruct Hin as [Hin | ->]; [exact Hin|]. apply Hjs. lia. }
  apply Hjs in Hjin. split; [tauto|]. split; [tauto|].
  intros j' Hr Hl. apply Hmax. cbn [app]. apply Hjs. tauto.
Qed.

End Downsample.

Lemma downsampleData_tiny_maxPoints_witness :
  downsampleData [Samples.pt 0 1] 0 = [Samples.pt 0 1; Samples.pt 0 1].
Proof.
  assert (Hsmall : (0 < 2)%nat) by lia.
  assert (Hlong : (0 < List.length [Samples.pt 0 1])%nat) by (cbn; lia).
  exact (proj2 (downsampleData_tiny_maxPoints [Samples.pt 0 1] 0
                  (Samples.pt 0 1) [] Hsmall eq_refl Hlong) eq_refl).
Defined.

(** The three facts about [>] hold in the model of numbers. *)
Lemma number_gt_irrefl (a : number) : gt a a = false.
Proof.
  destruct a as [q| | |]; try reflexivity.
  cbn. unfold Qlt_bool. apply negb_false_iff, Qle_bool_iff, Qle_refl.
Qed.

Lemma number_gt_chain (a m d : number) :
  gt a m = false -> gt d m = true -> gt a d = false.
Proof.
  destruct a as [x| | |], m as [y| | |], d as [z| | |]; cbn;
    try discriminate; try reflexivity.
  intros Hxy Hzy.
  apply FilteringFacts.Qlt_bool_iff in Hzy.
  destruct (Qlt_bool z x) eqn:Hzx; [|reflexivity].
  apply FilteringFacts.Qlt_bool_iff in Hzx.
  assert (Hyx : (y < x)%Q) by (now apply Qlt_trans with z).
  apply FilteringFacts.Qlt_bool_iff in Hyx. congruence.
Qed.

Lemma number_neg_infinity_least (a b : number) :
  gt a NegInf = false -> gt a b = false.
Proof.
  destruct a as [x| | |], b as [y| | |]; cbn;
    try discriminate; reflexivity.
Qed.

Lemma bucket_max_deviation_witness :
  exists j,
    bucket Samples.nine_points (Samples.pt 0 1) 2 1
    = nth j Samples.nine_points (Samples.pt 0 1) /\
    (2 <= j < 4)%nat.
Proof.
  assert (Hb : (1 <= 2)%nat) by lia.
  assert (Hstart : (1 * 2 < List.length Samples.nine_points)%nat)
    by (cbn; lia).
  destruct (bucket_max_deviation (arith := number_arith)
              number_gt_irrefl number_gt_chain number_neg_infinity_least
              Samples.nine_points (Samples.pt 0 1) 2 1 Hb Hstart)
    as (j & Hj & Hrange & _).
  exists j. split; [exact Hj|exact Hrange].
Defined.

End ChartMore.

(* ================================================================== *)
(** * Properties of the chart query and of the series statistics *)
(* ================================================================== *)

Module ChartHookFacts.

Import Js Api Num Chart Specs RetrySpecs ChartHook ChartFacts.

Lemma getOptimalPoints_bounds (timeframe : string) :
  (60 <= getOptimalPoints timeframe <= 365)%nat.
Proof.
  unfold getOptimalPoints.
  repeat match goal with
         | |- context [if ?b then _ else _] => destruct b
         end; lia.
Qed.

Lemma validateChartData_array (points : list (ChartDataPoint jsval)) :
  validateChartData (IsArray points) = true <->
  exists p, In p points /\ fully_valid p.
Proof.
  cbn [validateChartData].
  destruct points as [|p0 points]; [cbn; split; [discriminate|]|].
  { intros (p & [] & _). }
  cbn [List.length Nat.eqb]. rewrite Nat.ltb_lt. split.
  - intros Hpos.
    destruct (filter valid_point (p0 :: points)) as [|q l] eqn:Hf;
      [cbn in Hpos; lia|].
    assert (Hq : In q (filter valid_point (p0 :: points)))
      by (rewrite Hf; now left).
    apply filter_In in Hq. exists q. split; [tauto|].
    now apply valid_point_iff.
  - intros (p & Hp & Hvalid). apply valid_point_iff in Hvalid.
    assert (Hin : In p (filter valid_point (p0 :: points)))
      by (apply filter_In; split; assumption).
    destruct (filter valid_point (p0 :: points)); [contradiction|].
    cbn. lia.
Qed.

Lemma fetchChartData_rejects {T St : Type}
      (get : string -> string -> St -> outcome T * St)
      (coinId timeframe : string) :
  (forall c t s0, exists err, fst (get c t s0) = Rejected err) ->
  forall s0, exists err,
    fst (fetchChartData get coinId timeframe s0) = Rejected err.
Proof.
  intros Hfail s0. unfold fetchChartData.
  destruct (timeframeConfig_truthy timeframe); [apply Hfail|].
  eexists. reflexivity.
Qed.

Section Transform.

Context {P : Type} {arith : PriceArith P}.
Variable as_value : P -> jsval.

Lemma map_entries_pairs (rawData : list (ChartDataPoint P)) :
  map_entries (map entry_of rawData) = Resolved rawData.
Proof.
  induction rawData as [|[t p] rawData IH]; [reflexivity|].
  cbn [map entry_of map_entries timestamp price]. now rewrite IH.
Qed.

Lemma map_entries_resolved (prices : list (PriceEntry P))
      (rawData : list (ChartDataPoint P)) :
  map_entries prices = Resolved rawData -> prices = map entry_of rawData.
Proof.
  revert rawData. induction prices as [|[t p|m] prices IH];
    intros rawData H; cbn [map_entries] in H.
  - injection H as <-. reflexivity.
  - destruct (map_entries prices) as [points|e]; [|discriminate].
    injection H as <-. cbn [map entry_of timestamp price].
    f_equal. now apply IH.
  - discriminate.
Qed.

Lemma map_entries_rejected (prices : list (PriceEntry P)) (e : thrown) :
  map_entries prices = Rejected e ->
  exists m, In (NotIterable m) prices /\ e = JsError m.
Proof.
  induction prices as [|[t p|m] prices IH]; intros H; cbn [map_entries] in H.
  - discriminate.
  - destruct (map_entries prices) as [points|e']; [discriminate|].
    injection H as <-. destruct (IH eq_refl) as (m & Hm & He).
    exists m. split; [now right|exact He].
  - injection H as <-. exists m. split; [now left|reflexivity].
Qed.

Lemma map_entries_not_iterable (prices : list (PriceEntry P)) (m : string) :
  In (NotIterable m) prices ->
  exists m', In (NotIterable m') prices /\
             map_entries prices = Rejected (JsError m').
Proof.
  intros Hin. destruct (map_entries prices) as [rawData|e] eqn:H.
  - apply map_entries_resolved in H. subst prices.
    apply in_map_iff in Hin. destruct Hin as (p & Hp & _). discriminate.
  - destruct (map_entries_rejected _ _ H) as (m' & Hm' & ->).
    exists m'. split; [exact Hm'|reflexivity].
Qed.

(** When [transformChartData] throws and what it returns. *)
Lemma transformChartData_facts :
  forall (data : ChartData P) (timeframe : string),
    (forall rawData,
        data = WithPrices (map entry_of rawData) ->
        (transformChartData as_value data timeframe
         = Rejected (JsError "Datos de gráfico inválidos recibidos de la API")
         <->
         forall p, In p rawData ->
                   ~ fully_valid (mkPoint (timestamp p) (as_value (price p))))
        /\
        forall points,
          transformChartData as_value data timeframe = Resolved points ->
          points <> [] /\
          (List.length points <= getOptimalPoints timeframe <= 365)%nat /\
          (forall p, In p points -> In p rawData) /\
          hd_error points = hd_error rawData /\
          (forall d, last points d = last rawData d) /\
          ((List.length rawData <= getOptimalPoints timeframe)%nat ->
           points = rawData)) /\
    (forall m,
        malformed data m ->
        exists m', malformed data m' /\
                   transformChartData as_value data timeframe
                   = Rejected (JsError m')) /\
    (forall points,
        transformChartData as_value data timeframe = Resolved points ->
        well_formed data) /\
    (forall e,
        transformChartData as_value data timeframe = Rejected e ->
        (well_formed data /\
         e = JsError "Datos de gráfico inválidos recibidos de la API") \/
        exists m, malformed data m /\ e = JsError m).
Proof.
  intros data timeframe. split; [|split; [|split]].
  - intros raw ->. unfold transformChartData. cbn [rawData_of].
    rewrite map_entries_pairs. cbv zeta.
    pose proof (validateChartData_array (map (fun p => mkPoint (timestamp p)
                  (as_value (price p))) raw)) as Hvalid.
    change (IsArray (map (fun p => mkPoint (timestamp p) (as_value (price p)))
                         raw)) with (as_jsdata as_value raw) in Hvalid.
    destruct (validateChartData (as_jsdata as_value raw)) eqn:Hv; cbn [negb].
    + destruct (proj1 Hvalid eq_refl) as (q & Hq & Hqv).
      apply in_map_iff in Hq. destruct Hq as (p & <- & Hp).
      split.
      * split; [discriminate|]. intros Hnone. exfalso.
        exact (Hnone p Hp Hqv).
      * intros points Hres. injection Hres as <-.
        destruct (ChartMore.downsampleData_ends raw
                    (getOptimalPoints timeframe))
          as (Hhd & Hlast & Hin & Hnil).
        pose proof (getOptimalPoints_bounds timeframe) as Hopt.
        split; [|split; [|split; [|split; [|split]]]]; auto.
        -- intros Hempty. apply Hnil in Hempty. rewrite Hempty in Hp.
           contradiction.
        -- split; [|lia].
           destruct (Nat.le_gt_cases (List.length raw)
                       (getOptimalPoints timeframe)) as [Hs|Hl].
           ++ now rewrite downsampleData_identity.
           ++ rewrite downsampleData_length by assumption. lia.
        -- apply downsampleData_identity.
    + split; [|discriminate].
      split; [|reflexivity]. intros _ p Hp Hpv.
      assert (Habs : false = true); [|discriminate].
      apply Hvalid.
      eexists. split; [|exact Hpv].
      apply in_map_iff. exists p. split; [reflexivity|exact Hp].
  - intros m Hm. unfold transformChartData.
    destruct data as [prices|m0]; cbn [malformed rawData_of] in *.
    + destruct (map_entries_not_iterable _ _ Hm) as (m' & Hm' & ->).
      exists m'. split; [exact Hm'|reflexivity].
    + exists m0. split; reflexivity.
  - intros points. unfold transformChartData.
    destruct data as [prices|m0]; cbn [rawData_of]; [|discriminate].
    destruct (map_entries prices) as [raw|e] eqn:Hmap; [|discriminate].
    intros _. exists raw. f_equal. now apply map_entries_resolved.
  - intros e. unfold transformChartData.
    destruct data as [prices|m0]; cbn [rawData_of malformed].
    + destruct (map_entries prices) as [raw|e'] eqn:Hmap.
      * cbv zeta. destruct (negb _); [|discriminate].
        intros H. injection H as <-. left. split; [|reflexivity].
        exists raw. f_equal. now apply map_entries_resolved.
      * intros H. injection H as <-. right.
        now apply map_entries_rejected.
    + intros H. injection H as <-. right. exists m0. split; reflexivity.
Qed.

(** X8.  [transformChartData] on the body of an answer.  When the body
    holds under [prices] an array of [[timestamp, price]] entries, the
    function throws, with the fixed text about invalid chart data,
    exactly when no point is fully valid (an empty array included);
    otherwise it returns a non-empty series of at most
    [getOptimalPoints(timeframe)] points, hence at most 365, made of
    points of the answer and with the same first and last point.  Points
    that are not valid are not removed: an answer of at most
    [getOptimalPoints(timeframe)] points is returned as it is.  When the
    body has no array under [prices], or the array has an entry that
    cannot be taken apart, the function throws the [TypeError] of the
    engine instead, whether or not valid points are present.  It returns
    a series on no other body, and throws nothing else. *)
Theorem transformChartData_spec :
  forall (data : ChartData P) (timeframe : string),
    (forall rawData,
        data = WithPrices (map entry_of rawData) ->
        (transformChartData as_value data timeframe
         = Rejected (JsError "Datos de gráfico inválidos recibidos de la API")
         <->
         forall p, In p rawData ->
                   ~ fully_valid (mkPoint (timestamp p) (as_value (price p))))
        /\
        forall points,
          transformChartData as_value data timeframe = Resolved points ->
          points <> [] /\
          (List.length points <= getOptimalPoints timeframe <= 365)%nat /\
          (forall p, In p points -> In p rawData) /\
          hd_error points = hd_error rawData /\
          (forall d, last points d = last rawData d) /\
          ((List.length rawData <= getOptimalPoints timeframe)%nat ->
           points = rawData)) /\
    (forall m,
        malformed data m ->
        exists m', malformed data m' /\
                   transformChartData as_value data timeframe
                   = Rejected (JsError m')) /\
    (forall points,
        transformChartData as_value data timeframe = Resolved points ->
        well_formed data) /\
    (forall e,
        transformChartData as_value data timeframe = Rejected e ->
        (well_formed data /\
         e = JsError "Datos de gráfico inválidos recibidos de la API") \/
        exists m, malformed data m /\ e = JsError m).
Proof. exact transformChartData_facts. Qed.

(** X9.  The chart query always settles.  When it succeeds, the series
    is not empty and has at most [getOptimalPoints(timeframe)] points.
    When it fails, the text shown is one of three fixed texts, or the
    formatted text of a [TypeError]: the request for a coin when no coin
    is selected; the text about invalid chart data when the answer is an
    array of entries without a valid point; the "unknown error" text for
    every failure of the request itself; and, when the request succeeded
    with a body that has no array under [prices] or an entry that cannot
    be taken apart, what [formatChartError] makes of the engine's
    [TypeError], in general "Error al cargar datos: " followed by the
    engine's text.  A rate-limit or a network failure is reported as an
    unknown error, since what [withRetry] raises is not an [Error]
    object. *)
Theorem useChartData_queryFn_outcomes :
  forall (St : Type)
         (get : string -> string -> St -> outcome (ChartData P) * St)
         (coinId : option string) (timeframe : string) (s : St),
    exists res s',
      useChartData_queryFn as_value get coinId timeframe s = Some (res, s') /\
      match res with
      | Resolved points =>
          points <> [] /\
          (List.length points <= getOptimalPoints timeframe)%nat
      | Rejected e =>
          e = JsError "Se requiere seleccionar una criptomoneda" \/
          e = JsError "Error desconocido al cargar el gráfico." \/
          e = JsError "Error al cargar datos: Datos de gráfico inválidos recibidos de la API" \/
          exists id s0 data m,
            coinId = Some id /\
            fst (get id timeframe s0) = Resolved data /\
            malformed data m /\
            e = JsError (formatChartError (JsError m))
      end /\
      (forall id,
          coinId = Some id -> id <> ""%string ->
          (forall c t s0, exists err, fst (get c t s0) = Rejected err) ->
          res = Rejected (JsError "Error desconocido al cargar el gráfico.")).
Proof.
  intros St get coinId timeframe s. unfold useChartData_queryFn.
  destruct coinId as [id|];
    [|eexists; eexists; split; [reflexivity|split; [now left|discriminate]]].
  destruct (String.eqb_spec id "") as [Hid|Hid].
  { eexists; eexists; split; [reflexivity|]. split; [now left|].
    intros id' Hid' Hne. congruence. }
  destruct (ApiFacts.retry_loop_post _ _ (fetchChartData get id timeframe) 2
              (Z.to_nat (2 + 1) + 1) 0 None s)
    as (run & Hrun & _ & _ & _ & k & _ & Hres); [lia|lia|].
  unfold withRetry. rewrite Hrun.
  destruct (result run) as [rawData|[e|m]]; [| |contradiction].
  - assert (Hget : fst (get id timeframe
                            (state_before (fetchChartData get id timeframe)
                                          s k))
                   = Resolved rawData).
    { unfold outcome_at in Hres. unfold fetchChartData in Hres at 1.
      destruct (timeframeConfig_truthy timeframe); [exact Hres|].
      discriminate. }
    assert (Hnofail :
              (forall c t s0, exists err, fst (get c t s0) = Rejected err) ->
              False).
    { intros Hfail. destruct (Hfail id timeframe
                                (state_before (fetchChartData get id timeframe)
                                              s k)) as (err & Herr).
      congruence. }
    destruct (transformChartData as_value rawData timeframe) as [points|err]
      eqn:Ht.
    + eexists; eexists; split; [reflexivity|]. split.
      * destruct (transformChartData_facts rawData timeframe)
          as (_ & _ & Hwf & _).
        destruct (Hwf points Ht) as (raw & Hraw).
        destruct (transformChartData_facts rawData timeframe)
          as (Hok & _).
        destruct (proj2 (Hok raw Hraw) points Ht) as (Hne & Hlen & _).
        split; [exact Hne|lia].
      * intros id' _ _ Hfail. exfalso. exact (Hnofail Hfail).
    + eexists; eexists; split; [reflexivity|]. split.
      * destruct (transformChartData_facts rawData timeframe)
          as (_ & _ & _ & Hrej).
        destruct (Hrej err Ht) as [[_ ->]|(m & Hm & ->)].
        -- right; right; left. reflexivity.
        -- right; right; right.
           exists id, (state_before (fetchChartData get id timeframe) s k),
             rawData, m.
           repeat split; assumption.
      * intros id' _ _ Hfail. exfalso. exact (Hnofail Hfail).
  - eexists; eexists; split; [reflexivity|].
    split; [right; left; reflexivity|reflexivity].
Qed.

End Transform.

(** An array of two entries, one of them valid, passes as it is. *)
Lemma transformChartData_spec_witness :
  (List.length [mkPoint 1000 (Fin 5); mkPoint 2000 NaN]
   <= getOptimalPoints "24h" <= 365)%nat.
Proof.
  exact (proj1 (proj2
           (proj2 (proj1 (transformChartData_spec (arith := number_arith)
                            JNumber
                            (WithPrices [Pair 1000%Z (Fin 5);
                                         Pair 2000%Z NaN]) "24h")
                         [mkPoint 1000 (Fin 5); mkPoint 2000 NaN] eq_refl)
                  [mkPoint 1000 (Fin 5); mkPoint 2000 NaN] eq_refl))).
Defined.

(** A rate-limited chart request is reported as an unknown error. *)
Lemma useChartData_queryFn_outcomes_witness :
  exists s',
    useChartData_queryFn (arith := number_arith) JNumber
      (fun _ _ (s : unit) =>
         (@Rejected (ChartData number)
            (AxiosError "Request failed with status code 429"
                        (Some (mkResponse 429 None))), s))
      (Some "bitcoin"%string) "24h" tt
    = Some (Rejected (JsError "Error desconocido al cargar el gráfico."), s').
Proof.
  destruct (useChartData_queryFn_outcomes (arith := number_arith) JNumber unit
              (fun _ _ (s : unit) =>
                 (@Rejected (ChartData number)
                    (AxiosError "Request failed with status code 429"
                                (Some (mkResponse 429 None))), s))
              (Some "bitcoin"%string) "24h" tt)
    as (res & s' & Hrun & _ & Hfail).
  exists s'. rewrite Hrun. f_equal. f_equal.
  apply (Hfail "bitcoin"%string eq_refl).
  - discriminate.
  - intros c t s0. eexists. reflexivity.
Defined.

(** Two answers that do not hold what [ChartData] declares, with the
    texts of the V8 engine.  On the body [{}] the user is shown the engine's text;
    on [{ prices: [[1000, 5], null] }] the valid point does not prevent
    the failure. *)
Example useChartData_queryFn_unexpected_body :
  useChartData_queryFn (arith := number_arith) JNumber
    (fun _ _ (s : unit) =>
       (Resolved (@WithoutPrices number
          "Cannot read properties of undefined (reading 'map')"), s))
    (Some "bitcoin"%string) "24h" tt
  = Some (Rejected (JsError
      "Error al cargar datos: Cannot read properties of undefined (reading 'map')"),
          tt) /\
  transformChartData (arith := number_arith) JNumber
    (WithPrices [Pair 1000%Z (Fin 5);
                 NotIterable "object null is not iterable (cannot read property Symbol(Symbol.iterator))"])
    "24h"
  = Rejected (JsError
      "object null is not iterable (cannot read property Symbol(Symbol.iterator))").
Proof. vm_compute. split; reflexivity. Qed.

End ChartHookFacts.

(* ================================================================== *)
(** * Properties of the series statistics *)
(* ================================================================== *)

Module ChartStatsFacts.

Import Num Chart ChartStats ChartSpecs.
Local Open Scope Q_scope.

Lemma min2_NaN_r (a : number) : min2 a NaN = NaN.
Proof. now destruct a. Qed.

Lemma max2_NaN_r (a : number) : max2 a NaN = NaN.
Proof. now destruct a. Qed.

Lemma fold_min2_NaN (l : list number) : fold_left min2 l NaN = NaN.
Proof. induction l as [|x l IH]; [reflexivity|exact IH]. Qed.

Lemma fold_max2_NaN (l : list number) : fold_left max2 l NaN = NaN.
Proof. induction l as [|x l IH]; [reflexivity|exact IH]. Qed.

Lemma fold_min2_In_NaN (l : list number) :
  In NaN l -> forall acc, fold_left min2 l acc = NaN.
Proof.
  induction l as [|x l IH]; intros Hin acc; [contradiction|].
  cbn [fold_left]. destruct Hin as [->|Hin]; [|now apply IH].
  rewrite min2_NaN_r. apply fold_min2_NaN.
Qed.

Lemma fold_max2_In_NaN (l : list number) :
  In NaN l -> forall acc, fold_left max2 l acc = NaN.
Proof.
  induction l as [|x l IH]; intros Hin acc; [contradiction|].
  cbn [fold_left]. destruct Hin as [->|Hin]; [|now apply IH].
  rewrite max2_NaN_r. apply fold_max2_NaN.
Qed.

Lemma fold_min2_finite (l : list number) :
  Forall finite l ->
  forall a, exists m,
    fold_left min2 l (Fin a) = Fin m /\
    (Fin m = Fin a \/ In (Fin m) l) /\
    m <= a /\
    forall q, In (Fin q) l -> m <= q.
Proof.
  induction 1 as [|x l (b & ->) Hl IH]; intros a.
  - exists a. repeat split; auto using Qle_refl. intros q [].
  - cbn [fold_left min2 gt].
    destruct (Qlt_bool b a) eqn:Hba.
    + apply FilteringFacts.Qlt_bool_iff in Hba.
      destruct (IH b) as (m & -> & Hin & Hmb & Hall).
      exists m. split; [reflexivity|]. split; [|split].
      * right. destruct Hin as [->|Hin]; [now left|now right].
      * apply Qle_trans with b; [exact Hmb|now apply Qlt_le_weak].
      * intros q [Hq|Hq]; [injection Hq as <-; exact Hmb|now apply Hall].
    + assert (Hab : a <= b).
      { apply Qnot_lt_le. intros Hlt.
        apply FilteringFacts.Qlt_bool_iff in Hlt. congruence. }
      destruct (IH a) as (m & -> & Hin & Hma & Hall).
      exists m. split; [reflexivity|]. split; [|split].
      * destruct Hin as [Hin|Hin]; [now left|right; now right].
      * exact Hma.
      * intros q [Hq|Hq]; [injection Hq as <-|now apply Hall].
        now apply Qle_trans with a.
Qed.

Lemma fold_max2_finite (l : list number) :
  Forall finite l ->
  forall a, exists m,
    fold_left max2 l (Fin a) = Fin m /\
    (Fin m = Fin a \/ In (Fin m) l) /\
    a <= m /\
    forall q, In (Fin q) l -> q <= m.
Proof.
  induction 1 as [|x l (b & ->) Hl IH]; intros a.
  - exists a. repeat split; auto using Qle_refl. intros q [].
  - cbn [fold_left max2 gt].
    destruct (Qlt_bool a b) eqn:Hab.
    + apply FilteringFacts.Qlt_bool_iff in Hab.
      destruct (IH b) as (m & -> & Hin & Hbm & Hall).
      exists m. split; [reflexivity|]. split; [|split].
      * right. destruct Hin as [->|Hin]; [now left|now right].
      * apply Qle_trans with b; [now apply Qlt_le_weak|exact Hbm].
      * intros q [Hq|Hq]; [injection Hq as <-; exact Hbm|now apply Hall].
    + assert (Hba : b <= a).
      { apply Qnot_lt_le. intros Hlt.
        apply FilteringFacts.Qlt_bool_iff in Hlt. congruence. }
      destruct (IH a) as (m & -> & Hin & Ham & Hall).
      exists m. split; [reflexivity|]. split; [|split].
      * destruct Hin as [Hin|Hin]; [now left|right; now right].
      * exact Ham.
      * intros q [Hq|Hq]; [injection Hq as <-|now apply Hall].
        now apply Qle_trans with a.
Qed.

(** X10.  For a non-empty series whose prices are all finite,
    [calculateChartStats] reports as [min] and [max] two prices of the
    series that bound every price of the series, and as [first] and [last]
    the prices of its first and last point. *)
Theorem calculateChartStats_finite :
  forall (data : list (ChartDataPoint number))
         (d0 : ChartDataPoint number) (rest : list (ChartDataPoint number)),
    data = d0 :: rest ->
    (forall p, In p data -> finite (price p)) ->
    exists m M,
      min (calculateChartStats data) = Fin m /\
      max (calculateChartStats data) = Fin M /\
      In (Fin m) (map (@price number) data) /\
      In (Fin M) (map (@price number) data) /\
      (forall q, In (Fin q) (map (@price number) data) -> m <= q <= M) /\
      first (calculateChartStats data) = price d0 /\
      last (calculateChartStats data) = price (List.last data d0).
Proof.
  intros data d0 rest -> Hfin.
  assert (Hall : Forall finite (map (@price number) (d0 :: rest))).
  { apply Forall_forall. intros x Hx. apply in_map_iff in Hx.
    destruct Hx as (p & <- & Hp). now apply Hfin. }
  cbn [map] in Hall. inversion Hall as [|x l (a & Ha) Hrest]; subst.
  destruct (fold_min2_finite _ Hrest a) as (m & Hm & Hmin & Hma & Hmall).
  destruct (fold_max2_finite _ Hrest a) as (M & HM & Hmax & HaM & HMall).
  exists m, M.
  cbn [calculateChartStats min max first last map].
  unfold Math_min, Math_max. cbn [fold_left]. rewrite Ha.
  cbn [min2 max2 gt]. rewrite Hm, HM.
  split; [reflexivity|]. split; [reflexivity|].
  split; [|split; [|split; [|split]]].
  - destruct Hmin as [->|Hin]; [now left|now right].
  - destruct Hmax as [->|Hin]; [now left|now right].
  - intros q [Hq|Hq].
    + injection Hq as <-. split; assumption.
    + split; [now apply Hmall|now apply HMall].
  - reflexivity.
  - reflexivity.
Qed.

Lemma calculateChartStats_finite_witness :
  exists m M,
    min (calculateChartStats Samples.spike_series) = Fin m /\
    max (calculateChartStats Samples.spike_series) = Fin M /\
    m <= 100 <= M.
Proof.
  destruct (calculateChartStats_finite Samples.spike_series
              (Samples.pt 0 1)
              [Samples.pt 1 100; Samples.pt 2 1; Samples.pt 3 1] eq_refl)
    as (m & M & Hm & HM & _ & _ & Hbound & _).
  - intros p Hp. cbn in Hp.
    destruct Hp as [<-|[<-|[<-|[<-|[]]]]]; eexists; reflexivity.
  - exists m, M. split; [exact Hm|]. split; [exact HM|].
    apply Hbound. cbn. right. left. reflexivity.
Defined.

(** X11.  Edge cases of [calculateChartStats]: an empty series gives six
    zeros; one [NaN] price anywhere in the series makes both [min] and
    [max] [NaN]; and when the first price is not strictly positive (zero,
    negative or [NaN]) the reported [change] is 0 whatever the last
    price. *)
Theorem calculateChartStats_edges :
  calculateChartStats []
  = mkStats (Fin 0) (Fin 0) (Fin 0) (Fin 0) (Fin 0) (Fin 0) /\
  (forall data p,
      In p data -> price p = NaN ->
      min (calculateChartStats data) = NaN /\
      max (calculateChartStats data) = NaN) /\
  (forall d0 rest,
      gt (price d0) (Fin 0) = false ->
      change (calculateChartStats (d0 :: rest)) = Fin 0).
Proof.
  split; [reflexivity|]. split.
  - intros data p Hp Hnan.
    assert (Hin : In NaN (map (@price number) data)).
    { apply in_map_iff. exists p. split; assumption. }
    destruct data as [|d0 rest]; [contradiction|].
    cbn [calculateChartStats min max]. unfold Math_min, Math_max.
    split; [now apply fold_min2_In_NaN|now apply fold_max2_In_NaN].
  - intros d0 rest Hfirst.
    cbn [calculateChartStats change]. now rewrite Hfirst.
Qed.

Lemma calculateChartStats_edges_witness :
  min (calculateChartStats [Samples.pt 1000 5; mkPoint 2000 NaN]) = NaN /\
  max (calculateChartStats [Samples.pt 1000 5; mkPoint 2000 NaN]) = NaN.
Proof.
  apply (proj1 (proj2 calculateChartStats_edges)
           [Samples.pt 1000 5; mkPoint 2000 NaN] (mkPoint 2000 NaN)).
  - right. left. reflexivity.
  - reflexivity.
Defined.

End ChartStatsFacts.

(* ================================================================== *)
(** * More on the two-stage filter resolver *)
(* ================================================================== *)

Module FilterMore.

Import Num Filtering FilterHook Specs FilteringFacts.
Local Open Scope Q_scope.

Lemma by_volume_desc_le (a b : Cryptocurrency) :
  by_volume_desc a b <= 0 <-> total_volume b <= total_volume a.
Proof.
  unfold by_volume_desc. split; intros H.
  - apply Qplus_le_l with (z := - total_volume a). now rewrite Qplus_opp_r.
  - apply Qplus_le_l with (z := - total_volume a) in H.
    now rewrite Qplus_opp_r in H.
Qed.

Lemma sort_volume_sorted (l : list Cryptocurrency) :
  StronglySorted (fun a b => total_volume b <= total_volume a)
                 (sort by_volume_desc l).
Proof.
  eapply StronglySorted_ind
    with (P := StronglySorted (fun a b => total_volume b <= total_volume a)).
  - constructor.
  - intros a l' _ IH Ha. constructor; [exact IH|].
    eapply Forall_impl; [|exact Ha]. cbn. intros b. apply by_volume_desc_le.
  - apply sort_sorted.
    + intros x y. rewrite !by_volume_desc_le.
      destruct (Qlt_le_dec (total_volume x) (total_volume y)) as [H|H];
        [right; now apply Qlt_le_weak|now left].
    + intros x y z. rewrite !by_volume_desc_le. intros Hxy Hyz.
      now apply Qle_trans with (total_volume y).
Qed.

(** X12.  Stage 2 returns, for WINNERS, exactly the records of the fetched
    page with a strictly positive 24h change, ordered by decreasing
    change; for LOSERS exactly those with a strictly negative change,
    ordered by increasing change; for VOLUME the whole page ordered by
    decreasing volume; for ALL the page as it is.  No percentile cut is
    applied and no record is invented or duplicated. *)
Theorem stage2_spec :
  forall expandedData : list Cryptocurrency,
    (Permutation (filter (fun c => Qlt_bool 0 (change c)) expandedData)
                 (stage2 Winners expandedData) /\
     StronglySorted (fun a b => change b <= change a)
                    (stage2 Winners expandedData) /\
     forall c, In c (stage2 Winners expandedData) <->
               In c expandedData /\ 0 < change c) /\
    (Permutation (filter (fun c => Qlt_bool (change c) 0) expandedData)
                 (stage2 Losers expandedData) /\
     StronglySorted (fun a b => change a <= change b)
                    (stage2 Losers expandedData) /\
     forall c, In c (stage2 Losers expandedData) <->
               In c expandedData /\ change c < 0) /\
    (Permutation expandedData (stage2 Volume expandedData) /\
     StronglySorted (fun a b => total_volume b <= total_volume a)
                    (stage2 Volume expandedData)) /\
    stage2 All expandedData = expandedData.
Proof.
  intros expandedData. cbn [stage2].
  split; [|split; [|split; [|reflexivity]]].
  - split; [apply sort_perm|]. split; [apply sort_desc_sorted|].
    intros c. rewrite sort_In, filter_In, Qlt_bool_iff. tauto.
  - split; [apply sort_perm|]. split; [apply sort_asc_sorted|].
    intros c. rewrite sort_In, filter_In, Qlt_bool_iff. tauto.
  - split; [apply sort_perm|apply sort_volume_sorted].
Qed.

(** X13.  Escalation loses nothing: when the fetched page contains the
    local snapshot, every record kept by stage 1 is in the stage-2
    result, whatever the filter. *)
Theorem stage1_included_in_stage2 :
  forall (cfg : Config) (allCryptos expandedData : list Cryptocurrency)
         (filterType : FilterType) (c : Cryptocurrency),
    incl allCryptos expandedData ->
    In c (clientFiltered cfg allCryptos filterType) ->
    In c (stage2 filterType expandedData).
Proof.
  intros cfg allCryptos expandedData filterType c Hincl.
  unfold clientFiltered. rewrite stage1_any.
  destruct filterType; cbn [stage1_at fst stage2].
  - apply Hincl.
  - intros Hc. apply filter_In in Hc. destruct Hc as [Hin Hc].
    apply is_winner_iff in Hc.
    apply sort_In, filter_In. split; [now apply Hincl|].
    now apply Qlt_bool_iff.
  - intros Hc. apply filter_In in Hc. destruct Hc as [Hin Hc].
    apply is_loser_iff in Hc.
    apply sort_In, filter_In. split; [now apply Hincl|].
    now apply Qlt_bool_iff.
  - intros Hc. apply filter_In in Hc. destruct Hc as [Hin _].
    apply sort_In. now apply Hincl.
Qed.

Lemma stage1_included_in_stage2_witness :
  In (mkCrypto "a" (Some (5 # 1)) 10)
     (stage2 Winners Samples.small_snapshot).
Proof.
  apply (stage1_included_in_stage2 (config no_options)
           Samples.small_snapshot Samples.small_snapshot Winners).
  - intros x Hx. exact Hx.
  - vm_compute. left. reflexivity.
Defined.

Lemma Permutation_filter_length {A} (p : A -> bool) (l l' : list A) :
  Permutation l l' ->
  List.length (filter p l) = List.length (filter p l').
Proof.
  induction 1 as [|x l l' _ IH|x y l|l l' l'' _ IH1 _ IH2]; cbn [filter].
  - reflexivity.
  - destruct (p x); cbn; now rewrite IH.
  - destruct (p x), (p y); reflexivity.
  - now rewrite IH1.
Qed.

Lemma filter_length_prefix {A} (p : A -> bool) (l : list A) (n : nat) :
  (n <= List.length l)%nat ->
  (forall k d, (k < n)%nat -> p (nth k l d) = true) ->
  (n <= List.length (filter p l))%nat.
Proof.
  revert l. induction n as [|n IH]; intros l Hn Hp; [lia|].
  destruct l as [|x l]; [cbn in Hn; lia|].
  cbn [filter].
  assert (Hx : p x = true) by (apply (Hp 0%nat x); lia).
  rewrite Hx. cbn [List.length].
  apply le_n_S, IH.
  - cbn in Hn. lia.
  - intros k d Hk. apply (Hp (S k) d). lia.
Qed.

(** With the default percentage the threshold index of a snapshot of at
    least 31 records is at least 4 and falls inside the snapshot: the
    product is within [2^-53] of a tenth of the length. *)
Lemma default_thresholdIndex_bounds (allCryptos : list Cryptocurrency) :
  (31 <= Z.of_nat (List.length allCryptos))%Z ->
  (4 <= thresholdIndex (config no_options) allCryptos
   < Z.of_nat (List.length allCryptos))%Z.
Proof.
  intros Hn. unfold thresholdIndex.
  cbn [config no_options nullish dynamicThresholdPercentage
       opt_dynamicThresholdPercentage].
  set (n := Z.of_nat (List.length allCryptos)) in *.
  assert (Hnq : 31 <= inject_Z n)
    by (change 31 with (inject_Z 31); now rewrite <- Zle_Qle).
  assert (Hpos : 0 <= inject_Z n * Constants.DYNAMIC_THRESHOLD_PERCENTAGE).
  { apply Qmult_le_0_compat; [lra|discriminate]. }
  destruct (DoubleFacts.mul_bounds _ _ Hpos) as [Hlo Hhi].
  set (product := Double.mul (inject_Z n)
                             Constants.DYNAMIC_THRESHOLD_PERCENTAGE) in *.
  pose proof (Qle_ceiling product) as Hle.
  pose proof (Qceiling_lt product) as Hlt.
  set (c := Qceiling product) in *.
  rewrite <- Z.add_opp_r, inject_Z_plus, inject_Z_opp in Hlt.
  change (inject_Z 1) with 1 in Hlt.
  unfold Constants.DYNAMIC_THRESHOLD_PERCENTAGE in Hlo, Hhi.
  change (1 # 2 ^ 53) with (1 # 9007199254740992) in Hlo, Hhi.
  assert (H3 : inject_Z 3 < inject_Z c) by (change (inject_Z 3) with 3; lra).
  assert (Hc : inject_Z c < inject_Z n) by lra.
  rewrite <- Zlt_Qlt in H3, Hc. lia.
Qed.

(** X14.  For VOLUME, when the threshold index [i] falls inside the
    snapshot, stage 1 keeps at least [i + 1] records: all those whose
    volume is at least the volume found at rank [i].  So the resolver does
    not escalate as soon as [minResultsThreshold <= i + 1]; with the
    default options this is the case for every snapshot of 31 records or
    more. *)
Theorem stage1_volume_count :
  forall (cfg : Config) (allCryptos : list Cryptocurrency),
    (forall i : Z,
        (0 <= i < Z.of_nat (List.length allCryptos))%Z ->
        (i + 1 <= Z.of_nat (List.length
                              (fst (stage1_at i allCryptos Volume))))%Z) /\
    ((0 <= thresholdIndex cfg allCryptos
      < Z.of_nat (List.length allCryptos))%Z ->
     (minResultsThreshold cfg <= thresholdIndex cfg allCryptos + 1)%Z ->
     needsApiCall cfg allCryptos Volume = false) /\
    ((31 <= List.length allCryptos)%nat ->
     needsApiCall (config no_options) allCryptos Volume = false).
Proof.
  intros cfg allCryptos.
  assert (Hcount : forall i : Z,
             (0 <= i < Z.of_nat (List.length allCryptos))%Z ->
             (i + 1 <= Z.of_nat (List.length
                                   (fst (stage1_at i allCryptos Volume))))%Z).
  { intros i Hi. cbn [stage1_at fst].
    set (sorted := sort by_volume_desc allCryptos).
    assert (Hlen : List.length sorted = List.length allCryptos)
      by apply sort_length.
    unfold read_threshold, at_index.
    destruct (Z.ltb_spec i 0); [lia|].
    destruct (nth_error sorted (Z.to_nat i)) as [ci|] eqn:Hci;
      [|apply nth_error_None in Hci; lia].
    rewrite (Permutation_filter_length _ _ _
               (sort_perm by_volume_desc allCryptos)).
    fold sorted.
    assert (Hpre : (S (Z.to_nat i)
                    <= List.length (filter (is_high_volume (total_volume ci))
                                           sorted))%nat).
    { apply filter_length_prefix; [lia|].
      intros k d Hk. unfold is_high_volume. apply Qle_bool_iff.
      apply (nth_error_nth _ _ d) in Hci. rewrite <- Hci.
      destruct (Nat.eq_dec k (Z.to_nat i)) as [->|Hne]; [apply Qle_refl|].
      apply (ChartFacts.StronglySorted_nth
               (fun a b => total_volume b <= total_volume a) sorted d
               (sort_volume_sorted allCryptos) k (Z.to_nat i)).
      lia. }
    lia. }
  assert (Hno : forall cfg',
             (0 <= thresholdIndex cfg' allCryptos
              < Z.of_nat (List.length allCryptos))%Z ->
             (minResultsThreshold cfg' <= thresholdIndex cfg' allCryptos + 1)%Z ->
             needsApiCall cfg' allCryptos Volume = false).
  { intros cfg' Hi Hmin. cbn [needsApiCall]. apply Z.ltb_ge.
    unfold clientFiltered. rewrite stage1_any.
    specialize (Hcount _ Hi). lia. }
  split; [exact Hcount|]. split; [apply Hno|].
  intros Hbig.
  assert (Hidx : (4 <= thresholdIndex (config no_options) allCryptos
                  < Z.of_nat (List.length allCryptos))%Z).
  { apply default_thresholdIndex_bounds. lia. }
  apply Hno; [lia|].
  change (minResultsThreshold (config no_options)) with 5%Z. lia.
Qed.

Lemma stage1_volume_count_witness :
  needsApiCall (config no_options) Samples.page_of_50 Volume = false.
Proof.
  apply (proj2 (proj2 (stage1_volume_count (config no_options)
                                           Samples.page_of_50))).
  cbn. lia.
Defined.

(** X15.  With the options of [useClientSideFiltering]
    ([minResultsThreshold = 0]), and more generally with any
    [minResultsThreshold <= 0], the resolver never escalates: whatever the
    snapshot, the filter and the state of the remote query, the list shown
    is the stage-1 result and the state says so. *)
Theorem clientSide_never_escalates :
  forall (cfg : Config) (allCryptos : list Cryptocurrency)
         (filterType : FilterType) (apiData : option (list Cryptocurrency)),
    (minResultsThreshold cfg <= 0)%Z ->
    needsApiCall cfg allCryptos filterType = false /\
    filteredCryptos cfg allCryptos filterType apiData
    = clientFiltered cfg allCryptos filterType /\
    isClientFiltering (filteringState cfg allCryptos filterType apiData)
    = true /\
    minResultsThreshold (config clientSide_options) = 0%Z.
Proof.
  intros cfg allCryptos filterType apiData Hmin.
  assert (Hno : needsApiCall cfg allCryptos filterType = false).
  { destruct filterType; cbn [needsApiCall]; [reflexivity| | |];
      apply Z.ltb_ge; lia. }
  split; [exact Hno|].
  unfold filteredCryptos, filteringState. cbn [isClientFiltering].
  rewrite Hno. repeat split.
Qed.

Lemma clientSide_never_escalates_witness :
  needsApiCall (config clientSide_options) Samples.page_of_50 Winners = false.
Proof.
  assert (Hmin : (minResultsThreshold (config clientSide_options) <= 0)%Z)
    by (cbn; lia).
  exact (proj1 (clientSide_never_escalates (config clientSide_options)
                  Samples.page_of_50 Winners None Hmin)).
Defined.

(** X16.  What is shown and what the state says.  The list shown is the
    remote result exactly when escalation is needed and the remote result
    is a non-empty array; otherwise it is the stage-1 result.  When the
    state says [isClientFiltering] the list shown is indeed the stage-1
    result, but not conversely: after an escalation that found nothing
    (an empty array) the stage-1 result is shown while
    [isClientFiltering] is false.  [resultCount] is always the length of
    the list shown. *)
Theorem filteringState_and_display :
  forall (cfg : Config) (allCryptos : list Cryptocurrency)
         (filterType : FilterType) (apiData : option (list Cryptocurrency)),
    (forall c data,
        needsApiCall cfg allCryptos filterType = true ->
        apiData = Some (c :: data) ->
        filteredCryptos cfg allCryptos filterType apiData = c :: data) /\
    (needsApiCall cfg allCryptos filterType = false \/
     apiData = None \/ apiData = Some [] ->
     filteredCryptos cfg allCryptos filterType apiData
     = clientFiltered cfg allCryptos filterType) /\
    (isClientFiltering (filteringState cfg allCryptos filterType apiData)
     = true ->
     filteredCryptos cfg allCryptos filterType apiData
     = clientFiltered cfg allCryptos filterType) /\
    (needsApiCall cfg allCryptos filterType = true ->
     apiData = Some [] ->
     isClientFiltering (filteringState cfg allCryptos filterType apiData)
     = false) /\
    resultCount (filteringState cfg allCryptos filterType apiData)
    = List.length (filteredCryptos cfg allCryptos filterType apiData).
Proof.
  intros cfg allCryptos filterType apiData.
  assert (Hcount :
            resultCount (filteringState cfg allCryptos filterType apiData)
            = List.length (filteredCryptos cfg allCryptos filterType apiData))
    by reflexivity.
  revert Hcount. generalize (resultCount
    (filteringState cfg allCryptos filterType apiData)) as n. intros n Hcount.
  unfold filteringState. cbn [isClientFiltering].
  unfold filteredCryptos in *.
  destruct (needsApiCall cfg allCryptos filterType); cbn [negb orb] in *.
  - split; [intros c data _ ->; reflexivity|].
    split; [intros [H|[->| ->]]; [discriminate|reflexivity|reflexivity]|].
    split; [destruct apiData; [discriminate|reflexivity]|].
    split; [intros _ ->; reflexivity|exact Hcount].
  - split; [discriminate|]. repeat split; [discriminate|exact Hcount].
Qed.

Lemma filteringState_and_display_witness :
  filteredCryptos (config no_options) Samples.page_of_50 Winners (Some [])
  = clientFiltered (config no_options) Samples.page_of_50 Winners /\
  isClientFiltering
    (filteringState (config no_options) Samples.page_of_50 Winners (Some []))
  = false.
Proof.
  pose proof (filteringState_and_display (config no_options)
                Samples.page_of_50 Winners (Some []))
    as (_ & Hshown & _ & Hflag & _).
  split.
  - apply Hshown. right. right. reflexivity.
  - apply Hflag; reflexivity.
Defined.

Lemma filter_drawn_in_order {A} (p : A -> bool) (l : list A) :
  drawn_in_order l (filter p l).
Proof.
  induction l as [|x l (idx & Hsorted & Hmap)].
  - exists []. split; constructor.
  - assert (Hshift : StronglySorted lt (map S idx)).
    { clear Hmap. induction Hsorted as [|i idx Hs IH Hi]; cbn [map].
      - constructor.
      - constructor; [exact IH|].
        apply Forall_map. eapply Forall_impl; [|exact Hi]. cbn. lia. }
    assert (Hmap' : map Some (filter p l) = map (nth_error (x :: l)) (map S idx))
      by (rewrite map_map; exact Hmap).
    cbn [filter]. destruct (p x).
    + exists (0%nat :: map S idx). split.
      * constructor; [exact Hshift|].
        apply Forall_map, Forall_forall. intros i _. lia.
      * cbn [map nth_error]. now rewrite Hmap'.
    + exists (map S idx). split; assumption.
Qed.

(** X17.  Stage 1 never reorders, duplicates or invents records: for
    every filter its result lists records of the snapshot in snapshot
    order, so it is never longer than the snapshot; for ALL it is the
    snapshot itself, with threshold 0. *)
Theorem stage1_keeps_order :
  forall (cfg : Config) (allCryptos : list Cryptocurrency)
         (filterType : FilterType),
    drawn_in_order allCryptos (clientFiltered cfg allCryptos filterType) /\
    (List.length (clientFiltered cfg allCryptos filterType)
     <= List.length allCryptos)%nat /\
    clientFiltered cfg allCryptos All = allCryptos /\
    threshold cfg allCryptos All = 0.
Proof.
  intros cfg allCryptos filterType.
  unfold clientFiltered, threshold. rewrite !stage1_any.
  split; [|split; [|split; reflexivity]].
  - destruct filterType; cbn [stage1_at fst];
      try apply filter_drawn_in_order.
    rewrite <- (filter_true (A := Cryptocurrency) allCryptos) at 2.
    apply filter_drawn_in_order.
  - destruct filterType; cbn [stage1_at fst];
      try apply filter_length_le. lia.
Qed.

End FilterMore.

From Stdlib Require Import Lqa.

(* ================================================================== *)
(** * Properties of the refresh scheduler *)
(* ================================================================== *)

Module AutoRefreshFacts.

Import AutoRefresh.
Local Open Scope Q_scope.






Lemma ticks_count_down :
  forall (times : list Z) (st : State) (k : Z),
    isPaused st = false ->
    nextUpdateIn st == inject_Z k ->
    (Z.of_nat (List.length times) < k)%Z ->
    refreshed (run (ticks times) st) = refreshed st /\
    lastUpdated (run (ticks times) st) = lastUpdated st /\
    interval (run (ticks times) st) = interval st /\
    isPaused (run (ticks times) st) = false /\
    nextUpdateIn (run (ticks times) st)
    == inject_Z (k - Z.of_nat (List.length times)).
Proof.
  induction times as [|t times IH]; intros st k Hrun Hk Hlen.
  - cbn. rewrite Z.sub_0_r. auto.
  - cbn [ticks map run fold_left step List.length] in *.
    assert (Hgt : Qle_bool (nextUpdateIn st) 1 = false).
    { destruct (Qle_bool (nextUpdateIn st) 1) eqn:Hle; [|reflexivity].
      apply Qle_bool_iff in Hle. rewrite Hk in Hle.
      unfold Qle in Hle. cbn in Hle. lia. }
    unfold tick. rewrite Hrun, Hgt.
    destruct (IH (mkState (interval st) (lastUpdated st)
                          (nextUpdateIn st - 1) false (refreshed st))
                 (k - 1)%Z)
      as (Hr & Hl & Hi & Hp & Hn).
    + reflexivity.
    + cbn [nextUpdateIn]. rewrite Hk. unfold Qeq. cbn. lia.
    + lia.
    + unfold run, ticks in *. cbn [refreshed lastUpdated interval] in *.
      split; [exact Hr|]. split; [exact Hl|]. split; [exact Hi|].
      split; [exact Hp|]. rewrite Hn.
      unfold Qeq. cbn. lia.
Qed.

(** X19.  With an interval of [n] whole seconds, the scheduler started at
    time [now] shows [n - k] after [k < n] firings of the timer, without
    invoking the callback or touching the last-updated time; the [n]-th
    firing invokes the callback once, stamps its own time and puts the
    countdown back to [n]. *)
Theorem refresh_every_n_ticks :
  forall (n now : Z),
    (1 <= n)%Z ->
    (forall times,
        (Z.of_nat (List.length times) < n)%Z ->
        refreshed (run (ticks times) (init (inject_Z (1000 * n)) now))
        = 0%nat /\
        lastUpdated (run (ticks times) (init (inject_Z (1000 * n)) now))
        = now /\
        nextUpdateIn (run (ticks times) (init (inject_Z (1000 * n)) now))
        == inject_Z (n - Z.of_nat (List.length times))) /\
    (forall times t,
        (Z.of_nat (List.length times) = n - 1)%Z ->
        refreshed (run (ticks (times ++ [t]))
                       (init (inject_Z (1000 * n)) now)) = 1%nat /\
        lastUpdated (run (ticks (times ++ [t]))
                         (init (inject_Z (1000 * n)) now)) = t /\
        nextUpdateIn (run (ticks (times ++ [t]))
                          (init (inject_Z (1000 * n)) now))
        == inject_Z n).
Proof.
  intros n now Hn.
  assert (Hfull : inject_Z (1000 * n) / 1000 == inject_Z n).
  { rewrite inject_Z_mult. change (inject_Z 1000) with 1000. field. }
  assert (Hdown : forall times,
             (Z.of_nat (List.length times) < n)%Z ->
             let st := run (ticks times) (init (inject_Z (1000 * n)) now) in
             refreshed st = 0%nat /\ lastUpdated st = now /\
             interval st = inject_Z (1000 * n) /\ isPaused st = false /\
             nextUpdateIn st == inject_Z (n - Z.of_nat (List.length times))).
  { intros times Hlen.
    exact (ticks_count_down times (init (inject_Z (1000 * n)) now) n
             eq_refl Hfull Hlen). }
  split.
  - intros times Hlen. destruct (Hdown times Hlen) as (? & ? & _ & _ & ?).
    auto.
  - intros times t Hlen.
    destruct (Hdown times) as (Hr & Hl & Hi & Hp & Hnext); [lia|].
    unfold ticks, run in *. rewrite map_app, fold_left_app.
    cbn [map fold_left step]. unfold tick. rewrite Hp.
    assert (Hle : Qle_bool (nextUpdateIn
                     (fold_left step (map Tick times)
                        (init (inject_Z (1000 * n)) now))) 1 = true).
    { apply Qle_bool_iff. rewrite Hnext. rewrite Hlen.
      unfold Qle. cbn. lia. }
    rewrite Hle. cbn [refresh refreshed lastUpdated nextUpdateIn interval].
    rewrite Hr, Hi. split; [reflexivity|]. split; [reflexivity|exact Hfull].
Qed.

Lemma refresh_every_n_ticks_witness :
  refreshed (run (ticks [1000; 2000; 3000]%Z) (init (inject_Z (1000 * 3)) 0))
  = 1%nat.
Proof.
  assert (Hn : (1 <= 3)%Z) by lia.
  exact (proj1 (proj2 (refresh_every_n_ticks 3 0 Hn)
                  [1000; 2000]%Z 3000%Z eq_refl)).
Defined.

End AutoRefreshFacts.

(* ================================================================== *)
(** * Properties of the elapsed-time text *)
(* ================================================================== *)

Module TimeAgoFacts.

Import TimeAgo.
Local Open Scope string_scope.
Local Open Scope Z_scope.

(** X20.  [calculateTimeAgo] answers "hace un momento" below one minute,
    dates in the future included; otherwise it names the largest unit
    that fits (minutes, hours, days) with the whole number of such units
    elapsed.  The count shown is never 0, minutes stay below 60 and hours
    below 24, and the unit is in the singular exactly when the count
    is 1. *)
Theorem calculateTimeAgo_ranges :
  forall now date : Z,
    ((now - date) / 1000 < 60 /\
     calculateTimeAgo now date = "hace un momento") \/
    (exists n,
        1 <= n <= 59 /\
        60 * n <= (now - date) / 1000 < 60 * (n + 1) /\
        calculateTimeAgo now date = ago n "minuto" "minutos") \/
    (exists n,
        1 <= n <= 23 /\
        3600 * n <= (now - date) / 1000 < 3600 * (n + 1) /\
        calculateTimeAgo now date = ago n "hora" "horas") \/
    (exists n,
        1 <= n /\
        86400 * n <= (now - date) / 1000 < 86400 * (n + 1) /\
        calculateTimeAgo now date = ago n "día" "días").
Proof.
  intros now date. unfold calculateTimeAgo. cbv zeta.
  set (d := (now - date) / 1000).
  destruct (Z.ltb_spec d 60) as [H60|H60]; [left; split; [exact H60|reflexivity]|].
  right.
  destruct (Z.ltb_spec d 3600) as [H3600|H3600].
  { left. exists (d / 60). split; [|split; [|reflexivity]].
    - split; [apply Z.div_le_lower_bound; lia|].
      assert (d / 60 < 60) by (apply Z.div_lt_upper_bound; lia). lia.
    - pose proof (Z.div_mod d 60 ltac:(lia)).
      pose proof (Z.mod_pos_bound d 60 ltac:(lia)). lia. }
  right.
  destruct (Z.ltb_spec d 86400) as [H86400|H86400].
  { left. exists (d / 3600). split; [|split; [|reflexivity]].
    - split; [apply Z.div_le_lower_bound; lia|].
      assert (d / 3600 < 24) by (apply Z.div_lt_upper_bound; lia). lia.
    - pose proof (Z.div_mod d 3600 ltac:(lia)).
      pose proof (Z.mod_pos_bound d 3600 ltac:(lia)). lia. }
  right. exists (d / 86400). split; [|split; [|reflexivity]].
  - apply Z.div_le_lower_bound; lia.
  - pose proof (Z.div_mod d 86400 ltac:(lia)).
    pose proof (Z.mod_pos_bound d 86400 ltac:(lia)). lia.
Qed.

End TimeAgoFacts.

(* ================================================================== *)
(** * Properties of the input sanitizers and of the text truncation *)
(* ================================================================== *)

Module SecurityFacts.

Import JsString SecurityStr.
Local Open Scope N_scope.

Lemma subseq_refl {A} (l : list A) : subseq l l.
Proof. induction l; constructor; assumption. Qed.

Lemma subseq_trans {A} (a b c : list A) :
  subseq a b -> subseq b c -> subseq a c.
Proof.
  intros Hab Hbc. revert a Hab.
  induction Hbc as [|x b c Hbc IH|x b c Hbc IH]; intros a Hab.
  - exact Hab.
  - inversion Hab; subst.
    + constructor. now apply IH.
    + apply subseq_drop. now apply IH.
  - apply subseq_drop. now apply IH.
Qed.

Lemma subseq_In {A} (a b : list A) (x : A) :
  subseq a b -> In x a -> In x b.
Proof.
  induction 1 as [|y a b _ IH|y a b _ IH]; intros Hin.
  - exact Hin.
  - destruct Hin as [->|Hin]; [now left|right; now apply IH].
  - right. now apply IH.
Qed.

Lemma subseq_length {A} (a b : list A) :
  subseq a b -> (List.length a <= List.length b)%nat.
Proof. induction 1; cbn; lia. Qed.

Lemma subseq_nil_l {A} (l : list A) : subseq [] l.
Proof. induction l; constructor; assumption. Qed.

Lemma subseq_app {A} (a b c d : list A) :
  subseq a b -> subseq c d -> subseq (a ++ c) (b ++ d).
Proof. induction 1; intros Hcd; cbn; try constructor; auto. Qed.

Lemma subseq_rev {A} (a b : list A) :
  subseq a b -> subseq (rev a) (rev b).
Proof.
  induction 1 as [|x a b _ IH|x a b _ IH]; cbn.
  - constructor.
  - apply subseq_app; [exact IH|apply subseq_refl].
  - rewrite <- (app_nil_r (rev a)).
    apply subseq_app; [exact IH|apply subseq_nil_l].
Qed.

Lemma remove_from_subseq (re : matcher) :
  forall s skip, subseq (remove_from re skip s) s.
Proof.
  induction s as [|c rest IH]; intros skip; cbn [remove_from].
  - constructor.
  - destruct skip as [|k]; [|apply subseq_drop, IH].
    destruct (re (c :: rest)) as [[|k]|];
      [constructor; apply IH|apply subseq_drop, IH|constructor; apply IH].
Qed.

Lemma firstn_subseq {A} (n : nat) (l : list A) : subseq (firstn n l) l.
Proof.
  revert n. induction l as [|x l IH]; intros [|n]; cbn;
    try constructor; auto using subseq_nil_l.
Qed.

Lemma drop_space_subseq (s : jsstring) : subseq (drop_space s) s.
Proof.
  induction s as [|c rest IH]; cbn [drop_space]; [constructor|].
  destruct (is_space c); [now apply subseq_drop|apply subseq_refl].
Qed.

Lemma trim_subseq (s : jsstring) : subseq (trim s) s.
Proof.
  unfold trim.
  apply subseq_trans with (drop_space s); [|apply drop_space_subseq].
  rewrite <- (rev_involutive (drop_space s)) at 2.
  apply subseq_rev, drop_space_subseq.
Qed.

Lemma slice0_subseq (s : jsstring) (end_ : Z) : subseq (slice0 s end_) s.
Proof. apply firstn_subseq. Qed.

Lemma slice0_length (s : jsstring) (end_ : Z) :
  (0 <= end_)%Z -> (Z.of_nat (List.length (slice0 s end_)) <= end_)%Z.
Proof.
  intros Hend. unfold slice0. destruct (Z.ltb_spec end_ 0); [lia|].
  rewrite length_firstn. lia.
Qed.

(** What [drop_space] leaves starts with a character that is not white
    space, and is a tail of its argument. *)
Lemma drop_space_head (s : jsstring) (c : N) (rest : jsstring) :
  drop_space s = c :: rest -> is_space c = false.
Proof.
  induction s as [|x s IH]; cbn [drop_space]; [discriminate|].
  destruct (is_space x) eqn:Hx; [exact IH|].
  intros H. injection H as <- _. exact Hx.
Qed.

Lemma drop_space_tail (s : jsstring) :
  exists pre, s = pre ++ drop_space s.
Proof.
  induction s as [|x s (pre & Hpre)]; cbn [drop_space]; [now exists []|].
  destruct (is_space x); [|now exists []].
  exists (x :: pre). cbn. now rewrite <- Hpre.
Qed.

Lemma last_app_nonempty {A} (pre l : list A) (d : A) :
  l <> [] -> last (pre ++ l) d = last l d.
Proof.
  intros Hne. induction pre as [|x pre IH]; [reflexivity|].
  cbn [app]. destruct (pre ++ l) eqn:Happ.
  - destruct pre; [cbn in Happ; contradiction|discriminate].
  - exact IH.
Qed.

Lemma last_rev_hd {A} (l : list A) (x d : A) (rest : list A) :
  l = x :: rest -> last (rev l) d = x.
Proof. intros ->. cbn [rev]. apply last_last. Qed.

Lemma hd_rev_last {A} (l : list A) (d : A) :
  l <> [] -> hd d (rev l) = last l d.
Proof.
  intros Hne. destruct (exists_last Hne) as (pre & x & ->).
  now rewrite rev_app_distr, last_last.
Qed.

(** A trimmed string neither starts nor ends with white space. *)
Lemma trim_ends (s : jsstring) (c : N) (rest : jsstring) :
  trim s = c :: rest ->
  is_space c = false /\ is_space (last (trim s) c) = false.
Proof.
  unfold trim. set (t := drop_space s). set (u := drop_space (rev t)).
  intros Hr.
  assert (Hu : u <> []).
  { intros Hnil. rewrite Hnil in Hr. discriminate. }
  destruct u as [|y u'] eqn:Heq; [contradiction|].
  assert (Hy : is_space y = false) by (eapply drop_space_head; exact Heq).
  split.
  - (* the head of the result is the last of [u], the last of [rev t],
       that is the head of [t] *)
    destruct (drop_space_tail (rev t)) as (pre & Hpre).
    fold u in Hpre. rewrite Heq in Hpre.
    assert (Hc : c = last (y :: u') c).
    { rewrite <- (hd_rev_last (y :: u') c) by discriminate.
      now rewrite Hr. }
    assert (Hlast : last (rev t) c = last (y :: u') c).
    { rewrite Hpre. apply last_app_nonempty. discriminate. }
    destruct t as [|x t'] eqn:Ht.
    + cbn in Hpre. destruct pre; discriminate.
    + rewrite (last_rev_hd (x :: t') x c t' eq_refl) in Hlast.
      rewrite Hc, <- Hlast.
      eapply drop_space_head. exact Ht.
  - rewrite (last_rev_hd (y :: u') y c u' eq_refl). exact Hy.
Qed.

Lemma remove_angle_clean (s : jsstring) :
  ~ In 60 (remove_all angle_bracket s) /\
  ~ In 62 (remove_all angle_bracket s).
Proof.
  unfold remove_all.
  induction s as [|c rest (H60 & H62)]; cbn [remove_from angle_bracket];
    [split; intros []|].
  destruct (N.eqb_spec c 60) as [->|Hn60]; cbn [orb]; [now split|].
  destruct (N.eqb_spec c 62) as [->|Hn62]; [now split|].
  split; intros [Hc|Hin]; auto.
Qed.

(** X21.  Whatever the query, the sanitized query has at most 100
    characters, contains neither [<] nor [>], is obtained from the query
    by deleting characters only (nothing is added or reordered), and
    neither starts nor ends with white space.  In particular a query made
    of white space only is sanitized to the empty string. *)
Theorem sanitizeSearchQuery_safe :
  forall query : jsstring,
    (List.length (sanitizeSearchQuery query) <= 100)%nat /\
    ~ In 60 (sanitizeSearchQuery query) /\
    ~ In 62 (sanitizeSearchQuery query) /\
    subseq (sanitizeSearchQuery query) query /\
    (forall c rest,
        sanitizeSearchQuery query = c :: rest ->
        is_space c = false /\
        is_space (last (sanitizeSearchQuery query) c) = false) /\
    (forallb is_space query = true -> sanitizeSearchQuery query = []).
Proof.
  intros query. unfold sanitizeSearchQuery.
  set (s1 := remove_all angle_bracket query).
  set (s5 := remove_all (literal_ci "vbscript:")
               (remove_all (literal_ci "data:")
                  (remove_all on_handler
                     (remove_all (literal_ci "javascript:") s1)))).
  assert (H51 : subseq s5 s1).
  { unfold s5, remove_all.
    do 3 (eapply subseq_trans; [apply remove_from_subseq|]).
    apply remove_from_subseq. }
  assert (H1q : subseq s1 query) by apply remove_from_subseq.
  assert (Hout : subseq (trim (slice0 s5 100)) s1).
  { eapply subseq_trans; [apply trim_subseq|].
    eapply subseq_trans; [apply slice0_subseq|exact H51]. }
  destruct (remove_angle_clean query) as (H60 & H62). fold s1 in H60, H62.
  split; [|split; [|split; [|split; [|split]]]].
  - pose proof (subseq_length _ _ (trim_subseq (slice0 s5 100))).
    pose proof (slice0_length s5 100 ltac:(lia)). lia.
  - intros Hin. apply H60. eapply subseq_In; eauto.
  - intros Hin. apply H62. eapply subseq_In; eauto.
  - eapply subseq_trans; eauto.
  - intros c rest. apply trim_ends.
  - intros Hblank.
    destruct (trim (slice0 s5 100)) as [|c rest] eqn:Hr; [reflexivity|].
    exfalso. destruct (trim_ends _ _ _ Hr) as (Hc & _).
    assert (Hin : In c query).
    { eapply subseq_In; [eapply subseq_trans; [exact Hout|exact H1q]|].
      now left. }
    rewrite forallb_forall in Hblank. rewrite (Hblank c Hin) in Hc.
    discriminate.
Qed.

Lemma sanitizeSearchQuery_safe_witness :
  sanitizeSearchQuery (units "  ") = [].
Proof.
  apply (proj2 (proj2 (proj2 (proj2 (proj2
           (sanitizeSearchQuery_safe (units "  "))))))).
  reflexivity.
Defined.

(** The characters of a coin id are ordinary characters for the
    sanitizer. *)
Lemma is_id_char_plain (c : N) :
  is_id_char c = true ->
  c <> 60 /\ c <> 62 /\ c <> 58 /\ c <> 61 /\
  is_space c = false /\ lower c = c.
Proof.
  unfold is_id_char, is_space, lower.
  rewrite !orb_true_iff, !andb_true_iff, !N.leb_le, N.eqb_eq.
  intros Hc.
  repeat split; try lia.
  - repeat match goal with
           | |- context [(?a <=? ?b)] => destruct (N.leb_spec a b)
           | |- context [(?a =? ?b)] => destruct (N.eqb_spec a b)
           end; cbn; try reflexivity; lia.
  - repeat match goal with
           | |- context [(?a <=? ?b)] => destruct (N.leb_spec a b)
           end; cbn; try reflexivity; lia.
Qed.

Lemma remove_from_fixed (re : matcher) (good : N -> Prop) :
  (forall t, Forall good t -> re t = None) ->
  forall s, Forall good s -> remove_all re s = s.
Proof.
  intros Hre. unfold remove_all.
  induction s as [|c rest IH]; intros Hs; [reflexivity|].
  cbn [remove_from]. rewrite (Hre _ Hs).
  inversion Hs; subst. now rewrite IH.
Qed.

Lemma starts_with_ci_In (pat t : jsstring) :
  starts_with_ci pat t = true ->
  forall p, In p pat -> exists c, In c t /\ lower c = p.
Proof.
  revert t. induction pat as [|q pat IH]; intros t Hst p Hp; [contradiction|].
  destruct t as [|c t]; [discriminate|].
  cbn [starts_with_ci] in Hst. apply andb_true_iff in Hst.
  destruct Hst as [Hq Hrest]. apply N.eqb_eq in Hq.
  destruct Hp as [<-|Hp].
  - exists c. split; [now left|exact Hq].
  - destruct (IH t Hrest p Hp) as (c' & Hc' & Hl).
    exists c'. split; [now right|exact Hl].
Qed.

Lemma literal_ci_none (pat : string) (t : jsstring) :
  In 58 (units pat) ->
  Forall (fun c => is_id_char c = true) t ->
  literal_ci pat t = None.
Proof.
  intros Hcolon Ht. unfold literal_ci.
  destruct (starts_with_ci (units pat) t) eqn:Hst; [|reflexivity].
  exfalso.
  destruct (starts_with_ci_In _ _ Hst 58 Hcolon) as (c & Hc & Hl).
  rewrite Forall_forall in Ht.
  destruct (is_id_char_plain c (Ht c Hc)) as (_ & _ & Hn & _ & _ & Hlow).
  congruence.
Qed.

Lemma on_handler_none (t : jsstring) :
  Forall (fun c => is_id_char c = true) t -> on_handler t = None.
Proof.
  intros Ht. unfold on_handler.
  destruct t as [|o [|n rest]]; try reflexivity.
  destruct ((lower o =? 111) && (lower n =? 110)); [|reflexivity].
  cbv zeta.
  destruct ((1 <=? word_run rest)%nat && (nth (word_run rest) rest 0 =? 61))
    eqn:Hm; [|reflexivity].
  exfalso. apply andb_true_iff in Hm. destruct Hm as [_ Heq].
  apply N.eqb_eq in Heq.
  destruct (Nat.lt_ge_cases (word_run rest) (List.length rest)) as [Hlt|Hge].
  - assert (Hin : In 61 rest) by (rewrite <- Heq; now apply nth_In).
    rewrite Forall_forall in Ht.
    destruct (is_id_char_plain 61 (Ht 61 (or_intror (or_intror Hin))))
      as (_ & _ & _ & Hn & _).
    now apply Hn.
  - rewrite nth_overflow in Heq by exact Hge. discriminate.
Qed.

Lemma angle_bracket_none (t : jsstring) :
  Forall (fun c => is_id_char c = true) t -> angle_bracket t = None.
Proof.
  intros Ht. unfold angle_bracket. destruct t as [|c t]; [reflexivity|].
  inversion Ht as [|? ? Hc _]; subst.
  destruct (is_id_char_plain c Hc) as (H60 & H62 & _).
  destruct (N.eqb_spec c 60); [contradiction|].
  destruct (N.eqb_spec c 62); [contradiction|reflexivity].
Qed.

Lemma drop_space_fixed (s : jsstring) (c : N) (rest : jsstring) :
  s = c :: rest -> is_space c = false -> drop_space s = s.
Proof. intros -> Hc. cbn [drop_space]. now rewrite Hc. Qed.

Lemma trim_fixed (s : jsstring) :
  Forall (fun c => is_id_char c = true) s -> trim s = s.
Proof.
  intros Hs. unfold trim.
  assert (Hplain : forall c, In c s -> is_space c = false).
  { intros c Hc. rewrite Forall_forall in Hs.
    now destruct (is_id_char_plain c (Hs c Hc)) as (_ & _ & _ & _ & H & _). }
  destruct s as [|c rest]; [reflexivity|].
  rewrite (drop_space_fixed (c :: rest) c rest eq_refl)
    by (apply Hplain; now left).
  destruct (rev (c :: rest)) as [|y u] eqn:Hrev.
  - apply (f_equal (@List.length _)) in Hrev.
    rewrite length_rev in Hrev. discriminate.
  - rewrite (drop_space_fixed (y :: u) y u eq_refl).
    + rewrite <- Hrev. apply rev_involutive.
    + apply Hplain. apply in_rev. rewrite Hrev. now left.
Qed.

(** X22.  A valid coin id is a non-empty string of at most 50 lower-case
    letters, digits and hyphens, and the search sanitizer leaves every
    valid coin id exactly as it is. *)
Theorem isValidCoinId_sanitized_unchanged :
  forall id : jsstring,
    isValidCoinId id = true ->
    (1 <= List.length id <= 50)%nat /\
    (forall c, In c id ->
               97 <= c <= 122 \/ 48 <= c <= 57 \/ c = 45) /\
    sanitizeSearchQuery id = id.
Proof.
  intros id Hvalid. unfold isValidCoinId in Hvalid.
  rewrite !andb_true_iff, negb_true_iff, Nat.eqb_neq, Nat.leb_le in Hvalid.
  destruct Hvalid as ((Hne & Hchars) & Hlen).
  assert (Hall : Forall (fun c => is_id_char c = true) id)
    by (apply Forall_forall; now apply forallb_forall).
  split; [lia|]. split.
  - intros c Hc. rewrite Forall_forall in Hall. specialize (Hall c Hc).
    unfold is_id_char in Hall.
    rewrite !orb_true_iff, !andb_true_iff, !N.leb_le, N.eqb_eq in Hall.
    tauto.
  - unfold sanitizeSearchQuery.
    rewrite (remove_from_fixed angle_bracket _ angle_bracket_none id Hall).
    rewrite (remove_from_fixed (literal_ci "javascript:") _
               (fun t => literal_ci_none "javascript:" t ltac:(cbn; tauto)) id Hall).
    rewrite (remove_from_fixed on_handler _ on_handler_none id Hall).
    rewrite (remove_from_fixed (literal_ci "data:") _
               (fun t => literal_ci_none "data:" t ltac:(cbn; tauto)) id Hall).
    rewrite (remove_from_fixed (literal_ci "vbscript:") _
               (fun t => literal_ci_none "vbscript:" t ltac:(cbn; tauto)) id Hall).
    assert (Hslice : slice0 id 100 = id).
    { unfold slice0. cbn [Z.ltb Z.compare].
      replace (Z.to_nat (Z.min 100 (Z.of_nat (List.length id))))
        with (List.length id) by lia.
      apply firstn_all. }
    rewrite Hslice. now apply trim_fixed.
Qed.

Lemma isValidCoinId_sanitized_unchanged_witness :
  sanitizeSearchQuery (units "avalanche-2") = units "avalanche-2".
Proof.
  apply (proj2 (proj2 (isValidCoinId_sanitized_unchanged
                         (units "avalanche-2") eq_refl))).
Defined.

(** X23.  [truncateText] returns the text itself when it has at most
    [maxLength] characters.  Otherwise, for [maxLength >= 0], it returns
    the first [maxLength] characters followed by three dots, that is
    [maxLength + 3] characters: more than [maxLength], and more than the
    text itself when the text is less than 3 characters too long.  For a
    negative [maxLength] the dots follow the text without its last
    [-maxLength] characters. *)
Theorem truncateText_length :
  forall (text : jsstring) (maxLength : Z),
    ((Z.of_nat (List.length text) <= maxLength)%Z ->
     truncateText text maxLength = text) /\
    ((0 <= maxLength < Z.of_nat (List.length text))%Z ->
     truncateText text maxLength
     = firstn (Z.to_nat maxLength) text ++ units "..." /\
     Z.of_nat (List.length (truncateText text maxLength))
     = (maxLength + 3)%Z) /\
    ((maxLength < 0)%Z ->
     truncateText text maxLength
     = firstn (Z.to_nat (Z.of_nat (List.length text) + maxLength)) text
         ++ units "...").
Proof.
  intros text maxLength. unfold truncateText, slice0.
  split; [|split].
  - intros Hshort.
    now destruct (Z.leb_spec (Z.of_nat (List.length text)) maxLength); [|lia].
  - intros Hlong.
    destruct (Z.leb_spec (Z.of_nat (List.length text)) maxLength); [lia|].
    destruct (Z.ltb_spec maxLength 0); [lia|].
    replace (Z.min maxLength (Z.of_nat (List.length text)))
      with maxLength by lia.
    split; [reflexivity|].
    rewrite length_app, length_firstn. cbn [List.length units map
      list_ascii_of_string]. lia.
  - intros Hneg.
    destruct (Z.leb_spec (Z.of_nat (List.length text)) maxLength); [lia|].
    destruct (Z.ltb_spec maxLength 0); [|lia].
    f_equal. f_equal. lia.
Qed.

Lemma truncateText_length_witness :
  Z.of_nat (List.length (truncateText (units "abcd") 3)) = (3 + 3)%Z.
Proof.
  assert (Hlong : (0 <= 3 < Z.of_nat (List.length (units "abcd")))%Z)
    by (cbn; lia).
  exact (proj2 (proj1 (proj2 (truncateText_length (units "abcd") 3)) Hlong)).
Defined.

Lemma trim_fixed_ends (s : jsstring) (c : N) (rest : jsstring) :
  s = c :: rest ->
  is_space c = false -> is_space (last s c) = false ->
  trim s = s.
Proof.
  intros Hs Hc Hlast. unfold trim.
  rewrite (drop_space_fixed s c rest Hs Hc).
  destruct (rev s) as [|y u] eqn:Hrev.
  - apply (f_equal (@List.length _)) in Hrev.
    rewrite length_rev, Hs in Hrev. discriminate.
  - assert (Hy : y = last s c).
    { rewrite <- (hd_rev_last s c) by (rewrite Hs; discriminate).
      now rewrite Hrev. }
    rewrite (drop_space_fixed (y :: u) y u eq_refl) by (now rewrite Hy).
    rewrite <- Hrev. apply rev_involutive.
Qed.

Lemma trim_idempotent (s : jsstring) : trim (trim s) = trim s.
Proof.
  destruct (trim s) as [|c rest] eqn:Hr; [reflexivity|].
  destruct (trim_ends s c rest Hr) as (Hc & Hlast).
  rewrite Hr in Hlast.
  exact (trim_fixed_ends (c :: rest) c rest eq_refl Hc Hlast).
Qed.

(** X24.  [sanitizeString] returns the empty string for anything that is
    not a string.  For a string and [maxLength >= 0] it returns at most
    [maxLength] characters, taken in order from the string, without white
    space at either end; and sanitizing the result again with the same
    [maxLength] changes nothing. *)
Theorem sanitizeString_spec :
  forall (value : option jsstring) (maxLength : Z),
    (value = None -> sanitizeString value maxLength = []) /\
    (forall s,
        value = Some s ->
        subseq (sanitizeString value maxLength) s /\
        (forall c rest,
            sanitizeString value maxLength = c :: rest ->
            is_space c = false /\
            is_space (last (sanitizeString value maxLength) c) = false) /\
        ((0 <= maxLength)%Z ->
         (Z.of_nat (List.length (sanitizeString value maxLength))
          <= maxLength)%Z /\
         sanitizeString (Some (sanitizeString value maxLength)) maxLength
         = sanitizeString value maxLength)).
Proof.
  intros value maxLength. split; [now intros ->|].
  intros s ->. cbn [sanitizeString].
  assert (Hsub : subseq (trim (slice0 s maxLength)) s).
  { eapply subseq_trans; [apply trim_subseq|apply slice0_subseq]. }
  split; [exact Hsub|]. split; [intros c rest; apply trim_ends|].
  intros Hpos.
  assert (Hlen : (Z.of_nat (List.length (trim (slice0 s maxLength)))
                  <= maxLength)%Z).
  { pose proof (subseq_length _ _ (trim_subseq (slice0 s maxLength))).
    pose proof (slice0_length s maxLength Hpos). lia. }
  split; [exact Hlen|].
  assert (Hslice : slice0 (trim (slice0 s maxLength)) maxLength
                   = trim (slice0 s maxLength)).
  { unfold slice0 at 1. destruct (Z.ltb_spec maxLength 0); [lia|].
    replace (Z.to_nat (Z.min maxLength
               (Z.of_nat (List.length (trim (slice0 s maxLength))))))
      with (List.length (trim (slice0 s maxLength))) by lia.
    apply firstn_all. }
  rewrite Hslice. apply trim_idempotent.
Qed.

Lemma sanitizeString_spec_witness :
  (Z.of_nat (List.length (sanitizeString (Some (units "  bitcoin  ")) 5))
   <= 5)%Z.
Proof.
  assert (Hpos : (0 <= 5)%Z) by lia.
  exact (proj1 (proj2 (proj2 (proj2 (sanitizeString_spec
           (Some (units "  bitcoin  ")) 5) (units "  bitcoin  ") eq_refl))
           Hpos)).
Defined.

End SecurityFacts.
